(** * Social-network bottleneck detector: the graph analytics queries

    A shallow embedding of the analytics pipeline of the repository:
    - [backend/app/api/v1/algorithms.py]  (the run endpoint and its five stages),
    - [run_algorithms.py]                 (the batch script running the same stages),
    - [backend/app/services/neo4j_service.py] and [backend/app/api/v1/bottlenecks.py]
      (the top-bottlenecks read queries).

    The stages are Cypher queries executed against a Neo4j property graph.
    Each query is embedded clause by clause as a function on an explicit
    graph value: the rows a [MATCH] produces are lists, an aggregating
    [WITH] groups the rows by its non-aggregate expressions, and [SET]
    rewrites the matched nodes.

    Numbers: Cypher integers are modelled as [Z]; Cypher floats are
    modelled as exact rationals [Q], so every statement about a float is a
    statement about the real-valued formula the query evaluates. *)

From Stdlib Require Import ZArith QArith Qminmax Lqa Lia String.
From stdpp Require Import base option list sorting strings pretty gmap.

Open Scope Z_scope.
Open Scope Q_scope.
Open Scope string_scope.
Open Scope list_scope.
Open Scope stdpp_scope.

(** ** The property graph *)

(** A [:User] node with the properties the queries read or write.  An
    unset (null) property is [None].  [following_count] is the profile
    counter stored by the import scripts, not a count of relationships. *)
Record User := mkUser {
  id : string;
  following_count : option Z;
  out_degree : option Z;
  in_degree : option Z;
  degree_centrality : option Q;
  pagerank : option Q;
  betweenness_centrality : option Q;
  community_id : option string;
  bridge_score : option Q;
  bottleneck_score : option Q;
  is_bottleneck : option bool
}.

(** Nodes are addressed by their position in [users] (the node handle);
    a [:FOLLOWS] relationship is a pair (source handle, target handle) and
    is addressed by its position in [follows] (the relationship handle).
    Two relationships between the same endpoints are two entries. *)
Record Graph := mkGraph {
  users : list User;
  follows : list (nat * nat)
}.

(** A user as the import scripts create it: only the profile is set. *)
Definition new_user (i : string) (fc : option Z) : User :=
  mkUser i fc None None None None None None None None None.

Definition set_pagerank (r : option Q) (u : User) : User :=
  mkUser (id u) (following_count u) (out_degree u) (in_degree u)
    (degree_centrality u) r (betweenness_centrality u) (community_id u)
    (bridge_score u) (bottleneck_score u) (is_bottleneck u).

Definition set_betweenness_centrality (b : option Q) (u : User) : User :=
  mkUser (id u) (following_count u) (out_degree u) (in_degree u)
    (degree_centrality u) (pagerank u) b (community_id u)
    (bridge_score u) (bottleneck_score u) (is_bottleneck u).

Definition set_degrees (o i : option Z) (u : User) : User :=
  mkUser (id u) (following_count u) o i
    (degree_centrality u) (pagerank u) (betweenness_centrality u) (community_id u)
    (bridge_score u) (bottleneck_score u) (is_bottleneck u).

Definition set_degree_centrality (c : option Q) (u : User) : User :=
  mkUser (id u) (following_count u) (out_degree u) (in_degree u)
    c (pagerank u) (betweenness_centrality u) (community_id u)
    (bridge_score u) (bottleneck_score u) (is_bottleneck u).

Definition set_community_id (c : option string) (u : User) : User :=
  mkUser (id u) (following_count u) (out_degree u) (in_degree u)
    (degree_centrality u) (pagerank u) (betweenness_centrality u) c
    (bridge_score u) (bottleneck_score u) (is_bottleneck u).

Definition set_scores (bs sc : option Q) (flag : option bool) (u : User) : User :=
  mkUser (id u) (following_count u) (out_degree u) (in_degree u)
    (degree_centrality u) (pagerank u) (betweenness_centrality u) (community_id u)
    bs sc flag.

(** ** Cypher building blocks *)
Module Cypher.

(** [OPTIONAL MATCH]: the matches, or one row of nulls when there is none. *)
Definition optional_match {A} (l : list A) : list (option A) :=
  match l with
  | [] => [None]
  | _ => Some <$> l
  end.

(** The non-null values of a column. *)
Definition non_null {A} (col : list (option A)) : list A :=
  omap (fun x => x) col.

(** [count(x)]: null values are not counted. *)
Definition count {A} (col : list (option A)) : Z :=
  Z.of_nat (length (non_null col)).

(** [count(DISTINCT x)]. *)
Definition count_distinct `{EqDecision A} (col : list (option A)) : Z :=
  Z.of_nat (length (remove_dups (non_null col))).

Definition sumQ (l : list Q) : Q := foldr Qplus 0 l.

(** [sum(x)]: nulls are skipped and the sum of no value is 0. *)
Definition sum (col : list (option Q)) : Q := sumQ (non_null col).

Definition maxQ (l : list Q) : option Q :=
  match l with
  | [] => None
  | x :: l' => Some (foldr Qmax x l')
  end.

(** [max(x)]: nulls are skipped; null when no value is left. *)
Definition max (col : list (option Q)) : option Q := maxQ (non_null col).

(** [max(x)] on an integer column. *)
Definition max_int (col : list (option Z)) : option Z :=
  match non_null col with
  | [] => None
  | x :: l => Some (foldr Z.max x l)
  end.

(** [avg(x)]: null over no value. *)
Definition avg (col : list (option Q)) : option Q :=
  match non_null col with
  | [] => None
  | l => Some (sumQ l / inject_Z (Z.of_nat (length l)))
  end.

(** [COALESCE(x, d)]. *)
Definition coalesce {A} (x : option A) (d : A) : A := default d x.

(** Relationship handles paired with their endpoints. *)
Definition rels (g : Graph) : list (nat * (nat * nat)) :=
  imap (fun k e => (k, e)) (follows g).

(** [(u)-[r:FOLLOWS]->()]: handles of the relationships leaving [u]. *)
Definition out_rels (g : Graph) (u : nat) : list nat :=
  fst <$> filter (fun r => r.2.1 = u) (rels g).

(** [(u)<-[r:FOLLOWS]-()]: handles of the relationships entering [u]. *)
Definition in_rels (g : Graph) (u : nat) : list nat :=
  fst <$> filter (fun r => r.2.2 = u) (rels g).

(** [(u)<-[:FOLLOWS]-(follower:User)]: one row per entering relationship,
    bound to its source node. *)
Definition followers (g : Graph) (u : nat) : list nat :=
  (fun r => r.2.1) <$> filter (fun r => r.2.2 = u) (rels g).

(** [(u)-[r:FOLLOWS]-(v)]: one row per relationship incident to [u], in
    either direction, bound to the relationship and the other endpoint; a
    self-relationship is matched once. *)
Definition incident (g : Graph) (u : nat) : list (nat * nat) :=
  omap (fun r : nat * (nat * nat) =>
          if decide (r.2.1 = u) then Some (r.1, r.2.2)
          else if decide (r.2.2 = u) then Some (r.1, r.2.1)
          else None) (rels g).

(** [(u)-[:FOLLOWS]-(neighbor:User)]. *)
Definition neighbors (g : Graph) (u : nat) : list nat :=
  snd <$> incident g u.

(** [MATCH (u:User)]: the node handles. *)
Definition handles (g : Graph) : list nat := seq 0 (length (users g)).

(** [range(a, b)], both ends included. *)
Definition range (a b : Z) : list Z := seqZ a (b - a + 1).

(** [SET] on the nodes a query reaches: [f u] rewrites node [u]. *)
Definition set_nodes (f : nat -> User -> User) (g : Graph) : Graph :=
  mkGraph (imap f (users g)) (follows g).

(** A property of the node behind a handle; null for a null handle. *)
Definition prop {A} (g : Graph) (f : User -> option A) (v : option nat) : option A :=
  h ← v; usr ← users g !! h; f usr.

(** Grouping of a key column with [count( * )]: one row per distinct key. *)
Definition group_count `{EqDecision K} (keys : list K) : list (K * Z) :=
  (fun k => (k, Z.of_nat (length (filter (k =.) keys)))) <$> remove_dups keys.

(** [a > b] and [a >= b] on floats. *)
Definition gt (a b : Q) : bool := negb (Qle_bool a b).
Definition ge (a b : Q) : bool := Qle_bool b a.

End Cypher.

(** ** Outcomes of Python calls *)

(** Exceptions that reach the endpoint. *)
Inductive Exn :=
| HTTPException (status_code : Z) (detail : string)
| RequestValidationError (detail : string)
| ServiceUnavailable (msg : string)
| ClientError (msg : string).

(** [str(e)]. *)
Definition str (e : Exn) : string :=
  match e with
  | HTTPException c d => pretty c +:+ ": " +:+ d
  | RequestValidationError d => d
  | ServiceUnavailable m => m
  | ClientError m => m
  end.

(** A call either returns a value or raises. *)
Inductive Result (A : Type) :=
| Ok (a : A)
| Raise (e : Exn).
Arguments Ok {A} a.
Arguments Raise {A} e.

#[global] Instance result_ret : MRet Result := fun A a => Ok a.
#[global] Instance result_bind : MBind Result := fun A B k r =>
  match r with
  | Ok a => k a
  | Raise e => Raise e
  end.

(** ** The database service ([neo4j_service.py]) *)

(** A dynamically typed value of a result dictionary. *)
Inductive Value :=
| VNull
| VInt (n : Z)
| VFloat (q : Q).

Definition of_float (o : option Q) : Value :=
  match o with
  | Some q => VFloat q
  | None => VNull
  end.

Definition of_int (o : option Z) : Value :=
  match o with
  | Some n => VInt n
  | None => VNull
  end.

(** The server: whether it answers at all, the external procedure
    [gds.pageRank.stream('social-graph')] of the Graph Data Science
    library (it yields (node, score) rows, or fails when the library or
    the projected graph is missing), and the stored graph. *)
Record Neo4j := mkNeo4j {
  available : bool;
  gds_pageRank_stream : Graph -> Result (list (nat * Q));
  graph : Graph
}.

Definition with_graph (db : Neo4j) (g : Graph) : Neo4j :=
  mkNeo4j (available db) (gds_pageRank_stream db) g.

(** Python code running against the server: the server state is threaded
    through and survives an exception. *)
Definition Py (A : Type) : Type := Neo4j -> Neo4j * Result A.

#[global] Instance py_ret : MRet Py := fun A a db => (db, Ok a).
#[global] Instance py_bind : MBind Py := fun A B k c db =>
  match c db with
  | (db', Ok a) => k a db'
  | (db', Raise e) => (db', Raise e)
  end.

Definition py_raise {A} (e : Exn) : Py A := fun db => (db, Raise e).

(** [try: c except Exception as e: h e]. *)
Definition py_try {A} (c : Py A) (h : Exn -> Py A) : Py A := fun db =>
  match c db with
  | (db', Ok a) => (db', Ok a)
  | (db', Raise e) => h e db'
  end.

Module Neo4jService.

(** [execute_query]: runs a query in its own transaction.  A query is a
    function from the stored graph to the graph it leaves and the rows it
    returns; a query that fails leaves the graph as it was. *)
Definition execute_query {A} (query : Graph -> Result (Graph * list A)) : Py (list A) :=
  fun db =>
    if available db then
      match query (graph db) with
      | Ok (g', rows) => (with_graph db g', Ok rows)
      | Raise e => (db, Raise e)
      end
    else (db, Raise (ServiceUnavailable "Unable to connect to the database")).

(** [ORDER BY u.bottleneck_score DESC] on nodes whose score is set. *)
Definition score_desc (a b : User) : Prop :=
  Cypher.coalesce (bottleneck_score b) 0 <= Cypher.coalesce (bottleneck_score a) 0.

#[global] Instance score_desc_dec : RelDecision score_desc.
Proof.
  intros a b. unfold score_desc.
  destruct (Qlt_le_dec (Cypher.coalesce (bottleneck_score a) 0)
                       (Cypher.coalesce (bottleneck_score b) 0)) as [H|H].
  - right. apply Qlt_not_le, H.
  - left. exact H.
Defined.

(** [LIMIT $limit]: a negative limit is rejected by the server. *)
Definition limit_rows {A} (limit : Z) (rows : list A) : Result (list A) :=
  if (limit <? 0)%Z
  then Raise (ClientError "Invalid input for LIMIT. Must be a non-negative integer.")
  else Ok (take (Z.to_nat limit) rows).

(** The query of [get_top_bottlenecks]; [u {.*}] returns the node's
    properties. *)
Definition top_bottlenecks_query (limit : Z) (g : Graph) : Result (Graph * list User) :=
  let matched := filter (fun u => is_Some (bottleneck_score u)) (users g) in
  rows ← limit_rows limit (merge_sort score_desc matched);
  Ok (g, rows).

Definition get_top_bottlenecks (limit : Z) : Py (list User) :=
  results ← execute_query (top_bottlenecks_query limit);
  mret results.

End Neo4jService.

(** ** Formulas and passes shared by the endpoint and the batch script *)

(** [CASE WHEN degree > 0 THEN toFloat(outDegree * inDegree) / (degree * degree)
     ELSE 0.0 END]. *)
Definition approxBetweenness (outDegree inDegree : Z) : Q :=
  let degree := (outDegree + inDegree)%Z in
  if (0 <? degree)%Z
  then inject_Z (outDegree * inDegree) / inject_Z (degree * degree)
  else 0.

(** [CASE WHEN maxValue > 0 THEN value / maxValue ELSE 0 END]; a null
    maximum compares as null and takes the [ELSE] branch. *)
Definition normalize (value : Q) (maxValue : option Q) : Q :=
  match maxValue with
  | Some m => if Cypher.gt m 0 then value / m else 0
  | None => 0
  end.

(** [(0.4 * normBetweenness) + (0.3 * normPagerank) + (0.3 * bridgeScore)]. *)
Definition composite (normBetweenness normPagerank bridgeScore : Q) : Q :=
  (0.4 * normBetweenness) + (0.3 * normPagerank) + (0.3 * bridgeScore).

(** [WHERE u.pagerank IS NOT NULL AND u.betweenness_centrality IS NOT NULL]. *)
Definition has_dependencies (u : User) : bool :=
  bool_decide (is_Some (pagerank u)) && bool_decide (is_Some (betweenness_centrality u)).

(** [neighbor.community_id IS NOT NULL AND neighbor.community_id <> u.community_id];
    the comparison with a null [u.community_id] is null and rejects the row. *)
Definition foreign_community (g : Graph) (usr : User) (neighbor : nat) : bool :=
  match Cypher.prop g community_id (Some neighbor), community_id usr with
  | Some c, Some c' => negb (bool_decide (c = c'))
  | _, _ => false
  end.

(** [OPTIONAL MATCH (u)-[:FOLLOWS]-(neighbor:User) WHERE ...
     WITH u, count(DISTINCT neighbor.community_id) as bridgedCommunities]. *)
Definition bridgedCommunities (g : Graph) (u : nat) (usr : User) : Z :=
  let rows := Cypher.optional_match
                (filter (fun v => foreign_community g usr v = true) (Cypher.neighbors g u)) in
  Cypher.count_distinct (Cypher.prop g community_id <$> rows).

Definition weight_desc {K} (a b : K * Z) : Prop := (b.2 <= a.2)%Z.

#[global] Instance weight_desc_dec {K} : RelDecision (@weight_desc K) :=
  fun a b => decide (b.2 <= a.2)%Z.

(** One label-propagation pass over the rows (u, neighbor) of
    [MATCH (u:User)-[:FOLLOWS]-(neighbor:User)]:

    [WITH u, neighbor.community_id as neighborCommunity, count( * ) as weight
     ORDER BY weight DESC
     WITH u, collect(neighborCommunity)[0] as dominantCommunity
     SET u.community_id = dominantCommunity]

    The first [WITH] groups by (u, neighborCommunity), the second by u;
    [collect] skips nulls and keeps the order of its input, and indexing an
    empty list gives null.  Cypher leaves the order of equal weights open;
    the sort used here is one such order. *)
Definition propagate (g : Graph) (rows : list (nat * nat)) : Graph :=
  let keyed := (fun r => (r.1, Cypher.prop g community_id (Some r.2))) <$> rows in
  let ordered := merge_sort weight_desc (Cypher.group_count keyed) in
  let dominantCommunity (u : nat) : option string :=
    head (Cypher.non_null ((fun grp => grp.1.2) <$> filter (fun grp => grp.1.1 = u) ordered)) in
  Cypher.set_nodes
    (fun u usr => if decide (u ∈ fst <$> rows)
                  then set_community_id (dominantCommunity u) usr
                  else usr) g.

(** [MATCH (u:User) SET u.community_id = u.id]. *)
Definition init_communities (g : Graph) : Graph :=
  Cypher.set_nodes (fun _ usr => set_community_id (Some (id usr)) usr) g.

(** [MATCH (u:User) WITH count(u) as totalNodes
     MATCH (u:User) SET u.pagerank = 1.0 / totalNodes]. *)
Definition init_pagerank (g : Graph) : Graph :=
  let totalNodes := Cypher.count (Some <$> Cypher.handles g) in
  Cypher.set_nodes (fun _ usr => set_pagerank (Some (1 / inject_Z totalNodes)) usr) g.

(** [WITH u, COALESCE(sum(term), 0) as incomingRank] for the group of [u],
    over rows (u, follower); [term] is evaluated on the follower node. *)
Definition incomingRank (g : Graph) (term : User -> option Q)
    (rows : list (nat * option nat)) (u : nat) : Q :=
  Cypher.coalesce
    (Some (Cypher.sum ((fun row => Cypher.prop g term row.2)
                         <$> filter (fun row => row.1 = u) rows))) 0.

(** [SET u.pagerank = 0.15 + 0.85 * incomingRank], one row per group. *)
Definition update_pagerank (g : Graph) (term : User -> option Q)
    (rows : list (nat * option nat)) : Graph :=
  Cypher.set_nodes
    (fun u usr => if decide (u ∈ fst <$> rows)
                  then set_pagerank (Some (0.15 + 0.85 * incomingRank g term rows u)) usr
                  else usr) g.

(** [MATCH (u:User) OPTIONAL MATCH (u)<-[:FOLLOWS]-(follower:User)]. *)
Definition follower_rows (g : Graph) : list (nat * option nat) :=
  u ← Cypher.handles g;
  follower ← Cypher.optional_match (Cypher.followers g u);
  [(u, follower)].

(** [MATCH (u:User)-[:FOLLOWS]-(neighbor:User)]. *)
Definition neighbor_rows (g : Graph) : list (nat * nat) :=
  u ← Cypher.handles g;
  neighbor ← Cypher.neighbors g u;
  [(u, neighbor)].

(** The three [SET] items of the bottleneck query for one matched node. *)
Definition score_node (threshold : Q) (maxBetweenness maxPagerank : option Q)
    (bridgeScore : Q) (usr : User) : User :=
  let betweenness := Cypher.coalesce (betweenness_centrality usr) 0 in
  let pagerank := Cypher.coalesce (pagerank usr) 0 in
  let normBetweenness := normalize betweenness maxBetweenness in
  let normPagerank := normalize pagerank maxPagerank in
  set_scores (Some bridgeScore)
             (Some (composite normBetweenness normPagerank bridgeScore))
             (Some (Cypher.gt (composite normBetweenness normPagerank bridgeScore) threshold))
             usr.

(** ** The run endpoint ([backend/app/api/v1/algorithms.py]) *)
Module Algorithms.

Definition AVAILABLE_ALGORITHMS : list (string * string) :=
  [ ("pagerank", "PageRank centrality");
    ("betweenness", "Betweenness centrality");
    ("louvain", "Louvain community detection");
    ("bottleneck", "Composite bottleneck score calculation");
    ("degree", "Degree centrality") ].

(** Result rows of the queries. *)
Record StatsRow := mkStatsRow {
  nodesProcessed : Z;
  avgScore : option Q;
  maxScore : option Q
}.

Record CommunityRow := mkCommunityRow {
  communitiesFound : Z;
  avgCommunitySize : option Q;
  maxCommunitySize : option Z
}.

Record BottleneckRow := mkBottleneckRow {
  bn_nodesProcessed : Z;
  bn_avgScore : option Q;
  bottleneckCount : Z
}.

(** The dictionary a stage returns; a key that is absent is [None]. *)
Record StageDict := mkStageDict {
  d_nodes_processed : option Z;
  d_summary : option (list (string * Value));
  d_message : option string
}.

(** [AlgorithmRunResponse], without [execution_time_ms] (wall-clock). *)
Record AlgorithmRunResponse := mkResponse {
  algorithm : string;
  status : string;
  nodes_processed : Z;
  results_summary : list (string * Value);
  message : option string
}.

(** *** PageRank *)

(** The Graph Data Science attempt:
    [CALL gds.pageRank.stream('social-graph') YIELD nodeId, score
     WITH gds.util.asNode(nodeId) AS node, score SET node.pagerank = score
     RETURN count( * ) ..., avg(score) ..., max(score) ...]. *)
Definition gds_pagerank_query (stream : Graph -> Result (list (nat * Q)))
    (g : Graph) : Result (Graph * list StatsRow) :=
  rows ← stream g;
  let g' := mkGraph (foldl (fun us row => alter (set_pagerank (Some row.2)) row.1 us)
                           (users g) rows) (follows g) in
  Ok (g', [ mkStatsRow (Z.of_nat (length rows))
                       (Cypher.avg ((fun row => Some row.2) <$> rows))
                       (Cypher.max ((fun row => Some row.2) <$> rows)) ]).

(** [CASE WHEN follower.following_count > 0 THEN follower.following_count
     ELSE 1 END]; a null count compares as null and gives 1. *)
Definition divisor (follower : User) : Q :=
  match following_count follower with
  | Some n => if (0 <? n)%Z then inject_Z n else 1
  | None => 1
  end.

(** [follower.pagerank / CASE ... END]. *)
Definition contribution (follower : User) : option Q :=
  r ← pagerank follower; Some (r / divisor follower).

(** [UNWIND range(1, 20) as iteration MATCH (u:User)
     OPTIONAL MATCH (u)<-[:FOLLOWS]-(follower:User)]: the rows
    (iteration, u, follower). *)
Definition unwound_follower_rows (g : Graph) : list (Z * (nat * option nat)) :=
  iteration ← Cypher.range 1 20;
  row ← follower_rows g;
  [(iteration, row)].

(** The fallback query.  Its aggregating
    [WITH u, COALESCE(sum(...), 0) as incomingRank] names [u] as the only
    grouping key: [iteration] is not carried over, so the rows of all
    unwound iterations fall into the one group of their [u], and the
    [SET] after it runs once per node.  An aggregation consumes all of
    its input before it emits a row, so every [follower.pagerank] read
    is the value the first [SET] stored. *)
Definition pagerank_fallback_query (g : Graph) : Result (Graph * list StatsRow) :=
  let g1 := init_pagerank g in
  (* WITH count(u) as initialized: one row *)
  let rows := snd <$> unwound_follower_rows g1 in
  let g2 := update_pagerank g1 contribution rows in
  (* WITH count( * ) as updated: one row; MATCH (u:User) RETURN ... *)
  Ok (g2, [ mkStatsRow (Cypher.count (Some <$> Cypher.handles g2))
                       (Cypher.avg (pagerank <$> users g2))
                       (Cypher.max (pagerank <$> users g2)) ]).

Definition _run_pagerank (write_property : bool) : Py StageDict :=
  results ← py_try
    (fun db => Neo4jService.execute_query (gds_pagerank_query (gds_pageRank_stream db)) db)
    (fun _ => Neo4jService.execute_query pagerank_fallback_query);
  match results with
  | r :: _ =>
      mret (mkStageDict (Some (nodesProcessed r))
              (Some [("avg_score", of_float (avgScore r)); ("max_score", of_float (maxScore r))])
              (Some "PageRank scores calculated and stored"))
  | [] => mret (mkStageDict (Some 0%Z) None (Some "No nodes processed"))
  end.

(** *** Betweenness *)

(** [MATCH (u:User) OPTIONAL MATCH (u)-[outRel:FOLLOWS]->()
     OPTIONAL MATCH (u)<-[inRel:FOLLOWS]-()]: the rows (outRel, inRel) of
    one [u], every leaving relationship paired with every entering one. *)
Definition degree_rows (g : Graph) (u : nat) : list (option nat * option nat) :=
  outRel ← Cypher.optional_match (Cypher.out_rels g u);
  inRel ← Cypher.optional_match (Cypher.in_rels g u);
  [(outRel, inRel)].

(** [count(DISTINCT outRel) as outDegree, count(DISTINCT inRel) as inDegree]. *)
Definition outDegree (g : Graph) (u : nat) : Z :=
  Cypher.count_distinct (fst <$> degree_rows g u).
Definition inDegree (g : Graph) (u : nat) : Z :=
  Cypher.count_distinct (snd <$> degree_rows g u).

Definition betweenness_query (g : Graph) : Result (Graph * list StatsRow) :=
  let approx (u : nat) := approxBetweenness (outDegree g u) (inDegree g u) in
  let g' := Cypher.set_nodes
              (fun u usr => set_betweenness_centrality (Some (approx u)) usr) g in
  Ok (g', [ mkStatsRow (Cypher.count (Some <$> Cypher.handles g))
                       (Cypher.avg ((fun u => Some (approx u)) <$> Cypher.handles g))
                       (Cypher.max ((fun u => Some (approx u)) <$> Cypher.handles g)) ]).

Definition _run_betweenness (write_property : bool) (sample_size : option Z)
    : Py StageDict :=
  results ← Neo4jService.execute_query betweenness_query;
  match results with
  | r :: _ =>
      mret (mkStageDict (Some (nodesProcessed r))
              (Some [("avg_score", of_float (avgScore r)); ("max_score", of_float (maxScore r))])
              (Some "Betweenness centrality approximated and stored"))
  | [] => mret (mkStageDict (Some 0%Z) None (Some "No nodes processed"))
  end.

(** *** Community detection *)

(** [UNWIND range(1, 10) as iteration MATCH (u:User)-[:FOLLOWS]-(neighbor:User)]:
    the rows (iteration, (u, neighbor)). *)
Definition unwound_neighbor_rows (g : Graph) : list (Z * (nat * nat)) :=
  iteration ← Cypher.range 1 10;
  row ← neighbor_rows g;
  [(iteration, row)].

(** The label-propagation query.  As in the PageRank fallback, the
    aggregating [WITH u, neighbor.community_id as neighborCommunity,
    count( * ) as weight] does not carry [iteration]: the rows of the ten
    unwound iterations are grouped together, every weight is counted over
    all of them, and the [SET] runs once per node, on the labels the
    initialisation stored. *)
Definition louvain_query (g : Graph) : Result (Graph * list CommunityRow) :=
  let g1 := init_communities g in
  (* WITH count(u) as initialized: one row *)
  let rows := snd <$> unwound_neighbor_rows g1 in
  let g2 := propagate g1 rows in
  (* WITH count( * ) as updated: one row;
     MATCH (u:User) WITH u.community_id as communityId, count(u) as memberCount *)
  let communities := Cypher.group_count (community_id <$> users g2) in
  let memberCount := (fun c => Some c.2) <$> communities in
  Ok (g2, [ mkCommunityRow (Cypher.count_distinct (fst <$> communities))
                           (Cypher.avg (fmap inject_Z <$> memberCount))
                           (Cypher.max_int memberCount) ]).

Definition _run_louvain (write_property : bool) : Py StageDict :=
  results ← Neo4jService.execute_query louvain_query;
  match results with
  | r :: _ =>
      mret (mkStageDict (Some (communitiesFound r))
              (Some [("communities_found", VInt (communitiesFound r));
                     ("avg_community_size", of_float (avgCommunitySize r));
                     ("max_community_size", of_int (maxCommunitySize r))])
              (Some "Community detection completed"))
  | [] => mret (mkStageDict (Some 0%Z) None (Some "No communities detected"))
  end.

(** *** Bottleneck score *)

(** [max(5) as maxBridged], aggregated over the rows of [MATCH (all:User)]. *)
Definition maxBridged (g : Graph) : option Z :=
  Cypher.max_int ((fun _ => Some 5%Z) <$> users g).

(** The rows the query ends with: the matched nodes, rewritten.  The
    aggregation over [MATCH (all:User)] groups by [u] (and by values that
    depend on [u] only), so a matched node keeps exactly one row while
    there is a node to range over. *)
Definition score_user (g : Graph) (u : nat) (usr : User) : User :=
  if has_dependencies usr then
    match maxBridged g with
    | Some cap =>
        score_node 0.5
          (Cypher.max (betweenness_centrality <$> users g))
          (Cypher.max (pagerank <$> users g))
          (inject_Z (bridgedCommunities g u usr) / inject_Z cap) usr
    | None => usr
    end
  else usr.

Definition bottleneck_query (g : Graph) : Result (Graph * list BottleneckRow) :=
  let g' := Cypher.set_nodes (score_user g) g in
  let processed := filter (fun usr => has_dependencies usr = true) (users g') in
  Ok (g', [ mkBottleneckRow
              (Cypher.count (Some <$> processed))
              (Cypher.avg (bottleneck_score <$> processed))
              (Z.of_nat (length (filter (fun usr => is_bottleneck usr = Some true) processed))) ]).

Definition _run_bottleneck_score (write_property : bool) : Py StageDict :=
  results ← Neo4jService.execute_query bottleneck_query;
  match results with
  | r :: _ =>
      mret (mkStageDict (Some (bn_nodesProcessed r))
              (Some [("avg_bottleneck_score", of_float (bn_avgScore r));
                     ("bottleneck_count", VInt (bottleneckCount r))])
              (Some "Bottleneck scores calculated"))
  | [] => mret (mkStageDict (Some 0%Z) None (Some "Run pagerank and betweenness first"))
  end.

(** *** Degree *)

Definition degree_query (g : Graph) : Result (Graph * list StatsRow) :=
  let centrality (u : nat) := inject_Z (outDegree g u + inDegree g u) in
  let g' := Cypher.set_nodes
              (fun u usr => set_degree_centrality (Some (centrality u))
                              (set_degrees (Some (outDegree g u)) (Some (inDegree g u)) usr)) g in
  Ok (g', [ mkStatsRow (Cypher.count (Some <$> Cypher.handles g))
                       (Cypher.avg (degree_centrality <$> users g'))
                       (Cypher.max (degree_centrality <$> users g')) ]).

Definition _run_degree (write_property : bool) : Py StageDict :=
  results ← Neo4jService.execute_query degree_query;
  match results with
  | r :: _ =>
      mret (mkStageDict (Some (nodesProcessed r))
              (Some [("avg_degree", of_float (avgScore r)); ("max_degree", of_float (maxScore r))])
              (Some "Degree centrality calculated"))
  | [] => mret (mkStageDict (Some 0%Z) None (Some "No nodes processed"))
  end.

(** *** The endpoint *)

(** [list(AVAILABLE_ALGORITHMS.keys())] as the f-string prints it. *)
Definition available_repr : string :=
  "['pagerank', 'betweenness', 'louvain', 'bottleneck', 'degree']".

Definition run_algorithm (algorithm_name : string) (write_property : bool)
    (sample_size : option Z) : Py AlgorithmRunResponse :=
  if negb (bool_decide (algorithm_name ∈ fst <$> AVAILABLE_ALGORITHMS)) then
    py_raise (HTTPException 400
      ("Unknown algorithm: " +:+ algorithm_name +:+ ". Available: " +:+ available_repr))
  else
    py_try
      (result ←
         (if bool_decide (algorithm_name = "pagerank") then _run_pagerank write_property
          else if bool_decide (algorithm_name = "betweenness")
               then _run_betweenness write_property sample_size
          else if bool_decide (algorithm_name = "louvain") then _run_louvain write_property
          else if bool_decide (algorithm_name = "bottleneck")
               then _run_bottleneck_score write_property
          else if bool_decide (algorithm_name = "degree") then _run_degree write_property
          else py_raise (HTTPException 400 "Algorithm not implemented"));
       mret (mkResponse algorithm_name "completed"
               (default 0%Z (d_nodes_processed result))
               (default [] (d_summary result))
               (d_message result)))
      (fun e => mret (mkResponse algorithm_name "failed" 0%Z [] (Some (str e)))).

End Algorithms.

(** ** The batch script ([run_algorithms.py]) *)
Module RunAlgorithms.

(** [for i in range(n): body]. *)
Definition for_range (n : nat) (body : Graph -> Graph) (g : Graph) : Graph :=
  foldl (fun acc _ => body acc) g (seq 0 n).

(** One [session.run] of the PageRank loop:
    [MATCH (u:User) OPTIONAL MATCH (u)<-[:FOLLOWS]-(follower:User)
     WITH u, COALESCE(sum(follower.pagerank), 0) as incomingRank
     SET u.pagerank = 0.15 + 0.85 * incomingRank]. *)
Definition pagerank_pass (g : Graph) : Graph :=
  update_pagerank g pagerank (follower_rows g).

Definition run_pagerank (g : Graph) : Graph :=
  for_range 10 pagerank_pass (init_pagerank g).

(** One [session.run] of the community loop. *)
Definition community_pass (g : Graph) : Graph :=
  propagate g (neighbor_rows g).

Definition run_communities (g : Graph) : Graph :=
  for_range 5 community_pass (init_communities g).

(** [OPTIONAL MATCH (u)-[r:FOLLOWS]->() WITH u, count(r) as outDegree
     OPTIONAL MATCH (u)<-[r2:FOLLOWS]-()
     WITH u, outDegree, count(r2) as inDegree]. *)
Definition outDegree (g : Graph) (u : nat) : Z :=
  Cypher.count (Cypher.optional_match (Cypher.out_rels g u)).
Definition inDegree (g : Graph) (u : nat) : Z :=
  Cypher.count (Cypher.optional_match (Cypher.in_rels g u)).

Definition run_betweenness (g : Graph) : Graph :=
  Cypher.set_nodes
    (fun u usr =>
       set_degrees (Some (outDegree g u)) (Some (inDegree g u))
         (set_betweenness_centrality
            (Some (approxBetweenness (outDegree g u) (inDegree g u))) usr)) g.

(** The bottleneck query of the script: the maxima are wrapped in
    [COALESCE(..., 1)], the bridge count is divided by the literal [5.0]
    and the flag threshold is [0.3]. *)
Definition score_user (g : Graph) (u : nat) (usr : User) : User :=
  if has_dependencies usr then
    match users g with
    | [] => usr
    | _ =>
        score_node 0.3
          (Some (Cypher.coalesce (Cypher.max (betweenness_centrality <$> users g)) 1))
          (Some (Cypher.coalesce (Cypher.max (pagerank <$> users g)) 1))
          (inject_Z (bridgedCommunities g u usr) / 5.0) usr
    end
  else usr.

Definition run_bottleneck (g : Graph) : Graph :=
  Cypher.set_nodes (score_user g) g.

(** The script, top to bottom. *)
Definition main (g : Graph) : Graph :=
  run_bottleneck (run_betweenness (run_communities (run_pagerank g))).

End RunAlgorithms.

(** ** The bottleneck listing endpoint ([backend/app/api/v1/bottlenecks.py]) *)
Module Bottlenecks.

(** A row of the listing query: the node's properties with the two
    computed entries. *)
Record Row := mkRow {
  bottleneck : User;
  connected_communities : list string;
  influence_radius : Z
}.

(** An element of the returned list. *)
Record Entry := mkEntry {
  user : User;
  e_bottleneck_score : Q;
  e_betweenness_centrality : Q;
  e_bridge_score : Q;
  e_connected_communities : list string;
  e_influence_radius : Z
}.

Record Listing := mkListing {
  bottlenecks : list Entry;
  total : Z
}.

(** [WHERE u.bottleneck_score IS NOT NULL AND u.bottleneck_score >= $min_score
     AND ($community_id IS NULL OR u.community_id = $community_id)]. *)
Definition selected (min_score : Q) (community : option string) (usr : User) : bool :=
  match bottleneck_score usr with
  | Some s =>
      Cypher.ge s min_score &&
      match community with
      | None => true
      | Some c => bool_decide (community_id usr = Some c)
      end
  | None => false
  end.

(** [OPTIONAL MATCH (u)-[:FOLLOWS]-(neighbor:User)
     WHERE neighbor.community_id IS NOT NULL
     WITH u, collect(DISTINCT neighbor.community_id) as connectedCommunities]. *)
Definition connectedCommunities (g : Graph) (u : nat) : list string :=
  remove_dups (Cypher.non_null (Cypher.prop g community_id
                                  <$> Cypher.optional_match (Cypher.neighbors g u))).

(** [OPTIONAL MATCH (u)-[:FOLLOWS*1..2]-(influenced:User)]: the ends of
    the paths of one or two distinct relationships from [u]. *)
Definition influenced (g : Graph) (u : nat) : list nat :=
  step ← Cypher.incident g u;
  step.2 :: (snd <$> filter (fun step' => step'.1 ≠ step.1) (Cypher.incident g step.2)).

Definition influenceRadius (g : Graph) (u : nat) : Z :=
  Cypher.count_distinct (Cypher.optional_match (influenced g u)).

Definition row_desc (a b : Row) : Prop :=
  Neo4jService.score_desc (bottleneck a) (bottleneck b).

#[global] Instance row_desc_dec : RelDecision row_desc :=
  fun a b => decide (Neo4jService.score_desc (bottleneck a) (bottleneck b)).

Definition bottlenecks_query (limit : Z) (min_score : Q) (community : option string)
    (g : Graph) : Result (Graph * list Row) :=
  let matched := filter (fun r => selected min_score community r.2 = true)
                        (imap (fun u usr => (u, usr)) (users g)) in
  let rows := (fun r => mkRow r.2 (connectedCommunities g r.1) (influenceRadius g r.1))
                <$> matched in
  rows' ← Neo4jService.limit_rows limit (merge_sort row_desc rows);
  Ok (g, rows').

(** The entry built from one row; [b.get(key, d)] is [d] for an unset
    property. *)
Definition entry (r : Row) : Entry :=
  let b := bottleneck r in
  mkEntry b
    (default 0 (bottleneck_score b))
    (default 0 (betweenness_centrality b))
    (default 0 (bridge_score b))
    (connected_communities r)
    (influence_radius r).

(** [limit: int = Query(20, ge=1, le=100)] and
    [min_score: float = Query(0.0, ge=0.0, le=1.0)]: the framework rejects
    a request outside these bounds before the handler runs. *)
Definition get_bottlenecks (limit : Z) (min_score : Q) (community : option string)
    : Py Listing :=
  if (limit <? 1)%Z || (100 <? limit)%Z
     || negb (Cypher.ge min_score 0.0) || negb (Cypher.ge 1.0 min_score)
  then py_raise (RequestValidationError "Input should be within the declared bounds")
  else
    results ← Neo4jService.execute_query (bottlenecks_query limit min_score community);
    mret (mkListing (entry <$> results) (Z.of_nat (length results))).

End Bottlenecks.

(** ** Graph statistics ([Neo4jService.get_graph_stats] of [neo4j_service.py]) *)
Module GraphStats.

(** The returned dictionary; the dictionary of the failure branch has no
    [tweet_count] key. *)
Record Stats := mkStats {
  user_count : Z;
  follows_count : Z;
  community_count : Z;
  bottleneck_count : Z;
  tweet_count : option Z
}.

(** [MATCH (u:User) RETURN count(u) as cnt]. *)
Definition user_count_query (g : Graph) : Result (Graph * list Z) :=
  Ok (g, [Cypher.count (Some <$> Cypher.handles g)]).

(** [MATCH ()-[r:FOLLOWS]->() RETURN count(r) as cnt]. *)
Definition follows_count_query (g : Graph) : Result (Graph * list Z) :=
  Ok (g, [Cypher.count (Some <$> (fst <$> Cypher.rels g))]).

(** [MATCH (u:User) WHERE u.community_id IS NOT NULL
     RETURN count(DISTINCT u.community_id) as cnt]. *)
Definition community_count_query (g : Graph) : Result (Graph * list Z) :=
  let matched := filter (fun usr => is_Some (community_id usr)) (users g) in
  Ok (g, [Cypher.count_distinct (community_id <$> matched)]).

(** [MATCH (u:User) WHERE u.is_bottleneck = true RETURN count(u) as cnt]. *)
Definition bottleneck_count_query (g : Graph) : Result (Graph * list Z) :=
  let matched := filter (fun r => r.2 = Some true)
                        (imap (fun u usr => (u, is_bottleneck usr)) (users g)) in
  Ok (g, [Cypher.count (Some <$> (fst <$> matched))]).

(** [result[0]["cnt"] if result else 0]. *)
Definition cnt (result : list Z) : Z :=
  match result with
  | r :: _ => r
  | [] => 0%Z
  end.

Definition get_graph_stats : Py Stats :=
  py_try
    (user_result ← Neo4jService.execute_query user_count_query;
     rel_result ← Neo4jService.execute_query follows_count_query;
     comm_result ← Neo4jService.execute_query community_count_query;
     bn_result ← Neo4jService.execute_query bottleneck_count_query;
     mret (mkStats (cnt user_result) (cnt rel_result) (cnt comm_result) (cnt bn_result)
             (Some 0%Z)))
    (fun e => mret (mkStats 0 0 0 0 None)).

End GraphStats.

(** ** Community bridges ([get_community_bridges] of [bottlenecks.py]) *)
Module Bridges.

(** A row of the query: the node's properties with the two computed
    entries. *)
Record Bridge := mkBridge {
  bridge : User;
  bridged_communities : list string;
  bridge_count : Z
}.

Record Listing := mkListing {
  bridges : list Bridge;
  total : Z
}.

(** [MATCH (u:User)-[:FOLLOWS]-(neighbor:User)
     WHERE u.community_id IS NOT NULL AND neighbor.community_id IS NOT NULL
       AND u.community_id <> neighbor.community_id]: the rows of one [u]. *)
Definition matched (g : Graph) (u : nat) (usr : User) : list nat :=
  filter (fun v => foreign_community g usr v = true) (Cypher.neighbors g u).

(** [WITH u, collect(DISTINCT neighbor.community_id) as bridgedCommunities]. *)
Definition bridgedCommunities (g : Graph) (u : nat) (usr : User) : list string :=
  remove_dups (Cypher.non_null (Cypher.prop g community_id <$> (Some <$> matched g u usr))).

(** [size(bridgedCommunities)]. *)
Definition size {A} (l : list A) : Z := Z.of_nat (length l).

(** [ORDER BY size(bridgedCommunities) DESC, u.bottleneck_score DESC]; in
    descending order a null score comes before every number. *)
Definition score_before (a b : option Q) : Prop :=
  match a, b with
  | None, _ => True
  | Some _, None => False
  | Some x, Some y => y <= x
  end.

Definition bridge_desc (a b : Bridge) : Prop :=
  (bridge_count b < bridge_count a)%Z \/
  (bridge_count a = bridge_count b /\
   score_before (bottleneck_score (bridge a)) (bottleneck_score (bridge b))).

#[global] Instance score_before_dec : RelDecision score_before.
Proof.
  intros [x|] [y|]; unfold Decision, score_before.
  - destruct (Qlt_le_dec x y) as [H|H]; [right; by apply Qlt_not_le|by left].
  - right. tauto.
  - by left.
  - by left.
Defined.

#[global] Instance bridge_desc_dec : RelDecision bridge_desc.
Proof. intros a b. unfold bridge_desc. apply _. Defined.

Definition bridges_query (limit : Z) (g : Graph) : Result (Graph * list Bridge) :=
  let grouped := filter (fun r => matched g r.1 r.2 ≠ [])
                        (imap (fun u usr => (u, usr)) (users g)) in
  let rows := (fun r => (r.2, bridgedCommunities g r.1 r.2)) <$> grouped in
  let kept := filter (fun r => (2 <= size r.2)%Z) rows in
  rows' ← Neo4jService.limit_rows limit
            (merge_sort bridge_desc ((fun r => mkBridge r.1 r.2 (size r.2)) <$> kept));
  Ok (g, rows').

(** [limit: int = Query(20, ge=1, le=100)]. *)
Definition get_community_bridges (limit : Z) : Py Listing :=
  if (limit <? 1)%Z || (100 <? limit)%Z
  then py_raise (RequestValidationError "Input should be within the declared bounds")
  else
    results ← Neo4jService.execute_query (bridges_query limit);
    mret (mkListing results (Z.of_nat (length results))).

End Bridges.

(** * Notions used in the statements *)

(** The number of [:FOLLOWS] relationships leaving, and entering, a node. *)
Definition edges_from (g : Graph) (u : nat) : Z :=
  Z.of_nat (length (filter (fun e => e.1 = u) (follows g))).
Definition edges_to (g : Graph) (u : nat) : Z :=
  Z.of_nat (length (filter (fun e => e.2 = u) (follows g))).

(** The value the betweenness formula of the specification gives. *)
Definition betweenness_formula (out_deg in_deg : Z) : Q :=
  if decide (0 < out_deg + in_deg)%Z
  then inject_Z (out_deg * in_deg) / (inject_Z (out_deg + in_deg)) ^ 2
  else 0.

(** Every node is read through a term that cannot be negative. *)
Definition nonneg_terms (g : Graph) (term : User -> option Q) : Prop :=
  forall usr t, usr ∈ users g -> term usr = Some t -> 0 <= t.

(** All nodes carry a rank of at least [lo]. *)
Definition ranks_at_least (lo : Q) (g : Graph) : Prop :=
  forall usr, usr ∈ users g -> exists r, pagerank usr = Some r /\ lo <= r.

(** Relationships end in nodes of the graph. *)
Definition graph_wf (g : Graph) : Prop :=
  forall e, e ∈ follows g ->
    (e.1 < length (users g))%nat /\ (e.2 < length (users g))%nat.

(** The divisor the fallback applies to follower [v]. *)
Definition following_divisor (g : Graph) (v : nat) : Q :=
  match users g !! v with
  | Some follower => Algorithms.divisor follower
  | None => 1
  end.

(** The followers that the rows grouped under [u] bind. *)
Definition grouped_followers (g : Graph) (u : nat) : list nat :=
  Cypher.non_null
    (snd <$> filter (fun row => row.1 = u) (snd <$> Algorithms.unwound_follower_rows g)).

(** [m] is the largest value of property [f] over the nodes that carry it. *)
Definition global_max (g : Graph) (f : User -> option Q) (m : Q) : Prop :=
  (exists usr, usr ∈ users g /\ f usr = Some m) /\
  (forall usr x, usr ∈ users g -> f usr = Some x -> x <= m).

(** The normalised value of the specification: the ratio to the global
    maximum, and 0 when that maximum is 0. *)
Definition norm (value maxValue : Q) : Q :=
  if Qeq_bool maxValue 0 then 0 else value / maxValue.

(** The stage the endpoint dispatches to. *)
Definition dispatch (algorithm_name : string) (write_property : bool)
    (sample_size : option Z) : Py Algorithms.StageDict :=
  if bool_decide (algorithm_name = "pagerank") then Algorithms._run_pagerank write_property
  else if bool_decide (algorithm_name = "betweenness")
       then Algorithms._run_betweenness write_property sample_size
  else if bool_decide (algorithm_name = "louvain") then Algorithms._run_louvain write_property
  else if bool_decide (algorithm_name = "bottleneck")
       then Algorithms._run_bottleneck_score write_property
  else if bool_decide (algorithm_name = "degree") then Algorithms._run_degree write_property
  else py_raise (HTTPException 400 "Algorithm not implemented").

(** A stage that returns hands back a dictionary with a message. *)
Definition returns_message (stage : Py Algorithms.StageDict) : Prop :=
  forall db db' d, stage db = (db', Ok d) -> is_Some (Algorithms.d_message d).

(** [a] may stand before [b] in a listing by descending score: both
    scores are set and the score of [b] is not the larger one. *)
Definition score_ge (a b : User) : Prop :=
  exists sa sb, bottleneck_score a = Some sa /\ bottleneck_score b = Some sb /\ sb <= sa.

Definition scored (usr : User) : Prop := is_Some (bottleneck_score usr).

(** What a listing of at most [limit] nodes of [g] by descending score is. *)
Definition top_listing (g : Graph) (limit : Z) (rows : list User) : Prop :=
  (forall usr, usr ∈ rows -> usr ∈ users g /\ scored usr) /\
  (Z.of_nat (length rows) <= limit)%Z /\
  StronglySorted score_ge rows.

Definition lacks_dependency (usr : User) : Prop :=
  pagerank usr = None \/ betweenness_centrality usr = None.

(** ** The specification's formulas *)

(** [bridge_score(u) = min(bridged, 5) / 5]. *)
Definition spec_bridge_score (bridged : Z) : Q := inject_Z (Z.min bridged 5) / 5.

(** One PageRank iteration of the specification over the ranks of all
    nodes, in handle order: the base term plus the damped sum, over the
    followers [v] of [u], of [rank(v) / max(out_degree(v), 1)], with the
    out-degree counted on the graph. *)
Definition spec_pagerank_pass (damping : Q) (g : Graph) (rank : list Q) : list Q :=
  (fun u => (1 - damping) + damping *
      Cypher.sumQ ((fun v => default 0 (rank !! v) / Qmax (inject_Z (edges_from g v)) 1)
                     <$> remove_dups (Cypher.followers g u)))
    <$> Cypher.handles g.

Definition spec_pagerank (iterations : nat) (damping : Q) (g : Graph) : list Q :=
  Nat.iter iterations (spec_pagerank_pass damping g)
    ((fun _ => 1 / inject_Z (Z.of_nat (length (users g)))) <$> Cypher.handles g).

(** Label propagation as the specification runs it: the given number of
    synchronous passes after the initialisation. *)
Definition spec_label_propagation (iterations : nat) (g : Graph) : Graph :=
  Nat.iter iterations (fun g' => propagate g' (neighbor_rows g')) (init_communities g).

(** ** Notions of the further properties *)

(** [g'] has the relationships of [g], and its nodes are those of [g] up
    to the properties that [erase] blanks out. *)
Definition touches_only (erase : User -> User) (g g' : Graph) : Prop :=
  follows g' = follows g /\ erase <$> users g' = erase <$> users g.

(** Blanking out the properties a stage writes. *)
Definition erase_pagerank (usr : User) : User := set_pagerank None usr.
Definition erase_betweenness (usr : User) : User := set_betweenness_centrality None usr.
Definition erase_community (usr : User) : User := set_community_id None usr.
Definition erase_scores (usr : User) : User := set_scores None None None usr.
Definition erase_degrees (usr : User) : User :=
  set_degree_centrality None (set_degrees None None usr).

(** Blanking out every computed property: what is left is the profile. *)
Definition profile (usr : User) : User := new_user (id usr) (following_count usr).

(** The sum of an integer property over the nodes, unset values counting 0. *)
Definition total_of (f : User -> option Z) (g : Graph) : Z :=
  foldr Z.add 0%Z ((fun usr => default 0%Z (f usr)) <$> users g).

(** The message of a stage that ran. *)
Definition success_message (algorithm_name : string) : string :=
  if bool_decide (algorithm_name = "pagerank") then "PageRank scores calculated and stored"
  else if bool_decide (algorithm_name = "betweenness")
       then "Betweenness centrality approximated and stored"
  else if bool_decide (algorithm_name = "louvain") then "Community detection completed"
  else if bool_decide (algorithm_name = "bottleneck") then "Bottleneck scores calculated"
  else "Degree centrality calculated".

(** The number of distinct values a property takes over the nodes. *)
Definition distinct_values `{EqDecision A} (f : User -> option A) (g : Graph) : Z :=
  Z.of_nat (length (remove_dups (Cypher.non_null (f <$> users g)))).

(** The number of nodes that satisfy [P]. *)
Definition count_users (P : User -> bool) (g : Graph) : Z :=
  Z.of_nat (length (filter (fun usr => P usr = true) (users g))).

(** Two optional floats that are both unset or both set to the same number. *)
Definition same_float (a b : option Q) : Prop :=
  match a, b with
  | Some x, Some y => x == y
  | None, None => True
  | _, _ => False
  end.

(** The vote a row (u, neighbor) casts: [u] and the neighbour's label. *)
Definition vote (g : Graph) (r : nat * nat) : nat * option string :=
  (r.1, Cypher.prop g community_id (Some r.2)).

(** The number of rows of [u] that vote for label [c]. *)
Definition votes (g : Graph) (rows : list (nat * nat)) (u : nat) (c : string) : Z :=
  Z.of_nat (length (filter ((u, Some c) =.) (vote g <$> rows))).

(** Every node carries a community label, and the label is the identifier
    of a node of the graph. *)
Definition labelled_by_ids (g : Graph) : Prop :=
  forall usr, usr ∈ users g ->
    exists c, community_id usr = Some c /\ c ∈ id <$> users g.

(** Every attribute the batch script computes is set on the node. *)
Definition fully_scored (usr : User) : Prop :=
  is_Some (pagerank usr) /\ is_Some (betweenness_centrality usr) /\
  is_Some (out_degree usr) /\ is_Some (in_degree usr) /\
  is_Some (bridge_score usr) /\ is_Some (bottleneck_score usr) /\
  is_Some (is_bottleneck usr).

(** The bounds the listing endpoint declares for its parameters. *)
Definition in_bounds (limit : Z) (min_score : Q) : Prop :=
  (1 <= limit <= 100)%Z /\ 0 <= min_score /\ min_score <= 1.

(** The server a query leaves keeps the profiles and the relationships. *)
Definition keeps_structure {A} (c : Py A) : Prop :=
  forall db, touches_only profile (graph db) (graph (c db).1).

(** A stage that raises leaves the server as it found it, and a stage that
    returns hands back its fixed message and a summary. *)
Definition stage_outcome (message : string) (stage : Py Algorithms.StageDict) : Prop :=
  forall db db' r, stage db = (db', r) ->
    match r with
    | Raise _ => db' = db
    | Ok d => Algorithms.d_message d = Some message /\
              exists entry entries, Algorithms.d_summary d = Some (entry :: entries)
    end.

(** What the four counting queries count. *)
Definition counted (g : Graph) : GraphStats.Stats :=
  GraphStats.mkStats
    (Z.of_nat (length (users g)))
    (Z.of_nat (length (follows g)))
    (distinct_values community_id g)
    (count_users (fun usr => bool_decide (is_bottleneck usr = Some true)) g)
    (Some 0%Z).

(** The server a computation leaves answers if and only if it did. *)
Definition keeps_server {A} (c : Py A) : Prop :=
  forall db, available (c db).1 = available db.

(** ** Sample graphs *)

(** A server without the Graph Data Science library. *)
Definition server (g : Graph) : Neo4j :=
  mkNeo4j true
    (fun _ => Raise (ClientError "There is no procedure with the name `gds.pageRank.stream`"))
    g.

(** Two accounts of [init_db.py] and one follow between them. *)
Definition pair_graph : Graph :=
  mkGraph [ new_user "user_1" (Some 300%Z); new_user "user_2" (Some 150%Z) ]
          [ (0, 1) ]%nat.

(** A node with all three inputs of the bottleneck stage. *)
Definition scored_user (i : string) (r b : Q) (c : string) : User :=
  mkUser i None None None None (Some r) (Some b) (Some c) None None None.

(** An account that follows six accounts of six other communities. *)
Definition hub_graph : Graph :=
  mkGraph [ scored_user "hub" 1 0.25 "c0";
            scored_user "n1" 0.5 0 "c1"; scored_user "n2" 0.5 0 "c2";
            scored_user "n3" 0.5 0 "c3"; scored_user "n4" 0.5 0 "c4";
            scored_user "n5" 0.5 0 "c5"; scored_user "n6" 0.5 0 "c6" ]
          [ (0, 1); (0, 2); (0, 3); (0, 4); (0, 5); (0, 6) ]%nat.

(** A scored account and an account added after the stages ran. *)
Definition stale_graph : Graph :=
  mkGraph [ scored_user "user_1" 1 0.25 "user_1"; new_user "user_9" None ]
          [ (1, 0) ]%nat.

(** A graph whose scores were written by an earlier run. *)
Definition listed_graph : Graph :=
  mkGraph [ set_scores (Some 0) (Some 0.7) (Some true) (scored_user "user_1" 1 0.25 "a");
            new_user "user_9" None;
            set_scores (Some 0.2) (Some 0.9) (Some true) (scored_user "user_2" 1 0.25 "a") ]
          [ (0, 2); (1, 0) ]%nat.

(** An account that follows two accounts, with the profile counters in
    step with the relationships. *)
Definition fan_graph : Graph :=
  mkGraph [ new_user "user_1" (Some 2%Z); new_user "user_2" (Some 0%Z);
            new_user "user_3" (Some 0%Z) ]
          [ (0, 1); (0, 2) ]%nat.

(** * Properties *)

(** ** Rational arithmetic *)

Lemma Qdiv_inject_Z (a b : Z) :
  (0 < b)%Z -> inject_Z a / inject_Z b == a # Z.to_pos b.
Proof.
  intros Hb. destruct b as [|p|p]; try lia.
  unfold Qeq, Qdiv, Qmult, Qinv, inject_Z. simpl. lia.
Qed.

Lemma approxBetweenness_pos (o i : Z) :
  (0 < o + i)%Z ->
  approxBetweenness o i == (o * i) # Z.to_pos ((o + i) * (o + i)).
Proof.
  intros Hd. unfold approxBetweenness.
  destruct (Z.ltb_spec 0 (o + i)) as [_|?]; [|lia].
  apply Qdiv_inject_Z. nia.
Qed.

Lemma approxBetweenness_zero (o i : Z) :
  (o + i <= 0)%Z -> approxBetweenness o i = 0.
Proof.
  intros Hd. unfold approxBetweenness.
  destruct (Z.ltb_spec 0 (o + i)) as [?|_]; [lia|done].
Qed.

(** C8.  For all non-negative degrees the approximate betweenness the
    stage computes lies between 0 and 0.25, and it is 0.25 exactly when the
    two degrees are equal and positive. *)
Theorem approx_betweenness_bounds (o i : Z) :
  (0 <= o)%Z -> (0 <= i)%Z ->
  0 <= approxBetweenness o i /\
  approxBetweenness o i <= 0.25 /\
  (approxBetweenness o i == 0.25 <-> (o = i /\ 0 < o)%Z).
Proof.
  intros Ho Hi.
  destruct (Z_lt_le_dec 0 (o + i)) as [Hd|Hd].
  - rewrite (approxBetweenness_pos o i Hd).
    assert (Hsq : (0 < (o + i) * (o + i))%Z) by nia.
    unfold Qle, Qeq. cbn [Qnum Qden].
    rewrite !Z2Pos.id by exact Hsq.
    assert (Hsub : (0 <= (o - i) * (o - i))%Z) by apply Z.square_nonneg.
    assert (Hexp : ((o + i) * (o + i) = 4 * (o * i) + (o - i) * (o - i))%Z) by ring.
    split; [nia|]. split; [lia|]. split.
    + intros Heq.
      assert (Hz : ((o - i) * (o - i) = 0)%Z) by lia.
      apply Z.mul_eq_0 in Hz. lia.
    + intros [-> Hpos]. ring.
  - rewrite (approxBetweenness_zero o i Hd).
    split; [apply Qle_refl|]. split; [unfold Qle; simpl; lia|]. split.
    + intros Hq. unfold Qeq in Hq. simpl in Hq. lia.
    + lia.
Qed.

(** ** Rows and aggregates *)

Lemma non_null_Some {A} (l : list A) : Cypher.non_null (Some <$> l) = l.
Proof.
  unfold Cypher.non_null. induction l as [|x l IH]; [done|].
  csimpl. f_equal. exact IH.
Qed.

Lemma non_null_optional_match {A} (l : list A) :
  Cypher.non_null (Cypher.optional_match l) = l.
Proof.
  destruct l as [|x l]; [done|]. apply (non_null_Some (x :: l)).
Qed.

Lemma elem_of_non_null {A} (col : list (option A)) (x : A) :
  x ∈ Cypher.non_null col <-> Some x ∈ col.
Proof.
  unfold Cypher.non_null. rewrite list_elem_of_omap. split.
  - intros (y & Hy & Hx). simpl in Hx. by subst.
  - intros Hx. by exists (Some x).
Qed.

Lemma optional_match_inhabited {A} (l : list A) :
  exists y, y ∈ Cypher.optional_match l.
Proof.
  destruct l as [|x l]; simpl.
  - exists None. apply list_elem_of_here.
  - exists (Some x). apply list_elem_of_here.
Qed.

Lemma elem_of_optional_match {A} (l : list A) (x : A) :
  Some x ∈ Cypher.optional_match l <-> x ∈ l.
Proof. by rewrite <- elem_of_non_null, non_null_optional_match. Qed.

Lemma count_distinct_NoDup `{EqDecision A} (col : list (option A)) (l : list A) :
  NoDup l -> (forall x, Some x ∈ col <-> x ∈ l) ->
  Cypher.count_distinct col = Z.of_nat (length l).
Proof.
  intros Hl Hcol. unfold Cypher.count_distinct. f_equal.
  apply Permutation_length, NoDup_Permutation; [apply NoDup_remove_dups|done|].
  intros x. by rewrite elem_of_remove_dups, elem_of_non_null.
Qed.

Lemma fst_rels (g : Graph) : fst <$> Cypher.rels g = seq 0 (length (follows g)).
Proof.
  unfold Cypher.rels. rewrite fmap_imap.
  etrans; [apply (imap_seq_0 (follows g) (fun k => k))|]. apply list_fmap_id.
Qed.

Lemma NoDup_out_rels (g : Graph) (u : nat) : NoDup (Cypher.out_rels g u).
Proof.
  unfold Cypher.out_rels.
  eapply sublist_NoDup; [|apply fmap_sublist, sublist_filter].
  rewrite fst_rels. apply NoDup_seq.
Qed.

Lemma NoDup_in_rels (g : Graph) (u : nat) : NoDup (Cypher.in_rels g u).
Proof.
  unfold Cypher.in_rels.
  eapply sublist_NoDup; [|apply fmap_sublist, sublist_filter].
  rewrite fst_rels. apply NoDup_seq.
Qed.

Lemma length_filter_imap {A} (P : A -> Prop) {HP : forall e, Decision (P e)}
    (l : list A) (h : nat -> nat) :
  length (filter (fun r : nat * A => P r.2) (imap (fun k e => (h k, e)) l))
  = length (filter P l).
Proof.
  revert h. induction l as [|e l IH]; intros h; [done|].
  specialize (IH (h ∘ S)).
  change (imap (fun k e0 => (h k, e0)) (e :: l))
    with ((h 0%nat, e) :: imap (fun k e0 => ((h ∘ S) k, e0)) l).
  rewrite !filter_cons. cbn [snd].
  destruct (decide (P e)); cbn [length]; by rewrite IH.
Qed.

Lemma length_out_rels (g : Graph) (u : nat) :
  Z.of_nat (length (Cypher.out_rels g u)) = edges_from g u.
Proof.
  unfold Cypher.out_rels, edges_from, Cypher.rels. rewrite length_fmap.
  f_equal.
  apply (length_filter_imap (fun e => e.1 = u) (HP := fun e : nat * nat => Nat.eq_dec e.1 u)
           (follows g) (fun k => k)).
Qed.

Lemma length_in_rels (g : Graph) (u : nat) :
  Z.of_nat (length (Cypher.in_rels g u)) = edges_to g u.
Proof.
  unfold Cypher.in_rels, edges_to, Cypher.rels. rewrite length_fmap.
  f_equal.
  apply (length_filter_imap (fun e => e.2 = u) (HP := fun e : nat * nat => Nat.eq_dec e.2 u)
           (follows g) (fun k => k)).
Qed.

Lemma outDegree_edges (g : Graph) (u : nat) :
  Algorithms.outDegree g u = edges_from g u.
Proof.
  rewrite <- length_out_rels. unfold Algorithms.outDegree.
  apply count_distinct_NoDup; [apply NoDup_out_rels|].
  intros x. unfold Algorithms.degree_rows.
  rewrite list_elem_of_fmap. setoid_rewrite list_elem_of_bind.
  setoid_rewrite list_elem_of_bind. setoid_rewrite list_elem_of_singleton.
  rewrite <- elem_of_optional_match. split.
  - intros ([o i] & Hx & o' & (i' & Heq & _) & Ho). simpl in Hx. by simplify_eq.
  - intros Hx. destruct (optional_match_inhabited (Cypher.in_rels g u)) as [i Hi].
    exists (Some x, i). split; [done|]. exists (Some x). split; [|done]. by exists i.
Qed.

Lemma inDegree_edges (g : Graph) (u : nat) :
  Algorithms.inDegree g u = edges_to g u.
Proof.
  rewrite <- length_in_rels. unfold Algorithms.inDegree.
  apply count_distinct_NoDup; [apply NoDup_in_rels|].
  intros x. unfold Algorithms.degree_rows.
  rewrite list_elem_of_fmap. setoid_rewrite list_elem_of_bind.
  setoid_rewrite list_elem_of_bind. setoid_rewrite list_elem_of_singleton.
  rewrite <- elem_of_optional_match. split.
  - intros ([o i] & Hx & o' & (i' & Heq & Hi) & Ho). simpl in Hx. by simplify_eq.
  - intros Hx. destruct (optional_match_inhabited (Cypher.out_rels g u)) as [o Ho].
    exists (o, Some x). split; [done|]. exists o. split; [|done]. by exists (Some x).
Qed.

Lemma script_outDegree_edges (g : Graph) (u : nat) :
  RunAlgorithms.outDegree g u = edges_from g u.
Proof.
  unfold RunAlgorithms.outDegree, Cypher.count.
  by rewrite non_null_optional_match, length_out_rels.
Qed.

Lemma script_inDegree_edges (g : Graph) (u : nat) :
  RunAlgorithms.inDegree g u = edges_to g u.
Proof.
  unfold RunAlgorithms.inDegree, Cypher.count.
  by rewrite non_null_optional_match, length_in_rels.
Qed.

Lemma approxBetweenness_formula (o i : Z) :
  approxBetweenness o i == betweenness_formula o i.
Proof.
  unfold approxBetweenness, betweenness_formula.
  destruct (Z.ltb_spec 0 (o + i)); case_decide; try lia; [|done].
  rewrite inject_Z_mult. simpl. reflexivity.
Qed.

Lemma lookup_set_nodes (f : nat -> User -> User) (g : Graph) (u : nat) :
  users (Cypher.set_nodes f g) !! u = f u <$> users g !! u.
Proof. unfold Cypher.set_nodes. simpl. apply list_lookup_imap. Qed.

(** C7.  After the betweenness stage, of the endpoint and of the script,
    every node [u] carries [betweenness_centrality(u) = (out * in) /
    (out + in)^2] when [out + in > 0] and 0 otherwise, where [out] and [in]
    are the numbers of distinct [:FOLLOWS] relationships leaving and
    entering [u]. *)
Theorem betweenness_stage_formula (g : Graph) (u : nat) (usr : User) :
  users g !! u = Some usr ->
  (exists g' rows b,
      Algorithms.betweenness_query g = Ok (g', rows) /\
      Cypher.prop g' betweenness_centrality (Some u) = Some b /\
      b == betweenness_formula (edges_from g u) (edges_to g u)) /\
  (exists b,
      Cypher.prop (RunAlgorithms.run_betweenness g) betweenness_centrality (Some u) = Some b /\
      b == betweenness_formula (edges_from g u) (edges_to g u)).
Proof.
  intros Hu. split.
  - eexists _, _, _. split; [reflexivity|].
    unfold Cypher.prop. simpl. rewrite list_lookup_imap, Hu. simpl.
    split; [reflexivity|].
    rewrite outDegree_edges, inDegree_edges. apply approxBetweenness_formula.
  - eexists. unfold Cypher.prop, RunAlgorithms.run_betweenness. simpl.
    rewrite list_lookup_imap, Hu. simpl. split; [reflexivity|].
    rewrite script_outDegree_edges, script_inDegree_edges.
    apply approxBetweenness_formula.
Qed.

(** ** PageRank *)

Lemma sumQ_nonneg (l : list Q) :
  (forall x, x ∈ l -> 0 <= x) -> 0 <= Cypher.sumQ l.
Proof.
  induction l as [|x l IH]; intros Hl; simpl; [apply Qle_refl|].
  assert (0 <= x) by (apply Hl, list_elem_of_here).
  assert (0 <= Cypher.sumQ l) by (apply IH; intros y Hy; apply Hl; by right).
  lra.
Qed.

Lemma incomingRank_nonneg (g : Graph) (term : User -> option Q)
    (rows : list (nat * option nat)) (u : nat) :
  nonneg_terms g term -> 0 <= incomingRank g term rows u.
Proof.
  intros Hterm. unfold incomingRank, Cypher.coalesce, Cypher.sum. simpl.
  apply sumQ_nonneg. intros x Hx.
  apply elem_of_non_null, list_elem_of_fmap in Hx as (row & Hrow & _).
  unfold Cypher.prop in Hrow. symmetry in Hrow.
  destruct (row.2) as [v|]; simpl in Hrow; [|done].
  destruct (users g !! v) as [usr|] eqn:Hv; simpl in Hrow; [|done].
  eapply Hterm; [|done]. by eapply list_elem_of_lookup_2.
Qed.

Lemma pagerank_floor_step (s : Q) : 0 <= s -> 1 - 0.85 <= 0.15 + 0.85 * s.
Proof. intros Hs. lra. Qed.

Lemma update_pagerank_floor (g : Graph) (term : User -> option Q)
    (rows : list (nat * option nat)) :
  nonneg_terms g term ->
  (forall u, (u < length (users g))%nat -> u ∈ fst <$> rows) ->
  ranks_at_least (1 - 0.85) (update_pagerank g term rows).
Proof.
  intros Hterm Hrows usr Husr.
  unfold update_pagerank, Cypher.set_nodes in Husr. simpl in Husr.
  apply elem_of_lookup_imap in Husr as (u & usr0 & -> & Hu).
  rewrite decide_True by (apply Hrows; by eapply lookup_lt_Some).
  eexists. split; [reflexivity|].
  apply pagerank_floor_step, incomingRank_nonneg, Hterm.
Qed.

Lemma elem_of_handles (g : Graph) (u : nat) :
  u ∈ Cypher.handles g <-> (u < length (users g))%nat.
Proof. unfold Cypher.handles. rewrite elem_of_seq. lia. Qed.

Lemma handle_in_follower_rows (g : Graph) (u : nat) :
  (u < length (users g))%nat -> u ∈ fst <$> follower_rows g.
Proof.
  intros Hu. unfold follower_rows.
  destruct (optional_match_inhabited (Cypher.followers g u)) as [f Hf].
  apply list_elem_of_fmap. exists (u, f). split; [done|].
  apply list_elem_of_bind. exists u. split; [|by apply elem_of_handles].
  apply list_elem_of_bind. exists f. split; [|done]. apply list_elem_of_here.
Qed.

Lemma handle_in_unwound_follower_rows (g : Graph) (u : nat) :
  (u < length (users g))%nat ->
  u ∈ fst <$> (snd <$> Algorithms.unwound_follower_rows g).
Proof.
  intros Hu. apply handle_in_follower_rows, list_elem_of_fmap in Hu as (row & -> & Hrow).
  apply list_elem_of_fmap. exists row. split; [done|].
  apply list_elem_of_fmap. exists (1%Z, row). split; [done|].
  unfold Algorithms.unwound_follower_rows.
  apply list_elem_of_bind. exists 1%Z. split; [|by vm_compute; left].
  apply list_elem_of_bind. exists row. split; [|done]. apply list_elem_of_here.
Qed.

Lemma init_pagerank_users (g : Graph) (usr : User) :
  usr ∈ users (init_pagerank g) ->
  pagerank usr = Some (1 / inject_Z (Z.of_nat (length (users g)))).
Proof.
  unfold init_pagerank, Cypher.set_nodes. simpl.
  intros (u & usr0 & -> & Hu)%elem_of_lookup_imap. simpl.
  unfold Cypher.count. rewrite non_null_Some. unfold Cypher.handles.
  by rewrite length_seq.
Qed.

Lemma init_rank_nonneg (n : nat) : 0 <= 1 / inject_Z (Z.of_nat n).
Proof.
  destruct n as [|n]; [by vm_compute|].
  apply Qle_shift_div_l.
  - replace 0 with (inject_Z 0) by done. rewrite <- Zlt_Qlt. lia.
  - lra.
Qed.



Lemma for_range_S (n : nat) (body : Graph -> Graph) (g : Graph) :
  RunAlgorithms.for_range (S n) body g = body (RunAlgorithms.for_range n body g).
Proof. unfold RunAlgorithms.for_range. by rewrite seq_S, foldl_snoc. Qed.

Lemma ranks_at_least_weaken (lo lo' : Q) (g : Graph) :
  lo' <= lo -> ranks_at_least lo g -> ranks_at_least lo' g.
Proof.
  intros Hlo Hg usr Husr. destruct (Hg usr Husr) as (r & Hr & Hle).
  exists r. split; [done|]. by apply Qle_trans with lo.
Qed.

Lemma pagerank_pass_floor (g : Graph) :
  ranks_at_least 0 g -> ranks_at_least (1 - 0.85) (RunAlgorithms.pagerank_pass g).
Proof.
  intros Hg. apply update_pagerank_floor.
  - intros usr t Husr Ht. destruct (Hg usr Husr) as (r & Hr & Hle). congruence.
  - apply handle_in_follower_rows.
Qed.

Lemma init_pagerank_nonneg (g : Graph) : ranks_at_least 0 (init_pagerank g).
Proof.
  intros usr Husr. eexists. split; [by apply init_pagerank_users|].
  apply init_rank_nonneg.
Qed.

Lemma for_range_pagerank_floor (n : nat) (g : Graph) :
  ranks_at_least 0 g ->
  ranks_at_least (1 - 0.85) (RunAlgorithms.for_range (S n) RunAlgorithms.pagerank_pass g).
Proof.
  intros Hg. induction n as [|n IH]; rewrite for_range_S; apply pagerank_pass_floor.
  - done.
  - eapply ranks_at_least_weaken; [|exact IH]. lra.
Qed.


Lemma length_init_pagerank g : length (users (init_pagerank g)) = length (users g).
Proof. unfold init_pagerank, Cypher.set_nodes. simpl. apply length_imap. Qed.



Lemma elem_of_rels (g : Graph) (r : nat * (nat * nat)) :
  r ∈ Cypher.rels g <-> follows g !! r.1 = Some r.2.
Proof.
  unfold Cypher.rels. rewrite elem_of_lookup_imap. split.
  - intros (k & e & -> & He). done.
  - intros Hr. exists r.1, r.2. split; [by destruct r|done].
Qed.

Lemma elem_of_followers (g : Graph) (u v : nat) :
  v ∈ Cypher.followers g u <-> (v, u) ∈ follows g.
Proof.
  unfold Cypher.followers. rewrite list_elem_of_fmap.
  setoid_rewrite list_elem_of_filter. setoid_rewrite elem_of_rels. split.
  - intros ([k [s d]] & -> & Hd & Hk). simpl in *. subst d.
    by eapply list_elem_of_lookup_2.
  - intros (k & Hk)%list_elem_of_lookup_1.
    exists (k, (v, u)). done.
Qed.

Lemma lookup_init_pagerank (g : Graph) (v : nat) :
  users (init_pagerank g) !! v
  = set_pagerank (Some (1 / inject_Z (Z.of_nat (length (users g))))) <$> users g !! v.
Proof.
  unfold init_pagerank. rewrite lookup_set_nodes.
  unfold Cypher.count. rewrite non_null_Some. unfold Cypher.handles.
  by rewrite length_seq.
Qed.

Lemma contribution_init (g : Graph) (v : nat) :
  (v < length (users g))%nat ->
  Cypher.prop (init_pagerank g) Algorithms.contribution (Some v)
  = Some (1 / inject_Z (Z.of_nat (length (users g))) / following_divisor g v).
Proof.
  intros Hv. apply lookup_lt_is_Some_2 in Hv as [usr Husr].
  unfold Cypher.prop, following_divisor. cbn [mbind option_bind].
  rewrite lookup_init_pagerank, Husr. done.
Qed.

Lemma non_null_contributions (g : Graph) (col : list (option nat)) :
  (forall v, Some v ∈ col -> (v < length (users g))%nat) ->
  Cypher.non_null (Cypher.prop (init_pagerank g) Algorithms.contribution <$> col)
  = (fun v => 1 / inject_Z (Z.of_nat (length (users g))) / following_divisor g v)
      <$> Cypher.non_null col.
Proof.
  unfold Cypher.non_null.
  induction col as [|[v|] col IH]; intros Hcol; [done| |].
  - rewrite fmap_cons. cbn [omap list_omap].
    rewrite contribution_init by (apply Hcol; left).
    rewrite fmap_cons. f_equal. apply IH. intros w Hw. apply Hcol. by right.
  - rewrite fmap_cons. cbn [omap list_omap].
    change (Cypher.prop (init_pagerank g) Algorithms.contribution None) with (@None Q).
    apply IH. intros w Hw. apply Hcol. by right.
Qed.

Lemma elem_of_unwound_follower_rows (g : Graph) (row : nat * option nat) :
  row ∈ snd <$> Algorithms.unwound_follower_rows g <-> row ∈ follower_rows g.
Proof.
  unfold Algorithms.unwound_follower_rows. split.
  - intros (x & -> & Hx)%list_elem_of_fmap.
    apply list_elem_of_bind in Hx as (k & Hx & _).
    apply list_elem_of_bind in Hx as (row' & Hx & Hrow).
    by apply list_elem_of_singleton in Hx as ->.
  - intros Hrow. apply list_elem_of_fmap. exists (1%Z, row). split; [done|].
    apply list_elem_of_bind. exists 1%Z. split; [|by vm_compute; left].
    apply list_elem_of_bind. exists row. split; [apply list_elem_of_here|done].
Qed.

Lemma elem_of_follower_rows (g : Graph) (u : nat) (f : option nat) :
  (u, f) ∈ follower_rows g <->
  (u < length (users g))%nat /\ f ∈ Cypher.optional_match (Cypher.followers g u).
Proof.
  unfold follower_rows. rewrite list_elem_of_bind.
  setoid_rewrite list_elem_of_bind. setoid_rewrite list_elem_of_singleton.
  setoid_rewrite elem_of_handles. split.
  - intros (u' & (f' & Heq & Hf) & Hu). by simplify_eq.
  - intros [Hu Hf]. exists u. split; [by exists f|done].
Qed.

Lemma elem_of_grouped_followers (g : Graph) (u v : nat) :
  (u < length (users g))%nat ->
  v ∈ grouped_followers g u <-> (v, u) ∈ follows g.
Proof.
  intros Hu. unfold grouped_followers.
  rewrite elem_of_non_null, list_elem_of_fmap.
  setoid_rewrite list_elem_of_filter.
  setoid_rewrite elem_of_unwound_follower_rows.
  rewrite <- elem_of_followers, <- elem_of_optional_match. split.
  - intros ([u' f] & Hf & Hu' & Hrow). simpl in *. subst.
    by apply elem_of_follower_rows in Hrow as [_ ?].
  - intros Hv. exists (u, Some v). split; [done|]. split; [done|].
    by apply elem_of_follower_rows.
Qed.

(** ** Bottleneck score *)

Lemma Qmax_cases (a b : Q) : Qmax a b = a \/ Qmax a b = b.
Proof.
  unfold Qmax, GenericMinMax.gmax. destruct (a ?= b)%Q; auto.
Qed.

Lemma foldr_Qmax_elem (x : Q) (l : list Q) : foldr Qmax x l ∈ x :: l.
Proof.
  induction l as [|y l IH]; simpl; [left|].
  destruct (Qmax_cases y (foldr Qmax x l)) as [-> | ->].
  - right. left.
  - apply elem_of_cons in IH as [-> | IH]; [left|]. right. by right.
Qed.

Lemma foldr_Qmax_ub (x : Q) (l : list Q) (y : Q) :
  y ∈ x :: l -> y <= foldr Qmax x l.
Proof.
  induction l as [|z l IH]; simpl.
  - intros ->%list_elem_of_singleton. apply Qle_refl.
  - intros Hy. apply Q.max_le_iff.
    apply elem_of_cons in Hy as [-> | Hy].
    + right. apply IH. left.
    + apply elem_of_cons in Hy as [-> | Hy]; [left; apply Qle_refl|].
      right. apply IH. by right.
Qed.

Lemma maxQ_elem (l : list Q) (m : Q) : Cypher.maxQ l = Some m -> m ∈ l.
Proof.
  destruct l as [|x l]; [done|]. intros [= <-]. apply foldr_Qmax_elem.
Qed.

Lemma maxQ_ub (l : list Q) (m x : Q) : Cypher.maxQ l = Some m -> x ∈ l -> x <= m.
Proof.
  destruct l as [|y l]; [done|]. intros [= <-]. apply foldr_Qmax_ub.
Qed.

Lemma maxQ_is_Some (l : list Q) (x : Q) : x ∈ l -> is_Some (Cypher.maxQ l).
Proof. destruct l; [by intros ?%not_elem_of_nil|by eexists]. Qed.

Lemma elem_of_column (g : Graph) (f : User -> option Q) (x : Q) :
  x ∈ Cypher.non_null (f <$> users g) <-> exists usr, usr ∈ users g /\ f usr = Some x.
Proof.
  rewrite elem_of_non_null, list_elem_of_fmap. split.
  - intros (usr & Hx & Husr). eauto.
  - intros (usr & Husr & Hx). eauto.
Qed.

Lemma max_global_max (g : Graph) (f : User -> option Q) (usr : User) (x : Q) :
  usr ∈ users g -> f usr = Some x ->
  exists m, Cypher.max (f <$> users g) = Some m /\ global_max g f m.
Proof.
  intros Husr Hx.
  assert (Hin : x ∈ Cypher.non_null (f <$> users g)) by (apply elem_of_column; eauto).
  destruct (maxQ_is_Some _ _ Hin) as [m Hm].
  exists m. split; [done|]. split.
  - by apply elem_of_column, maxQ_elem.
  - intros v y Hv Hy. eapply maxQ_ub; [done|]. apply elem_of_column. eauto.
Qed.

Lemma normalize_norm (value m : Q) :
  0 <= m -> normalize value (Some m) = norm value m.
Proof.
  intros Hm. unfold normalize, norm, Cypher.gt.
  destruct (Qle_bool m 0) eqn:Hle; destruct (Qeq_bool m 0) eqn:Heq; simpl; try done.
  - apply Qle_bool_iff in Hle. apply Qeq_bool_neq in Heq.
    exfalso. apply Heq. by apply Qle_antisym.
  - apply Qeq_bool_iff in Heq. rewrite Heq in Hle. done.
Qed.

Lemma global_max_nonneg (g : Graph) (f : User -> option Q) (m : Q) (usr : User) (x : Q) :
  usr ∈ users g -> f usr = Some x -> 0 <= x -> global_max g f m -> 0 <= m.
Proof.
  intros Husr Hx Hpos [_ Hub]. apply Qle_trans with x; [done|]. by eapply Hub.
Qed.

Lemma maxBridged_nonempty (g : Graph) (usr : User) :
  usr ∈ users g -> is_Some (Algorithms.maxBridged g).
Proof.
  intros Husr. unfold Algorithms.maxBridged, Cypher.max_int.
  assert (Hin : 5%Z ∈ Cypher.non_null ((fun _ : User => Some 5%Z) <$> users g)).
  { apply elem_of_non_null, list_elem_of_fmap. by exists usr. }
  destruct (Cypher.non_null _); [by apply not_elem_of_nil in Hin|by eexists].
Qed.

Lemma has_dependencies_true (usr : User) (p b : Q) :
  pagerank usr = Some p -> betweenness_centrality usr = Some b ->
  has_dependencies usr = true.
Proof.
  intros Hp Hb. unfold has_dependencies. rewrite Hp, Hb.
  apply andb_true_intro. split; by apply bool_decide_eq_true.
Qed.

Lemma score_node_formula (threshold : Q) (maxB maxP bs b p : Q) (usr : User) :
  pagerank usr = Some p -> betweenness_centrality usr = Some b ->
  0 <= maxB -> 0 <= maxP ->
  let usr' := score_node threshold (Some maxB) (Some maxP) bs usr in
  bridge_score usr' = Some bs /\
  exists sc, bottleneck_score usr' = Some sc /\
             sc == 0.4 * norm b maxB + 0.3 * norm p maxP + 0.3 * bs.
Proof.
  intros Hp Hb HmaxB HmaxP. unfold score_node, set_scores.
  cbn [bridge_score bottleneck_score]. split; [done|].
  eexists. split; [reflexivity|].
  rewrite Hp, Hb. unfold Cypher.coalesce. cbn [default]. unfold Datatypes.id.
  rewrite !normalize_norm by done. unfold composite. reflexivity.
Qed.

(** C5.  For a node [u] that carries [pagerank] [p] and
    [betweenness_centrality] [b], neither of them negative, the endpoint
    query and the script query both store [bottleneck_score(u) = 0.4 * normBetweenness
    + 0.3 * normPagerank + 0.3 * bridge_score(u)], where the two normalised
    values are the ratios of [b] and [p] to the global maxima (0 for a
    maximum of 0) and [bridge_score(u)] is the value stored with it. *)
Theorem bottleneck_score_formula (g : Graph) (u : nat) (usr : User) (p b : Q) :
  users g !! u = Some usr ->
  pagerank usr = Some p ->
  betweenness_centrality usr = Some b ->
  0 <= p -> 0 <= b ->
  exists maxB maxP,
    global_max g betweenness_centrality maxB /\
    global_max g pagerank maxP /\
    (exists g' rows usr' bs sc,
        Algorithms.bottleneck_query g = Ok (g', rows) /\
        users g' !! u = Some usr' /\
        bridge_score usr' = Some bs /\
        bottleneck_score usr' = Some sc /\
        sc == 0.4 * norm b maxB + 0.3 * norm p maxP + 0.3 * bs) /\
    (exists usr' bs sc,
        users (RunAlgorithms.run_bottleneck g) !! u = Some usr' /\
        bridge_score usr' = Some bs /\
        bottleneck_score usr' = Some sc /\
        sc == 0.4 * norm b maxB + 0.3 * norm p maxP + 0.3 * bs).
Proof.
  intros Hu Hp Hb HnP HnB.
  assert (Husr : usr ∈ users g) by (by eapply list_elem_of_lookup_2).
  destruct (max_global_max g betweenness_centrality usr b Husr Hb) as (maxB & HmaxB & HgB).
  destruct (max_global_max g pagerank usr p Husr Hp) as (maxP & HmaxP & HgP).
  pose proof (global_max_nonneg _ _ _ usr b Husr Hb HnB HgB) as HB0.
  pose proof (global_max_nonneg _ _ _ usr p Husr Hp HnP HgP) as HP0.
  exists maxB, maxP. split; [done|]. split; [done|]. split.
  - destruct (maxBridged_nonempty g usr Husr) as [cap Hcap].
    destruct (score_node_formula 0.5 maxB maxP
                (inject_Z (bridgedCommunities g u usr) / inject_Z cap) b p usr Hp Hb HB0 HP0)
      as (Hbs & sc & Hsc & Heq).
    eexists _, _, _, _, sc. split; [reflexivity|].
    rewrite lookup_set_nodes, Hu. cbn [fmap option_fmap option_map].
    unfold Algorithms.score_user.
    rewrite (has_dependencies_true usr p b Hp Hb), Hcap, HmaxB, HmaxP. done.
  - destruct (score_node_formula 0.3 maxB maxP
                (inject_Z (bridgedCommunities g u usr) / 5.0) b p usr Hp Hb HB0 HP0)
      as (Hbs & sc & Hsc & Heq).
    eexists _, _, sc. unfold RunAlgorithms.run_bottleneck.
    rewrite lookup_set_nodes, Hu. cbn [fmap option_fmap option_map].
    unfold RunAlgorithms.score_user.
    rewrite (has_dependencies_true usr p b Hp Hb), HmaxB, HmaxP.
    destruct (users g) eqn:Hus; [by apply not_elem_of_nil in Husr|]. done.
Qed.

(** ** The run endpoint *)

Lemma execute_query_cases {A} (query : Graph -> Result (Graph * list A)) (db : Neo4j) :
  (exists g' rows, query (graph db) = Ok (g', rows) /\ available db = true /\
     Neo4jService.execute_query query db = (with_graph db g', Ok rows)) \/
  (exists e, Neo4jService.execute_query query db = (db, Raise e)).
Proof.
  unfold Neo4jService.execute_query. destruct (available db); [|right; eauto].
  destruct (query (graph db)) as [[g' rows]|e]; [left|right]; eauto.
Qed.

Ltac stage_message query :=
  let db := fresh "db" in let db' := fresh "db'" in let d := fresh "d" in
  let H := fresh "H" in
  intros db db' d H; cbv beta delta [mbind py_bind] in H;
  destruct (execute_query_cases query db)
    as [(g' & rows & _ & _ & Hq) | (e & Hq)];
  rewrite Hq in H; [|discriminate];
  destruct rows; injection H as <- <-; by eexists.

Lemma run_betweenness_message wp ss :
  returns_message (Algorithms._run_betweenness wp ss).
Proof.
  unfold Algorithms._run_betweenness. stage_message Algorithms.betweenness_query.
Qed.

Lemma run_louvain_message wp : returns_message (Algorithms._run_louvain wp).
Proof. unfold Algorithms._run_louvain. stage_message Algorithms.louvain_query. Qed.

Lemma run_bottleneck_message wp : returns_message (Algorithms._run_bottleneck_score wp).
Proof.
  unfold Algorithms._run_bottleneck_score. stage_message Algorithms.bottleneck_query.
Qed.

Lemma run_degree_message wp : returns_message (Algorithms._run_degree wp).
Proof. unfold Algorithms._run_degree. stage_message Algorithms.degree_query. Qed.

Lemma run_pagerank_message wp : returns_message (Algorithms._run_pagerank wp).
Proof.
  intros db db' d H. unfold Algorithms._run_pagerank in H.
  cbv beta delta [mbind py_bind py_try] in H.
  destruct (execute_query_cases
              (Algorithms.gds_pagerank_query (gds_pageRank_stream db)) db)
    as [(g' & rows & _ & _ & Hq) | (e & Hq)]; rewrite Hq in H.
  - destruct rows; injection H as <- <-; by eexists.
  - destruct (execute_query_cases Algorithms.pagerank_fallback_query db)
      as [(g' & rows & _ & _ & Hq') | (e' & Hq')]; rewrite Hq' in H; [|discriminate].
    destruct rows; injection H as <- <-; by eexists.
Qed.

Lemma dispatch_message name wp ss : returns_message (dispatch name wp ss).
Proof.
  unfold dispatch. repeat case_bool_decide;
    auto using run_pagerank_message, run_betweenness_message, run_louvain_message,
               run_bottleneck_message, run_degree_message.
  intros db db' d Hraise. discriminate.
Qed.

Lemma known_algorithm (name : string) :
  name ∈ fst <$> Algorithms.AVAILABLE_ALGORITHMS <->
  name = "pagerank" \/ name = "betweenness" \/ name = "louvain"
  \/ name = "bottleneck" \/ name = "degree".
Proof.
  cbn. rewrite !elem_of_cons. split; [|tauto].
  intros [?|[?|[?|[?|[?|?%not_elem_of_nil]]]]]; tauto.
Qed.

(** C4, amended.  For each of the five known names the endpoint returns a
    response for that name whose status is "completed" or "failed" and whose
    message is set, whatever the server does; for any other name it raises
    an HTTP 400 exception to its caller and leaves the server untouched. *)
Theorem run_algorithm_outcome (name : string) (wp : bool) (ss : option Z) (db : Neo4j) :
  (name ∈ fst <$> Algorithms.AVAILABLE_ALGORITHMS ->
   exists db' resp,
     Algorithms.run_algorithm name wp ss db = (db', Ok resp) /\
     Algorithms.algorithm resp = name /\
     (Algorithms.status resp = "completed" \/ Algorithms.status resp = "failed") /\
     is_Some (Algorithms.message resp)) /\
  (name ∉ (fst <$> Algorithms.AVAILABLE_ALGORITHMS) ->
   exists detail,
     Algorithms.run_algorithm name wp ss db = (db, Raise (HTTPException 400 detail))).
Proof.
  split; intros Hname.
  - unfold Algorithms.run_algorithm. rewrite bool_decide_true by done. cbn [negb].
    fold (dispatch name wp ss).
    cbv beta delta [py_try mbind py_bind mret py_ret].
    destruct (dispatch name wp ss db) as [db' [d|e]] eqn:Hd.
    + eexists _, _. split; [reflexivity|]. cbn. split; [done|]. split; [by left|].
      by eapply dispatch_message.
    + eexists _, _. split; [reflexivity|]. cbn. split; [done|]. split; [by right|].
      by eexists.
  - unfold Algorithms.run_algorithm. rewrite bool_decide_false by done. cbn [negb].
    by eexists.
Qed.

(** ** The read queries *)

#[local] Instance score_desc_trans : Transitive Neo4jService.score_desc.
Proof. intros a b c Hab Hbc. unfold Neo4jService.score_desc in *. by eapply Qle_trans. Qed.

#[local] Instance score_desc_total : Total Neo4jService.score_desc.
Proof.
  intros a b. unfold Neo4jService.score_desc.
  destruct (Qlt_le_dec (Cypher.coalesce (bottleneck_score a) 0)
                       (Cypher.coalesce (bottleneck_score b) 0)) as [Hlt|Hle].
  - right. by apply Qlt_le_weak.
  - by left.
Qed.

#[local] Instance row_desc_trans : Transitive Bottlenecks.row_desc.
Proof. intros a b c. unfold Bottlenecks.row_desc. apply score_desc_trans. Qed.

#[local] Instance row_desc_total : Total Bottlenecks.row_desc.
Proof. intros a b. unfold Bottlenecks.row_desc. apply score_desc_total. Qed.

Lemma limit_rows_Ok {A} (limit : Z) (rows rows' : list A) :
  Neo4jService.limit_rows limit rows = Ok rows' ->
  (0 <= limit)%Z /\ rows' = take (Z.to_nat limit) rows.
Proof.
  unfold Neo4jService.limit_rows. destruct (Z.ltb_spec limit 0); [done|].
  by intros [= <-].
Qed.

Lemma limit_rows_nonneg {A} (limit : Z) (rows : list A) :
  (0 <= limit)%Z ->
  Neo4jService.limit_rows limit rows = Ok (take (Z.to_nat limit) rows).
Proof.
  intros Hl. unfold Neo4jService.limit_rows. destruct (Z.ltb_spec limit 0); [lia|done].
Qed.

Lemma StronglySorted_take {A} (R : relation A) (n : nat) (l : list A) :
  StronglySorted R l -> StronglySorted R (take n l).
Proof.
  intros Hl. rewrite <- (take_drop n l) in Hl. by eapply StronglySorted_app_1_l.
Qed.

Lemma length_take_limit {A} (limit : Z) (l : list A) :
  (0 <= limit)%Z -> (Z.of_nat (length (take (Z.to_nat limit) l)) <= limit)%Z.
Proof. intros Hl. rewrite length_take. lia. Qed.

Lemma sorted_scored (l : list User) :
  StronglySorted Neo4jService.score_desc l -> Forall scored l ->
  StronglySorted score_ge l.
Proof.
  induction 1 as [|a l Hl IH Ha]; intros Hs; [constructor|].
  apply Forall_cons in Hs as [[sa Hsa] Hs]. constructor; [by apply IH|].
  apply Forall_forall. intros b Hb.
  pose proof (proj1 (Forall_forall _ _) Ha b Hb) as Hab.
  destruct (proj1 (Forall_forall _ _) Hs b Hb) as [sb Hsb].
  unfold Neo4jService.score_desc in Hab. rewrite Hsa, Hsb in Hab.
  by exists sa, sb.
Qed.

Lemma top_listing_take_sort (g : Graph) (limit : Z) (matched : list User) :
  (0 <= limit)%Z ->
  (forall usr, usr ∈ matched -> usr ∈ users g /\ scored usr) ->
  top_listing g limit (take (Z.to_nat limit) (merge_sort Neo4jService.score_desc matched)).
Proof.
  intros Hl Hm.
  assert (Hin : forall usr,
             usr ∈ take (Z.to_nat limit) (merge_sort Neo4jService.score_desc matched) ->
             usr ∈ users g /\ scored usr).
  { intros usr Husr. apply Hm.
    rewrite <- (merge_sort_Permutation Neo4jService.score_desc matched).
    eapply elem_of_sublist; [done|apply sublist_take]. }
  split; [done|]. split; [by apply length_take_limit|].
  apply sorted_scored.
  - apply StronglySorted_take, StronglySorted_merge_sort; apply _.
  - apply Forall_forall. intros usr Husr. by apply Hin.
Qed.

Lemma selected_scored (min_score : Q) (community : option string) (usr : User) :
  Bottlenecks.selected min_score community usr = true -> scored usr.
Proof.
  unfold Bottlenecks.selected, scored. by destruct (bottleneck_score usr).
Qed.

(** C10.  For every limit: on a server that answers and a limit that is
    not negative the top-bottlenecks query returns; whatever it returns, and
    whatever the listing endpoint returns, holds only nodes of the graph
    whose [bottleneck_score] is set, at most [limit] of them, in
    non-increasing order of [bottleneck_score]. *)
Theorem top_bottlenecks_listing (limit : Z) (db : Neo4j) :
  (available db = true -> (0 <= limit)%Z ->
   exists rows, Neo4jService.get_top_bottlenecks limit db = (db, Ok rows)) /\
  (forall db' rows,
     Neo4jService.get_top_bottlenecks limit db = (db', Ok rows) ->
     top_listing (graph db) limit rows) /\
  (forall min_score community db' listing,
     Bottlenecks.get_bottlenecks limit min_score community db = (db', Ok listing) ->
     top_listing (graph db) limit (Bottlenecks.user <$> Bottlenecks.bottlenecks listing)).
Proof.
  split; [|split].
  - intros Hav Hl. unfold Neo4jService.get_top_bottlenecks.
    cbv beta delta [mbind py_bind mret py_ret Neo4jService.execute_query].
    rewrite Hav. unfold Neo4jService.top_bottlenecks_query.
    rewrite limit_rows_nonneg by done. cbn. destruct db; by eexists.
  - intros db' rows. unfold Neo4jService.get_top_bottlenecks.
    cbv beta delta [mbind py_bind mret py_ret Neo4jService.execute_query].
    destruct (available db); [|done].
    unfold Neo4jService.top_bottlenecks_query.
    destruct (Neo4jService.limit_rows limit _) as [rows'|e] eqn:Hlim; cbn; [|done].
    intros [= _ <-]. apply limit_rows_Ok in Hlim as [Hl ->].
    apply top_listing_take_sort; [done|].
    intros usr [Hs Hu]%list_elem_of_filter. done.
  - intros min_score community db' listing. unfold Bottlenecks.get_bottlenecks.
    destruct (_ || _); [done|].
    cbv beta delta [mbind py_bind mret py_ret Neo4jService.execute_query].
    destruct (available db); [|done].
    unfold Bottlenecks.bottlenecks_query.
    destruct (Neo4jService.limit_rows limit _) as [rows'|e] eqn:Hlim; cbn; [|done].
    intros [= _ <-]. cbn. apply limit_rows_Ok in Hlim as [Hl ->].
    rewrite <- list_fmap_compose.
    set (rows := _ <$> filter _ _).
    assert (Hrows : forall r, r ∈ rows ->
              Bottlenecks.bottleneck r ∈ users (graph db) /\ scored (Bottlenecks.bottleneck r)).
    { intros r (x & -> & Hx)%list_elem_of_fmap.
      apply list_elem_of_filter in Hx as [Hsel Hx].
      apply elem_of_lookup_imap in Hx as (u & usr & -> & Hu). cbn in *.
      split; [by eapply list_elem_of_lookup_2|by eapply selected_scored]. }
    assert (Hin : forall r, r ∈ take (Z.to_nat limit) (merge_sort Bottlenecks.row_desc rows) ->
                            r ∈ rows).
    { intros r Hr. rewrite <- (merge_sort_Permutation Bottlenecks.row_desc rows).
      eapply elem_of_sublist; [done|apply sublist_take]. }
    split; [|split].
    + intros usr (r & -> & Hr)%list_elem_of_fmap. cbn. by apply Hrows, Hin.
    + rewrite length_fmap. by apply length_take_limit.
    + apply sorted_scored.
      * apply (StronglySorted_fmap _ Bottlenecks.row_desc); [by intros x y|].
        apply StronglySorted_take, StronglySorted_merge_sort; apply _.
      * apply Forall_forall. intros usr (r & -> & Hr)%list_elem_of_fmap. cbn.
        by apply Hrows, Hin.
Qed.

(** ** Missing dependencies of the bottleneck stage *)

Lemma has_dependencies_false (usr : User) :
  lacks_dependency usr -> has_dependencies usr = false.
Proof.
  unfold has_dependencies. intros [H|H]; rewrite H.
  - done.
  - apply andb_false_intro2. apply bool_decide_eq_false. by intros [? ?].
Qed.

Lemma has_dependencies_not_lacking (usr : User) :
  ~ lacks_dependency usr -> has_dependencies usr = true.
Proof.
  intros Hn. unfold lacks_dependency in Hn.
  destruct (pagerank usr) as [p|] eqn:Hp; [|tauto].
  destruct (betweenness_centrality usr) as [b|] eqn:Hb; [|tauto].
  by eapply has_dependencies_true.
Qed.

Lemma imap_id_on {A} (f : nat -> A -> A) (l : list A) :
  (forall i x, l !! i = Some x -> f i x = x) -> imap f l = l.
Proof.
  intros Hf. apply list_eq. intros i. rewrite list_lookup_imap.
  destruct (l !! i) as [x|] eqn:Hx; [|done]. simpl. f_equal. by apply Hf.
Qed.

Lemma dispatch_bottleneck wp ss :
  dispatch "bottleneck" wp ss = Algorithms._run_bottleneck_score wp.
Proof. reflexivity. Qed.

(** C2, amended.  On a server that answers, running the bottleneck stage
    never fails over a missing [pagerank] or [betweenness_centrality]: the
    run returns with status "completed"; a node that lacks either property
    is left exactly as it was, a node that has both gets [bridge_score],
    [bottleneck_score] and [is_bottleneck] written, and when every node
    lacks one of them the graph is unchanged. *)
Theorem bottleneck_skips_missing_dependencies (db : Neo4j) (wp : bool) (ss : option Z) :
  available db = true ->
  exists resp g',
    Algorithms.run_algorithm "bottleneck" wp ss db = (with_graph db g', Ok resp) /\
    Algorithms.status resp = "completed" /\
    (forall u usr, users (graph db) !! u = Some usr -> lacks_dependency usr ->
                   users g' !! u = Some usr) /\
    (forall u usr, users (graph db) !! u = Some usr -> ~ lacks_dependency usr ->
       exists usr', users g' !! u = Some usr' /\
                    is_Some (bridge_score usr') /\
                    is_Some (bottleneck_score usr') /\
                    is_Some (is_bottleneck usr')) /\
    ((forall usr, usr ∈ users (graph db) -> lacks_dependency usr) -> g' = graph db).
Proof.
  intros Hav.
  assert (Hrun : exists resp,
    Algorithms.run_algorithm "bottleneck" wp ss db
    = (with_graph db (Cypher.set_nodes (Algorithms.score_user (graph db)) (graph db)),
       Ok resp) /\ Algorithms.status resp = "completed").
  { unfold Algorithms.run_algorithm.
    rewrite bool_decide_true by (apply known_algorithm; tauto). cbn [negb].
    fold (dispatch "bottleneck" wp ss). rewrite dispatch_bottleneck.
    unfold Algorithms._run_bottleneck_score, Algorithms.bottleneck_query.
    cbv beta zeta delta [py_try mbind py_bind mret py_ret Neo4jService.execute_query].
    rewrite Hav. cbv beta iota. eexists. split; reflexivity. }
  destruct Hrun as (resp & Hrun & Hstatus).
  exists resp. eexists. split; [exact Hrun|]. split; [exact Hstatus|].
  split; [|split].
  - intros u usr Hu Hlack. rewrite lookup_set_nodes, Hu.
    cbn [fmap option_fmap option_map]. unfold Algorithms.score_user.
    by rewrite (has_dependencies_false usr Hlack).
  - intros u usr Hu Hdep. rewrite lookup_set_nodes, Hu.
    cbn [fmap option_fmap option_map]. unfold Algorithms.score_user.
    rewrite (has_dependencies_not_lacking usr Hdep).
    destruct (maxBridged_nonempty (graph db) usr) as [cap ->];
      [by eapply list_elem_of_lookup_2|].
    eexists. split; [reflexivity|]. cbn. by repeat split.
  - intros Hall. unfold Cypher.set_nodes. destruct (graph db) as [us fs] eqn:Hg.
    cbn [users follows] in *. f_equal. apply imap_id_on.
    intros u usr Hu. unfold Algorithms.score_user.
    rewrite has_dependencies_false; [done|].
    apply Hall. by eapply list_elem_of_lookup_2.
Qed.

(** ** The bridge divisor and the unwound iterations *)

Lemma foldr_max_const (n : Z) (l : list Z) :
  (forall x, x ∈ l -> x = n) -> foldr Z.max n l = n.
Proof.
  induction l as [|x l IH]; intros Hl; [done|]. simpl.
  rewrite IH by (intros y Hy; apply Hl; by right).
  rewrite (Hl x) by left. apply Z.max_id.
Qed.

Lemma maxBridged_five (g : Graph) (usr : User) :
  usr ∈ users g -> Algorithms.maxBridged g = Some 5%Z.
Proof.
  intros Husr. unfold Algorithms.maxBridged, Cypher.max_int.
  assert (Hall : forall x, x ∈ Cypher.non_null ((fun _ : User => Some 5%Z) <$> users g) ->
                           x = 5%Z).
  { intros x (y & Hy & _)%elem_of_non_null%list_elem_of_fmap. congruence. }
  assert (Hin : 5%Z ∈ Cypher.non_null ((fun _ : User => Some 5%Z) <$> users g)).
  { apply elem_of_non_null, list_elem_of_fmap. by exists usr. }
  destruct (Cypher.non_null _) as [|x l]; [by apply not_elem_of_nil in Hin|].
  f_equal. rewrite (Hall x) by left. apply foldr_max_const.
  intros y Hy. apply Hall. by right.
Qed.

(** The endpoint's [max(5)] never clips: a processed node stores the
    number of bridged communities divided by 5, whatever that number. *)
Lemma endpoint_bridge_score (g : Graph) (u : nat) (usr : User) :
  users g !! u = Some usr ->
  has_dependencies usr = true ->
  exists g' rows,
    Algorithms.bottleneck_query g = Ok (g', rows) /\
    Cypher.prop g' bridge_score (Some u)
    = Some (inject_Z (bridgedCommunities g u usr) / inject_Z 5).
Proof.
  intros Hu Hdep. eexists _, _. split; [reflexivity|].
  unfold Cypher.prop. cbn [mbind option_bind].
  rewrite lookup_set_nodes, Hu. cbn [fmap option_fmap option_map mbind option_bind].
  unfold Algorithms.score_user. rewrite Hdep.
  rewrite (maxBridged_five g usr) by (by eapply list_elem_of_lookup_2). done.
Qed.

Lemma sumQ_app (a b : list Q) :
  Cypher.sumQ (a ++ b) == Cypher.sumQ a + Cypher.sumQ b.
Proof.
  induction a as [|x a IH]; simpl; [lra|]. rewrite IH. lra.
Qed.

Lemma snd_tagged {A B} (tag : A) (rows : list B) :
  snd <$> (rows ≫= fun row => [(tag, row)]) = rows.
Proof.
  induction rows as [|row rows IH]; [done|].
  rewrite bind_cons, fmap_app, IH. done.
Qed.

Lemma non_null_app {A} (a b : list (option A)) :
  Cypher.non_null (a ++ b) = Cypher.non_null a ++ Cypher.non_null b.
Proof. apply omap_app. Qed.

Lemma filter_tagged_eq {B} (u : nat) (col : list B) :
  filter (fun row : nat * B => row.1 = u) (col ≫= fun f => [(u, f)])
  = col ≫= fun f => [(u, f)].
Proof.
  induction col as [|f col IH]; [done|].
  rewrite bind_cons, filter_app, IH. by rewrite filter_cons_True.
Qed.

Lemma filter_tagged_ne {B} (u u' : nat) (col : list B) :
  u' <> u ->
  filter (fun row : nat * B => row.1 = u) (col ≫= fun f => [(u', f)]) = [].
Proof.
  intros Hne. induction col as [|f col IH]; [done|].
  rewrite bind_cons, filter_app, IH. by rewrite filter_cons_False.
Qed.

Lemma filter_rows_of {B} (h : nat -> list B) (l : list nat) (u : nat) :
  NoDup l ->
  filter (fun row : nat * B => row.1 = u) (l ≫= fun u' => h u' ≫= fun f => [(u', f)])
  = if decide (u ∈ l) then h u ≫= fun f => [(u, f)] else [].
Proof.
  induction 1 as [|u' l Hnotin Hnd IH]; [done|].
  rewrite bind_cons, filter_app, IH.
  destruct (decide (u' = u)) as [->|Hne].
  - rewrite filter_tagged_eq.
    rewrite (decide_True (P := u ∈ u :: l)) by left.
    rewrite (decide_False (P := u ∈ l)) by done. apply app_nil_r.
  - rewrite filter_tagged_ne by done. simpl.
    destruct (decide (u ∈ l)) as [Hin|Hout].
    + rewrite (decide_True (P := u ∈ u' :: l)); [done|by right].
    + rewrite (decide_False (P := u ∈ u' :: l)); [done|].
      intros [->|?]%elem_of_cons; done.
Qed.

Lemma followers_of_rows (g : Graph) (u : nat) :
  (u < length (users g))%nat ->
  Cypher.non_null (snd <$> filter (fun row => row.1 = u) (follower_rows g))
  = Cypher.followers g u.
Proof.
  intros Hu. unfold follower_rows.
  rewrite (filter_rows_of (fun u' => Cypher.optional_match (Cypher.followers g u')))
    by apply NoDup_seq.
  rewrite decide_True by (by apply elem_of_handles).
  by rewrite snd_tagged, non_null_optional_match.
Qed.

Lemma snd_tagged_rows {A B} (tags : list A) (rows : list B) :
  snd <$> (tags ≫= fun tag => rows ≫= fun row => [(tag, row)])
  = concat (replicate (length tags) rows).
Proof.
  induction tags as [|tag tags IH]; [done|].
  rewrite bind_cons, fmap_app, snd_tagged, IH. done.
Qed.

Lemma unwound_rows_repeat (g : Graph) :
  snd <$> Algorithms.unwound_follower_rows g
  = concat (replicate 20 (follower_rows g)).
Proof.
  unfold Algorithms.unwound_follower_rows. by rewrite snd_tagged_rows.
Qed.

Lemma sumQ_concat_replicate (n : nat) (l : list Q) :
  Cypher.sumQ (concat (replicate n l)) == inject_Z (Z.of_nat n) * Cypher.sumQ l.
Proof.
  induction n as [|n IH].
  { unfold Qeq. simpl. lia. }
  cbn [replicate concat]. rewrite sumQ_app, IH, Nat2Z.inj_succ.
  unfold Z.succ. rewrite inject_Z_plus.
  change (inject_Z 1) with 1. lra.
Qed.

Lemma grouped_followers_repeat (g : Graph) (u : nat) :
  (u < length (users g))%nat ->
  grouped_followers g u = concat (replicate 20 (Cypher.followers g u)).
Proof.
  intros Hu. unfold grouped_followers. rewrite unwound_rows_repeat.
  rewrite <- (followers_of_rows g u Hu).
  generalize (follower_rows g). intros rows.
  generalize 20%nat. intros n. induction n as [|n IH]; [done|].
  cbn [replicate concat]. by rewrite filter_app, fmap_app, non_null_app, IH.
Qed.

(** The rows of the twenty unwound iterations all fall into the group of
    their node, so the sum the fallback stores counts every follower
    relationship twenty times. *)
Lemma fallback_sums_twenty_times (g : Graph) (u : nat) (f : nat -> Q) :
  (u < length (users g))%nat ->
  Cypher.sumQ (f <$> grouped_followers g u)
  == 20 * Cypher.sumQ (f <$> Cypher.followers g u).
Proof.
  intros Hu. rewrite grouped_followers_repeat by done.
  assert (Hmap : f <$> concat (replicate 20 (Cypher.followers g u))
                 = concat (replicate 20 (f <$> Cypher.followers g u))).
  { generalize (Cypher.followers g u). intros l.
    generalize 20%nat. intros n. induction n as [|n IH]; [done|].
    cbn [replicate concat]. by rewrite fmap_app, IH. }
  rewrite Hmap, sumQ_concat_replicate. reflexivity.
Qed.

(** What the fallback stores, for every graph and node: the base term plus
    the damped sum taken once, from the initial ranks [1 / N], with every
    follower relationship counted twenty times and the stored
    [following_count] as divisor. *)
Lemma fallback_rank (g : Graph) (u : nat) (usr : User) :
  graph_wf g ->
  users g !! u = Some usr ->
  exists g' rows r,
    Algorithms.pagerank_fallback_query g = Ok (g', rows) /\
    Cypher.prop g' pagerank (Some u) = Some r /\
    r == 0.15 + 0.85 *
           (20 * Cypher.sumQ ((fun v => 1 / inject_Z (Z.of_nat (length (users g)))
                                        / following_divisor g v)
                                <$> Cypher.followers g u)).
Proof.
  intros Hwf Hu.
  assert (Hlt : (u < length (users g))%nat) by (by eapply lookup_lt_Some).
  assert (Hlt' : (u < length (users (init_pagerank g)))%nat)
    by (by rewrite length_init_pagerank).
  eexists _, _, _. split; [reflexivity|]. split.
  - unfold Cypher.prop, update_pagerank. cbn [mbind option_bind].
    rewrite lookup_set_nodes, lookup_init_pagerank, Hu.
    cbn [fmap option_fmap option_map mbind option_bind].
    rewrite decide_True; [reflexivity|].
    by apply handle_in_unwound_follower_rows.
  - unfold incomingRank, Cypher.coalesce, Cypher.sum. cbn [default].
    pose proof (list_fmap_compose (@snd nat (option nat))
                  (Cypher.prop (init_pagerank g) Algorithms.contribution)) as Hc.
    unfold compose in Hc. rewrite Hc. clear Hc.
    rewrite non_null_contributions.
    + fold (grouped_followers (init_pagerank g) u).
      rewrite (fallback_sums_twenty_times (init_pagerank g) u _ Hlt').
      reflexivity.
    + intros v Hv. apply elem_of_non_null in Hv.
      apply (elem_of_grouped_followers (init_pagerank g)) in Hv; [|done].
      by apply Hwf in Hv as [? _].
Qed.

(** ** The stages on the sample graphs *)

(** C1 (the code departs from the claim).  The claim: [bridge_score(u) =
    min(bridged, 5) / 5], never above 1.  On [hub_graph] the hub touches six
    foreign communities; both the endpoint query (whose [max(5)] is an
    aggregate of the constant 5, not a cap) and the script query store
    [6 / 5], which is above 1 and is not the capped value [1]. *)
Theorem bridge_score_not_capped :
  bridgedCommunities hub_graph 0 (scored_user "hub" 1 0.25 "c0") = 6%Z /\
  spec_bridge_score 6 == 1 /\
  (exists g' rows bs,
      Algorithms.bottleneck_query hub_graph = Ok (g', rows) /\
      Cypher.prop g' bridge_score (Some 0%nat) = Some bs /\
      bs == 6 / 5 /\ 1 < bs /\ ~ bs == spec_bridge_score 6) /\
  (exists bs,
      Cypher.prop (RunAlgorithms.run_bottleneck hub_graph) bridge_score (Some 0%nat) = Some bs /\
      bs == 6 / 5 /\ 1 < bs /\ ~ bs == spec_bridge_score 6).
Proof.
  split; [by vm_compute|]. split; [by vm_compute|]. split.
  - eexists _, _, _. split; [reflexivity|]. split; [by vm_compute|].
    split; [by vm_compute|]. split; [by vm_compute|].
    intros H. vm_compute in H. discriminate.
  - eexists. split; [by vm_compute|].
    split; [by vm_compute|]. split; [by vm_compute|].
    intros H. vm_compute in H. discriminate.
Qed.

(** C6 (the code departs from the claim).  The claim: ten synchronous
    iterations after the initialisation.  On [pair_graph] the endpoint query
    leaves the two nodes with each other's identifier, which is the result
    of one pass; ten passes give each node its own identifier back.  The
    script, whose loop is a Python [for] over five separate queries, does
    iterate. *)
Theorem louvain_runs_one_pass :
  (exists g' rows,
      Algorithms.louvain_query pair_graph = Ok (g', rows) /\
      community_id <$> users g' = [Some "user_2"; Some "user_1"]) /\
  community_id <$> users (spec_label_propagation 1 pair_graph)
    = [Some "user_2"; Some "user_1"] /\
  community_id <$> users (spec_label_propagation 10 pair_graph)
    = [Some "user_1"; Some "user_2"] /\
  community_id <$> users (RunAlgorithms.run_communities pair_graph)
    = [Some "user_2"; Some "user_1"].
Proof.
  split; [|by vm_compute].
  eexists _, _. split; [reflexivity|]. by vm_compute.
Qed.

(** C3 (the code departs from the claim).  The claim: twenty iterations,
    each [rank(u) = (1 - damping) + damping * sum of rank(v) /
    max(out_degree(v), 1)] over the followers [v] of [u].  On [fan_graph]
    the stored [following_count] of the only follower is its out-degree 2,
    so the divisor is the claimed one, and twenty iterations give the
    followed node [171 / 800].  The fallback query of the endpoint stores
    [179 / 60]: its aggregating [WITH] drops [iteration], so it updates
    once, from the initial ranks, and counts the follower twenty times;
    that is neither the value of one iteration ([7 / 24]) nor of twenty.
    The script does iterate, ten times, but sums the followers' ranks
    undivided and stores [111 / 400]. *)
Theorem pagerank_fallback_updates_once :
  following_divisor fan_graph 0 == Qmax (inject_Z (edges_from fan_graph 0)) 1 /\
  exists g' rows r s1 s20 p,
    Algorithms.pagerank_fallback_query fan_graph = Ok (g', rows) /\
    Cypher.prop g' pagerank (Some 1%nat) = Some r /\
    spec_pagerank 1 0.85 fan_graph !! 1%nat = Some s1 /\
    spec_pagerank 20 0.85 fan_graph !! 1%nat = Some s20 /\
    Cypher.prop (RunAlgorithms.run_pagerank fan_graph) pagerank (Some 1%nat) = Some p /\
    r == 179 # 60 /\ s1 == 7 # 24 /\ s20 == 171 # 800 /\ p == 111 # 400 /\
    ~ r == s20 /\ ~ r == s1 /\ ~ p == s20.
Proof.
  split; [by vm_compute|].
  eexists _, _, _, _, _, _. split; [reflexivity|].
  split; [by vm_compute|]. split; [by vm_compute|]. split; [by vm_compute|].
  split; [by vm_compute|].
  split; [by vm_compute|]. split; [by vm_compute|]. split; [by vm_compute|].
  split; [by vm_compute|].
  split; [|split]; intros H; vm_compute in H; discriminate.
Qed.

(** The divisor of the fallback is the stored profile counter: on
    [pair_graph] the follower's [following_count] is 300 while it has one
    outgoing relationship, and the followed node gets [107 / 600]. *)
Lemma fallback_divides_by_stored_counter :
  exists g' rows r,
    Algorithms.pagerank_fallback_query pair_graph = Ok (g', rows) /\
    Cypher.prop g' pagerank (Some 1%nat) = Some r /\
    following_divisor pair_graph 0 == 300 /\
    edges_from pair_graph 0 = 1%Z /\
    r == 107 # 600.
Proof.
  eexists _, _, _. split; [reflexivity|]. split; [by vm_compute|].
  split; [by vm_compute|]. split; [by vm_compute|]. by vm_compute.
Qed.

(** C2, counterexample.  [stale_graph] has a node without [pagerank], yet
    the run returns a response with status "completed" and writes the
    [bottleneck_score] of the other node; on [pair_graph], where no node has
    either property, the run also returns with status "completed". *)
Lemma missing_dependency_counterexample :
  (exists usr, usr ∈ users stale_graph /\ pagerank usr = None) /\
  (exists db' resp,
      Algorithms.run_algorithm "bottleneck" true None (server stale_graph) = (db', Ok resp) /\
      Algorithms.status resp = "completed" /\
      Cypher.prop stale_graph bottleneck_score (Some 0%nat) = None /\
      Cypher.prop (graph db') bottleneck_score (Some 0%nat) = Some (8750000 # 12500000)) /\
  (forall usr, usr ∈ users pair_graph ->
               pagerank usr = None /\ betweenness_centrality usr = None) /\
  (exists db' resp,
      Algorithms.run_algorithm "bottleneck" true None (server pair_graph) = (db', Ok resp) /\
      Algorithms.status resp = "completed").
Proof.
  split; [|split; [|split]].
  - exists (new_user "user_9" None). split; [|done]. right. left.
  - eexists _, _. split; [by vm_compute|]. split; [done|]. split; by vm_compute.
  - intros usr Husr. unfold pair_graph in Husr. cbn in Husr.
    apply elem_of_cons in Husr as [->|Husr]; [done|].
    apply list_elem_of_singleton in Husr as ->. done.
  - eexists _, _. split; [by vm_compute|]. done.
Qed.

(** C4, counterexample.  For the name "invalid_algo" the endpoint raises
    the HTTP 400 exception and returns no response object. *)
Lemma unknown_algorithm_counterexample :
  Algorithms.run_algorithm "invalid_algo" true None (server pair_graph)
  = (server pair_graph,
     Raise (HTTPException 400
       "Unknown algorithm: invalid_algo. Available: ['pagerank', 'betweenness', 'louvain', 'bottleneck', 'degree']")) /\
  ~ exists db' resp,
      Algorithms.run_algorithm "invalid_algo" true None (server pair_graph) = (db', Ok resp).
Proof.
  split; [by vm_compute|]. intros (db' & resp & H). vm_compute in H. discriminate.
Qed.

(** ** The theorems at work on the sample graphs *)

Lemma betweenness_stage_formula_witness :
  users pair_graph !! 1%nat = Some (new_user "user_2" (Some 150%Z)) /\
  (exists g' rows b,
      Algorithms.betweenness_query pair_graph = Ok (g', rows) /\
      Cypher.prop g' betweenness_centrality (Some 1%nat) = Some b /\
      b == betweenness_formula (edges_from pair_graph 1) (edges_to pair_graph 1)) /\
  (exists b,
      Cypher.prop (RunAlgorithms.run_betweenness pair_graph) betweenness_centrality
        (Some 1%nat) = Some b /\
      b == betweenness_formula (edges_from pair_graph 1) (edges_to pair_graph 1)).
Proof.
  split; [reflexivity|].
  apply (betweenness_stage_formula pair_graph 1 (new_user "user_2" (Some 150%Z))).
  reflexivity.
Defined.

Lemma approx_betweenness_bounds_witness :
  (0 <= 3)%Z /\ (0 <= 3)%Z /\
  0 <= approxBetweenness 3 3 /\
  approxBetweenness 3 3 <= 0.25 /\
  (approxBetweenness 3 3 == 0.25 <-> (3 = 3 /\ 0 < 3)%Z).
Proof.
  split; [lia|]. split; [lia|]. apply (approx_betweenness_bounds 3 3); lia.
Defined.

Lemma bottleneck_score_formula_witness :
  users hub_graph !! 0%nat = Some (scored_user "hub" 1 0.25 "c0") /\
  pagerank (scored_user "hub" 1 0.25 "c0") = Some 1 /\
  betweenness_centrality (scored_user "hub" 1 0.25 "c0") = Some 0.25 /\
  0 <= 1 /\ 0 <= 0.25 /\
  exists maxB maxP,
    global_max hub_graph betweenness_centrality maxB /\
    global_max hub_graph pagerank maxP /\
    (exists g' rows usr' bs sc,
        Algorithms.bottleneck_query hub_graph = Ok (g', rows) /\
        users g' !! 0%nat = Some usr' /\
        bridge_score usr' = Some bs /\
        bottleneck_score usr' = Some sc /\
        sc == 0.4 * norm 0.25 maxB + 0.3 * norm 1 maxP + 0.3 * bs) /\
    (exists usr' bs sc,
        users (RunAlgorithms.run_bottleneck hub_graph) !! 0%nat = Some usr' /\
        bridge_score usr' = Some bs /\
        bottleneck_score usr' = Some sc /\
        sc == 0.4 * norm 0.25 maxB + 0.3 * norm 1 maxP + 0.3 * bs).
Proof.
  split; [reflexivity|]. split; [reflexivity|]. split; [reflexivity|].
  split; [by vm_compute|]. split; [by vm_compute|].
  apply (bottleneck_score_formula hub_graph 0 (scored_user "hub" 1 0.25 "c0") 1 0.25);
    try reflexivity; by vm_compute.
Defined.

Lemma bottleneck_skips_missing_dependencies_witness :
  available (server stale_graph) = true /\
  exists resp g',
    Algorithms.run_algorithm "bottleneck" true None (server stale_graph)
    = (with_graph (server stale_graph) g', Ok resp) /\
    Algorithms.status resp = "completed" /\
    (forall u usr, users (graph (server stale_graph)) !! u = Some usr ->
                   lacks_dependency usr -> users g' !! u = Some usr) /\
    (forall u usr, users (graph (server stale_graph)) !! u = Some usr ->
       ~ lacks_dependency usr ->
       exists usr', users g' !! u = Some usr' /\
                    is_Some (bridge_score usr') /\
                    is_Some (bottleneck_score usr') /\
                    is_Some (is_bottleneck usr')) /\
    ((forall usr, usr ∈ users (graph (server stale_graph)) -> lacks_dependency usr) ->
     g' = graph (server stale_graph)).
Proof.
  split; [reflexivity|].
  apply (bottleneck_skips_missing_dependencies (server stale_graph) true None).
  reflexivity.
Defined.

Lemma run_algorithm_outcome_witness :
  ("louvain" ∈ fst <$> Algorithms.AVAILABLE_ALGORITHMS /\
   exists db' resp,
     Algorithms.run_algorithm "louvain" true None (server pair_graph) = (db', Ok resp) /\
     Algorithms.algorithm resp = "louvain" /\
     (Algorithms.status resp = "completed" \/ Algorithms.status resp = "failed") /\
     is_Some (Algorithms.message resp)) /\
  (("invalid_algo" ∉ (fst <$> Algorithms.AVAILABLE_ALGORITHMS)) /\
   exists detail,
     Algorithms.run_algorithm "invalid_algo" true None (server pair_graph)
     = (server pair_graph, Raise (HTTPException 400 detail))).
Proof.
  assert (Hin : "louvain" ∈ fst <$> Algorithms.AVAILABLE_ALGORITHMS).
  { apply known_algorithm. tauto. }
  assert (Hout : "invalid_algo" ∉ (fst <$> Algorithms.AVAILABLE_ALGORITHMS)).
  { intros H. apply known_algorithm in H. intuition discriminate. }
  split; (split; [done|]).
  - apply (proj1 (run_algorithm_outcome "louvain" true None (server pair_graph)) Hin).
  - apply (proj2 (run_algorithm_outcome "invalid_algo" true None (server pair_graph)) Hout).
Defined.

Lemma top_bottlenecks_listing_witness :
  available (server listed_graph) = true /\ (0 <= 2)%Z /\
  (exists rows,
      Neo4jService.get_top_bottlenecks 2 (server listed_graph)
      = (server listed_graph, Ok rows) /\
      top_listing (graph (server listed_graph)) 2 rows) /\
  (exists db' listing,
      Bottlenecks.get_bottlenecks 2 0.8 None (server listed_graph) = (db', Ok listing) /\
      top_listing (graph (server listed_graph)) 2
        (Bottlenecks.user <$> Bottlenecks.bottlenecks listing)).
Proof.
  split; [reflexivity|]. split; [lia|].
  pose proof (top_bottlenecks_listing 2 (server listed_graph)) as (Hex & Htop & Hlist).
  split.
  - destruct (Hex eq_refl ltac:(lia)) as [rows Hrows].
    exists rows. split; [exact Hrows|]. exact (Htop _ _ Hrows).
  - eexists _, _. split; [vm_compute; reflexivity|].
    eapply (Hlist 0.8 None). vm_compute. reflexivity.
Defined.

(** * Further properties *)

(** ** What a stage writes *)

Lemma touches_only_set_nodes (erase : User -> User) (f : nat -> User -> User) (g : Graph) :
  (forall u usr, erase (f u usr) = erase usr) ->
  touches_only erase g (Cypher.set_nodes f g).
Proof.
  intros Hf. split; [done|]. unfold Cypher.set_nodes. cbn [users].
  apply list_eq. intros u. rewrite !list_lookup_fmap, list_lookup_imap.
  destruct (users g !! u) as [usr|]; [|done]. cbn. f_equal. apply Hf.
Qed.

Lemma touches_only_trans (erase : User -> User) (g1 g2 g3 : Graph) :
  touches_only erase g1 g2 -> touches_only erase g2 g3 -> touches_only erase g1 g3.
Proof. intros [H1 H2] [H3 H4]. split; congruence. Qed.

Lemma update_pagerank_touches (g : Graph) term rows :
  touches_only erase_pagerank g (update_pagerank g term rows).
Proof.
  apply touches_only_set_nodes. intros u usr. by case_decide.
Qed.

Lemma init_pagerank_touches (g : Graph) :
  touches_only erase_pagerank g (init_pagerank g).
Proof. by apply touches_only_set_nodes. Qed.

Lemma propagate_touches (g : Graph) rows :
  touches_only erase_community g (propagate g rows).
Proof. apply touches_only_set_nodes. intros u usr. by case_decide. Qed.

Lemma init_communities_touches (g : Graph) :
  touches_only erase_community g (init_communities g).
Proof. by apply touches_only_set_nodes. Qed.

Lemma score_user_erase (g : Graph) (u : nat) (usr : User) :
  erase_scores (Algorithms.score_user g u usr) = erase_scores usr.
Proof.
  unfold Algorithms.score_user. destruct (has_dependencies usr); [|done].
  by destruct (Algorithms.maxBridged g).
Qed.

Lemma pagerank_fallback_touches (g g' : Graph) rows :
  Algorithms.pagerank_fallback_query g = Ok (g', rows) ->
  touches_only erase_pagerank g g'.
Proof.
  intros [= <- _].
  eapply touches_only_trans; [apply init_pagerank_touches|apply update_pagerank_touches].
Qed.

Lemma betweenness_touches (g g' : Graph) rows :
  Algorithms.betweenness_query g = Ok (g', rows) ->
  touches_only erase_betweenness g g'.
Proof. intros [= <- _]. by apply touches_only_set_nodes. Qed.

Lemma louvain_touches (g g' : Graph) rows :
  Algorithms.louvain_query g = Ok (g', rows) ->
  touches_only erase_community g g'.
Proof.
  intros [= <- _].
  eapply touches_only_trans; [apply init_communities_touches|apply propagate_touches].
Qed.

Lemma bottleneck_touches (g g' : Graph) rows :
  Algorithms.bottleneck_query g = Ok (g', rows) ->
  touches_only erase_scores g g'.
Proof. intros [= <- _]. apply touches_only_set_nodes, score_user_erase. Qed.

Lemma degree_touches (g g' : Graph) rows :
  Algorithms.degree_query g = Ok (g', rows) ->
  touches_only erase_degrees g g'.
Proof. intros [= <- _]. by apply touches_only_set_nodes. Qed.

Lemma gds_pagerank_touches stream (g g' : Graph) rows :
  Algorithms.gds_pagerank_query stream g = Ok (g', rows) ->
  touches_only erase_pagerank g g'.
Proof.
  unfold Algorithms.gds_pagerank_query. destruct (stream g) as [scores|e]; [|done].
  cbn. intros [= <- _]. split; [done|]. cbn [users].
  generalize (users g). induction scores as [|row scores IH]; intros us; [done|].
  cbn [foldl]. rewrite IH. apply list_eq. intros u.
  rewrite !list_lookup_fmap.
  destruct (decide (u = row.1)) as [->|Hne].
  - rewrite list_lookup_alter_eq. by destruct (us !! row.1).
  - by rewrite list_lookup_alter_ne.
Qed.

(** Each query of the endpoint returns, leaves the relationships alone and
    rewrites nothing but the properties of its own stage. *)
Theorem stage_writes_own_properties (g : Graph) :
  (exists g' rows, Algorithms.pagerank_fallback_query g = Ok (g', rows) /\
                   touches_only erase_pagerank g g') /\
  (exists g' rows, Algorithms.betweenness_query g = Ok (g', rows) /\
                   touches_only erase_betweenness g g') /\
  (exists g' rows, Algorithms.louvain_query g = Ok (g', rows) /\
                   touches_only erase_community g g') /\
  (exists g' rows, Algorithms.bottleneck_query g = Ok (g', rows) /\
                   touches_only erase_scores g g') /\
  (exists g' rows, Algorithms.degree_query g = Ok (g', rows) /\
                   touches_only erase_degrees g g').
Proof.
  repeat split.
  - eexists _, _. split; [reflexivity|]. by eapply pagerank_fallback_touches.
  - eexists _, _. split; [reflexivity|]. by eapply betweenness_touches.
  - eexists _, _. split; [reflexivity|]. by eapply louvain_touches.
  - eexists _, _. split; [reflexivity|]. by eapply bottleneck_touches.
  - eexists _, _. split; [reflexivity|]. by eapply degree_touches.
Qed.

(** ** The endpoint and the structure of the graph *)

Lemma touches_only_profile (erase : User -> User) (g g' : Graph) :
  (forall usr, profile (erase usr) = profile usr) ->
  touches_only erase g g' -> touches_only profile g g'.
Proof.
  intros Herase [Hf Hu]. split; [done|].
  assert (Hc : forall l : list User, profile <$> l = profile <$> (erase <$> l)).
  { intros l. rewrite <- list_fmap_compose. apply list_fmap_ext. intros _ usr _.
    cbn. by rewrite Herase. }
  by rewrite (Hc (users g')), (Hc (users g)), Hu.
Qed.

Lemma touches_only_refl (erase : User -> User) (g : Graph) : touches_only erase g g.
Proof. by split. Qed.

Lemma execute_query_keeps {A} (query : Graph -> Result (Graph * list A)) :
  (forall g g' rows, query g = Ok (g', rows) -> touches_only profile g g') ->
  keeps_structure (Neo4jService.execute_query query).
Proof.
  intros Hq db.
  destruct (execute_query_cases query db) as [(g' & rows & Hg & _ & ->) | (e & ->)].
  - cbn. by eapply Hq.
  - apply touches_only_refl.
Qed.

Lemma bind_keeps {A B} (c : Py A) (k : A -> Py B) :
  keeps_structure c -> (forall a, keeps_structure (k a)) -> keeps_structure (c ≫= k).
Proof.
  intros Hc Hk db. unfold mbind, py_bind. specialize (Hc db).
  destruct (c db) as [db' [a|e]]; cbn in *; [|done].
  eapply touches_only_trans; [exact Hc|apply Hk].
Qed.

Lemma try_keeps {A} (c : Py A) (h : Exn -> Py A) :
  keeps_structure c -> (forall e, keeps_structure (h e)) -> keeps_structure (py_try c h).
Proof.
  intros Hc Hh db. unfold py_try. specialize (Hc db).
  destruct (c db) as [db' [a|e]]; cbn in *; [done|].
  eapply touches_only_trans; [exact Hc|apply Hh].
Qed.

Lemma ret_keeps {A} (a : A) : keeps_structure (mret a).
Proof. intros db. apply touches_only_refl. Qed.

Lemma raise_keeps {A} (e : Exn) : keeps_structure (@py_raise A e).
Proof. intros db. apply touches_only_refl. Qed.

Lemma match_rows_keeps {A B} (rows : list A) (k : A -> Py B) (d : Py B) :
  (forall r, keeps_structure (k r)) -> keeps_structure d ->
  keeps_structure (match rows with r :: _ => k r | [] => d end).
Proof. intros Hk Hd. by destruct rows. Qed.

Lemma dispatch_keeps name wp ss : keeps_structure (dispatch name wp ss).
Proof.
  unfold dispatch. repeat case_bool_decide; try apply raise_keeps.
  - unfold Algorithms._run_pagerank. apply bind_keeps.
    + intros db. unfold py_try.
      pose proof (execute_query_keeps
                    (Algorithms.gds_pagerank_query (gds_pageRank_stream db))) as Hg.
      specialize (Hg (fun g g' rows Hq =>
        touches_only_profile erase_pagerank g g' (fun _ => eq_refl)
          (gds_pagerank_touches _ g g' rows Hq)) db).
      destruct (Neo4jService.execute_query _ db) as [db' [a|e]]; [done|].
      eapply touches_only_trans; [exact Hg|].
      apply execute_query_keeps. intros g g' rows Hq.
      by eapply touches_only_profile, pagerank_fallback_touches.
    + intros rows. destruct rows; apply ret_keeps.
  - unfold Algorithms._run_betweenness. apply bind_keeps.
    + apply execute_query_keeps. intros g g' rows Hq.
      by eapply touches_only_profile, betweenness_touches.
    + intros rows. destruct rows; apply ret_keeps.
  - unfold Algorithms._run_louvain. apply bind_keeps.
    + apply execute_query_keeps. intros g g' rows Hq.
      by eapply touches_only_profile, louvain_touches.
    + intros rows. destruct rows; apply ret_keeps.
  - unfold Algorithms._run_bottleneck_score. apply bind_keeps.
    + apply execute_query_keeps. intros g g' rows Hq.
      by eapply touches_only_profile, bottleneck_touches.
    + intros rows. destruct rows; apply ret_keeps.
  - unfold Algorithms._run_degree. apply bind_keeps.
    + apply execute_query_keeps. intros g g' rows Hq.
      by eapply touches_only_profile, degree_touches.
    + intros rows. destruct rows; apply ret_keeps.
Qed.

Lemma run_algorithm_keeps name wp ss :
  keeps_structure (Algorithms.run_algorithm name wp ss).
Proof.
  unfold Algorithms.run_algorithm. destruct (negb _); [apply raise_keeps|].
  fold (dispatch name wp ss). apply try_keeps.
  - apply bind_keeps; [apply dispatch_keeps|]. intros d. apply ret_keeps.
  - intros e. apply ret_keeps.
Qed.

(** Whatever the name and whatever the server does, a call of the run
    endpoint leaves every relationship and every node's identifier and
    profile counter as they were; no node is added or removed. *)
Theorem run_algorithm_keeps_structure (name : string) (wp : bool) (ss : option Z)
    (db : Neo4j) :
  touches_only profile (graph db) (graph (Algorithms.run_algorithm name wp ss db).1).
Proof.
  apply run_algorithm_keeps.
Qed.

(** ** Degrees *)

(** After the degree stage every node carries the numbers of relationships
    leaving and entering it and their sum, and the stage reports the number
    of nodes. *)
Theorem degree_stage_counts (g : Graph) (u : nat) (usr : User) :
  users g !! u = Some usr ->
  exists g' row usr',
    Algorithms.degree_query g = Ok (g', [row]) /\
    Algorithms.nodesProcessed row = Z.of_nat (length (users g)) /\
    users g' !! u = Some usr' /\
    out_degree usr' = Some (edges_from g u) /\
    in_degree usr' = Some (edges_to g u) /\
    degree_centrality usr' = Some (inject_Z (edges_from g u + edges_to g u)).
Proof.
  intros Hu. eexists _, _, _. split; [reflexivity|]. split.
  { cbn. unfold Cypher.count. rewrite non_null_Some. unfold Cypher.handles.
    by rewrite length_seq. }
  rewrite lookup_set_nodes, Hu. cbn [fmap option_fmap option_map].
  split; [reflexivity|]. cbn.
  by rewrite outDegree_edges, inDegree_edges.
Qed.

(** The betweenness query of the script also stores the two degrees, and
    they are the ones the degree stage of the endpoint stores. *)
Theorem script_betweenness_stores_degrees (g : Graph) (u : nat) (usr : User) :
  users g !! u = Some usr ->
  exists usr' g' rows usr'',
    users (RunAlgorithms.run_betweenness g) !! u = Some usr' /\
    Algorithms.degree_query g = Ok (g', rows) /\
    users g' !! u = Some usr'' /\
    out_degree usr' = Some (edges_from g u) /\
    in_degree usr' = Some (edges_to g u) /\
    out_degree usr' = out_degree usr'' /\
    in_degree usr' = in_degree usr''.
Proof.
  intros Hu. eexists _, _, _, _.
  unfold RunAlgorithms.run_betweenness. rewrite lookup_set_nodes, Hu.
  cbn [fmap option_fmap option_map]. split; [reflexivity|].
  split; [reflexivity|]. rewrite lookup_set_nodes, Hu.
  cbn [fmap option_fmap option_map]. split; [reflexivity|]. cbn.
  by rewrite script_outDegree_edges, script_inDegree_edges,
            outDegree_edges, inDegree_edges.
Qed.

Lemma sum_list_plus (f h : nat -> nat) (us : list nat) :
  sum_list ((fun u => f u + h u)%nat <$> us)
  = (sum_list (f <$> us) + sum_list (h <$> us))%nat.
Proof. induction us as [|x xs IH]; [done|]. cbn in *. rewrite IH. lia. Qed.

Lemma sum_list_indicator (x : nat) (us : list nat) :
  NoDup us -> x ∈ us ->
  sum_list ((fun u => if decide (x = u) then 1 else 0)%nat <$> us) = 1%nat.
Proof.
  induction 1 as [|y ys Hy Hnd IH]; intros Hin; [by apply not_elem_of_nil in Hin|].
  cbn [fmap list_fmap sum_list sum_list_with].
  destruct (decide (x = y)) as [->|Hne].
  - assert (Hz : sum_list ((fun u => if decide (y = u) then 1 else 0)%nat <$> ys) = 0%nat).
    { clear IH Hnd Hin. induction ys as [|z zs IHz]; [done|].
      apply not_elem_of_cons in Hy as [Hyz Hy]. cbn.
      rewrite decide_False by done. by apply IHz. }
    cbn in Hz. rewrite Hz. done.
  - apply elem_of_cons in Hin as [?|Hin]; [done|]. cbn in IH. by rewrite IH.
Qed.

Lemma sum_list_count (l : list (nat * nat)) (n : nat) (pick : nat * nat -> nat) :
  (forall e, e ∈ l -> (pick e < n)%nat) ->
  sum_list ((fun u => length (filter (fun e => pick e = u) l)) <$> seq 0 n) = length l.
Proof.
  induction l as [|e l IH]; intros Hl.
  - cbn. induction (seq 0 n) as [|x xs IHx]; [done|]. cbn in *. by rewrite IHx.
  - assert (He : (pick e < n)%nat) by (apply Hl; left).
    specialize (IH (fun e' He' => Hl e' (list_elem_of_further _ _ _ He'))).
    assert (Hstep : (fun u => length (filter (fun e0 => pick e0 = u) (e :: l))) <$> seq 0 n
                    = (fun u => (if decide (pick e = u) then 1 else 0)
                                + length (filter (fun e0 => pick e0 = u) l))%nat <$> seq 0 n).
    { apply list_fmap_ext. intros _ u _. rewrite filter_cons.
      by destruct (decide (pick e = u)). }
    rewrite Hstep, sum_list_plus, IH, sum_list_indicator.
    + done.
    + apply NoDup_seq.
    + apply elem_of_seq. lia.
Qed.

Lemma foldr_add_of_nat (h : nat -> nat) (us : list nat) :
  foldr Z.add 0%Z ((fun u => Z.of_nat (h u)) <$> us) = Z.of_nat (sum_list (h <$> us)).
Proof. induction us as [|x xs IH]; [done|]. cbn in *. rewrite IH. lia. Qed.

Lemma total_set_nodes (f : User -> option Z) (h : nat -> Z) (upd : nat -> User -> User)
    (g : Graph) :
  (forall u usr, f (upd u usr) = Some (h u)) ->
  total_of f (Cypher.set_nodes upd g) = foldr Z.add 0%Z (h <$> seq 0 (length (users g))).
Proof.
  intros Hupd. unfold total_of, Cypher.set_nodes. cbn [users]. f_equal.
  rewrite fmap_imap. rewrite <- (imap_seq_0 (users g) h).
  apply imap_ext. intros u usr _. cbn. by rewrite Hupd.
Qed.

(** After the degree stage the out-degrees of all nodes add up to the number
    of relationships, and so do the in-degrees. *)
Theorem degree_stage_handshake (g : Graph) :
  graph_wf g ->
  exists g' rows,
    Algorithms.degree_query g = Ok (g', rows) /\
    total_of out_degree g' = Z.of_nat (length (follows g)) /\
    total_of in_degree g' = Z.of_nat (length (follows g)).
Proof.
  intros Hwf. eexists _, _. split; [reflexivity|]. split.
  - rewrite (total_set_nodes out_degree (edges_from g)).
    + unfold edges_from. rewrite (foldr_add_of_nat
        (fun u => length (filter (fun e : nat * nat => e.1 = u) (follows g)))).
      f_equal. apply (sum_list_count (follows g) _ fst). intros e He. by apply Hwf.
    + intros u usr. cbn. by rewrite outDegree_edges.
  - rewrite (total_set_nodes in_degree (edges_to g)).
    + unfold edges_to. rewrite (foldr_add_of_nat
        (fun u => length (filter (fun e : nat * nat => e.2 = u) (follows g)))).
      f_equal. apply (sum_list_count (follows g) _ snd). intros e He. by apply Hwf.
    + intros u usr. cbn. by rewrite inDegree_edges.
Qed.

(** ** Running a stage again *)

Lemma set_nodes_ext (f h : nat -> User -> User) (g : Graph) :
  (forall u usr, users g !! u = Some usr -> f u usr = h u usr) ->
  Cypher.set_nodes f g = Cypher.set_nodes h g.
Proof. intros Hf. unfold Cypher.set_nodes. f_equal. by apply imap_ext. Qed.

Lemma set_nodes_set_nodes (f h : nat -> User -> User) (g : Graph) :
  Cypher.set_nodes f (Cypher.set_nodes h g)
  = Cypher.set_nodes (fun u usr => f u (h u usr)) g.
Proof.
  unfold Cypher.set_nodes. cbn [users follows]. f_equal.
  apply list_eq. intros u. rewrite !list_lookup_imap.
  by destruct (users g !! u).
Qed.

Lemma column_of_touches {A} (erase : User -> User) (f : User -> A) (g g' : Graph) :
  (forall usr, f (erase usr) = f usr) ->
  touches_only erase g g' -> f <$> users g' = f <$> users g.
Proof.
  intros Hf [_ Hu].
  assert (Hc : forall l : list User, f <$> l = f <$> (erase <$> l)).
  { intros l. rewrite <- list_fmap_compose. apply list_fmap_ext. intros _ usr _.
    cbn. by rewrite Hf. }
  by rewrite (Hc (users g')), (Hc (users g)), Hu.
Qed.

Lemma prop_of_column {A} (f : User -> option A) (g g' : Graph) (v : option nat) :
  f <$> users g' = f <$> users g -> Cypher.prop g' f v = Cypher.prop g f v.
Proof.
  intros Hc. unfold Cypher.prop. destruct v as [h|]; [|done]. cbn.
  assert (Hl : f <$> users g' !! h = f <$> users g !! h).
  { by rewrite <- !list_lookup_fmap, Hc. }
  destruct (users g' !! h), (users g !! h); cbn in *; congruence.
Qed.

Lemma length_of_touches (erase : User -> User) (g g' : Graph) :
  touches_only erase g g' -> length (users g') = length (users g).
Proof. intros [_ Hu]. by rewrite <- (length_fmap erase), Hu, length_fmap. Qed.

Lemma init_pagerank_of_touches (g g' : Graph) :
  touches_only erase_pagerank g g' -> init_pagerank g' = init_pagerank g.
Proof.
  intros Ht. pose proof (length_of_touches _ _ _ Ht) as Hlen. destruct Ht as [Hf Hu].
  unfold init_pagerank, Cypher.set_nodes, Cypher.handles. rewrite Hf, Hlen. f_equal.
  apply list_eq. intros u. rewrite !list_lookup_imap.
  assert (Hl : erase_pagerank <$> users g' !! u = erase_pagerank <$> users g !! u).
  { by rewrite <- !list_lookup_fmap, Hu. }
  destruct (users g' !! u) as [a|], (users g !! u) as [b|]; cbn in *; try congruence.
  injection Hl as Hl. f_equal. unfold erase_pagerank, set_pagerank in *. congruence.
Qed.

Lemma init_communities_of_touches (g g' : Graph) :
  touches_only erase_community g g' -> init_communities g' = init_communities g.
Proof.
  intros [Hf Hu]. unfold init_communities, Cypher.set_nodes. rewrite Hf. f_equal.
  apply list_eq. intros u. rewrite !list_lookup_imap.
  assert (Hl : erase_community <$> users g' !! u = erase_community <$> users g !! u).
  { by rewrite <- !list_lookup_fmap, Hu. }
  destruct (users g' !! u) as [a|], (users g !! u) as [b|]; cbn in *; try congruence.
  injection Hl as Hl. f_equal. unfold erase_community, set_community_id in *. congruence.
Qed.

Lemma bridgedCommunities_of_touches (g g' : Graph) (u : nat) (usr usr' : User) :
  follows g' = follows g ->
  community_id <$> users g' = community_id <$> users g ->
  community_id usr' = community_id usr ->
  bridgedCommunities g' u usr' = bridgedCommunities g u usr.
Proof.
  intros Hf Hc Hcid. unfold bridgedCommunities.
  assert (Hn : Cypher.neighbors g' u = Cypher.neighbors g u).
  { unfold Cypher.neighbors, Cypher.incident, Cypher.rels. by rewrite Hf. }
  assert (Hfor : forall v, foreign_community g' usr' v = foreign_community g usr v).
  { intros v. unfold foreign_community.
    by rewrite (prop_of_column community_id g g' (Some v) Hc), Hcid. }
  rewrite Hn.
  assert (Hfil : filter (fun v => foreign_community g' usr' v = true) (Cypher.neighbors g u)
                 = filter (fun v => foreign_community g usr v = true) (Cypher.neighbors g u)).
  { apply list_filter_iff. intros v. by rewrite Hfor. }
  rewrite Hfil. f_equal. apply list_fmap_ext. intros _ v _.
  by apply prop_of_column.
Qed.

Lemma score_user_again (g : Graph) (u : nat) (usr : User) :
  let g' := Cypher.set_nodes (Algorithms.score_user g) g in
  Algorithms.score_user g' u (Algorithms.score_user g u usr) = Algorithms.score_user g u usr.
Proof.
  intros g'.
  assert (Ht : touches_only erase_scores g g').
  { apply touches_only_set_nodes, score_user_erase. }
  pose proof (column_of_touches erase_scores community_id g g' (fun _ => eq_refl) Ht) as Hc.
  pose proof (column_of_touches erase_scores pagerank g g' (fun _ => eq_refl) Ht) as Hp.
  pose proof (column_of_touches erase_scores betweenness_centrality g g'
                (fun _ => eq_refl) Ht) as Hb.
  assert (Hm : Algorithms.maxBridged g' = Algorithms.maxBridged g).
  { unfold Algorithms.maxBridged. f_equal.
    apply (column_of_touches erase_scores (fun _ => Some 5%Z) g g' (fun _ => eq_refl) Ht). }
  remember (Algorithms.score_user g u usr) as usr' eqn:Husr'.
  unfold Algorithms.score_user in Husr'. unfold Algorithms.score_user.
  rewrite Hm, Hb, Hp.
  destruct (has_dependencies usr) eqn:Hdep.
  - destruct (Algorithms.maxBridged g) as [cap|] eqn:Hcap.
    + assert (Hdep' : has_dependencies usr' = true) by (by subst usr').
      assert (Hcid : community_id usr' = community_id usr) by (by subst usr').
      rewrite Hdep'.
      rewrite (bridgedCommunities_of_touches g g' u usr usr' eq_refl Hc Hcid).
      by subst usr'.
    + subst usr'. by rewrite Hdep.
  - subst usr'. by rewrite Hdep.
Qed.

(** Running a stage of the endpoint a second time, right after the first,
    leaves the graph of the first run. *)
Theorem stages_idempotent (g : Graph) :
  (exists g' rows rows', Algorithms.pagerank_fallback_query g = Ok (g', rows) /\
                         Algorithms.pagerank_fallback_query g' = Ok (g', rows')) /\
  (exists g' rows rows', Algorithms.betweenness_query g = Ok (g', rows) /\
                         Algorithms.betweenness_query g' = Ok (g', rows')) /\
  (exists g' rows rows', Algorithms.louvain_query g = Ok (g', rows) /\
                         Algorithms.louvain_query g' = Ok (g', rows')) /\
  (exists g' rows rows', Algorithms.bottleneck_query g = Ok (g', rows) /\
                         Algorithms.bottleneck_query g' = Ok (g', rows')) /\
  (exists g' rows rows', Algorithms.degree_query g = Ok (g', rows) /\
                         Algorithms.degree_query g' = Ok (g', rows')).
Proof.
  repeat split.
  - eexists _, _, _. split; [reflexivity|].
    unfold Algorithms.pagerank_fallback_query.
    rewrite (init_pagerank_of_touches g); [reflexivity|].
    eapply touches_only_trans; [apply init_pagerank_touches|apply update_pagerank_touches].
  - eexists _, _, _. split; [reflexivity|].
    unfold Algorithms.betweenness_query. cbv zeta.
    rewrite set_nodes_set_nodes. reflexivity.
  - eexists _, _, _. split; [reflexivity|].
    unfold Algorithms.louvain_query.
    rewrite (init_communities_of_touches g); [reflexivity|].
    eapply touches_only_trans; [apply init_communities_touches|apply propagate_touches].
  - eexists _, _, _. split; [reflexivity|].
    unfold Algorithms.bottleneck_query. cbv zeta.
    rewrite set_nodes_set_nodes.
    rewrite (set_nodes_ext _ (Algorithms.score_user g)); [reflexivity|].
    intros u usr _. apply score_user_again.
  - eexists _, _, _. split; [reflexivity|].
    unfold Algorithms.degree_query. cbv zeta.
    rewrite set_nodes_set_nodes. reflexivity.
Qed.

(** ** Failed and completed runs *)

Ltac stage_outcome_of query :=
  let db := fresh "db" in let db' := fresh "db'" in let r := fresh "r" in
  let H := fresh "H" in
  intros db db' r H; cbv beta delta [mbind py_bind] in H;
  destruct (execute_query_cases query db)
    as [(g' & rows & Hg & _ & Hq) | (e & Hq)];
  rewrite Hq in H;
  [ injection Hg as _ <-; injection H as <- <-; split; [done|by eexists _, _]
  | by injection H as <- <- ].

Lemma run_betweenness_outcome wp ss :
  stage_outcome "Betweenness centrality approximated and stored"
    (Algorithms._run_betweenness wp ss).
Proof.
  unfold Algorithms._run_betweenness. stage_outcome_of Algorithms.betweenness_query.
Qed.

Lemma run_louvain_outcome wp :
  stage_outcome "Community detection completed" (Algorithms._run_louvain wp).
Proof. unfold Algorithms._run_louvain. stage_outcome_of Algorithms.louvain_query. Qed.

Lemma run_bottleneck_outcome wp :
  stage_outcome "Bottleneck scores calculated" (Algorithms._run_bottleneck_score wp).
Proof.
  unfold Algorithms._run_bottleneck_score. stage_outcome_of Algorithms.bottleneck_query.
Qed.

Lemma run_degree_outcome wp :
  stage_outcome "Degree centrality calculated" (Algorithms._run_degree wp).
Proof. unfold Algorithms._run_degree. stage_outcome_of Algorithms.degree_query. Qed.

Lemma gds_rows stream g g' rows :
  Algorithms.gds_pagerank_query stream g = Ok (g', rows) -> exists row, rows = [row].
Proof.
  unfold Algorithms.gds_pagerank_query. destruct (stream g); [|done].
  cbn. intros [= _ <-]. by eexists.
Qed.

Lemma run_pagerank_outcome wp :
  stage_outcome "PageRank scores calculated and stored" (Algorithms._run_pagerank wp).
Proof.
  intros db db' r H. unfold Algorithms._run_pagerank in H.
  cbv beta delta [mbind py_bind py_try] in H.
  destruct (execute_query_cases
              (Algorithms.gds_pagerank_query (gds_pageRank_stream db)) db)
    as [(g' & rows & Hg & _ & Hq) | (e & Hq)]; rewrite Hq in H.
  - apply gds_rows in Hg as [row ->]. injection H as <- <-.
    split; [done|by eexists _, _].
  - destruct (execute_query_cases Algorithms.pagerank_fallback_query db)
      as [(g' & rows & Hg & _ & Hq') | (e' & Hq')]; rewrite Hq' in H.
    + injection Hg as _ <-. injection H as <- <-. split; [done|by eexists _, _].
    + by injection H as <- <-.
Qed.

Lemma dispatch_outcome name wp ss :
  name ∈ fst <$> Algorithms.AVAILABLE_ALGORITHMS ->
  stage_outcome (success_message name) (dispatch name wp ss).
Proof.
  intros Hname%known_algorithm. unfold dispatch, success_message.
  repeat case_bool_decide;
    auto using run_pagerank_outcome, run_betweenness_outcome, run_louvain_outcome,
               run_bottleneck_outcome, run_degree_outcome.
  exfalso. intuition.
Qed.

(** A run that reports "failed" has left the server as it found it and
    reports no processed node and an empty summary; a run that reports
    "completed" carries the fixed message of its stage and a summary that is
    not empty, so the alternative messages of the stages ("No nodes
    processed", "Run pagerank and betweenness first", "No communities
    detected") are never returned. *)
Theorem run_algorithm_reports (name : string) (wp : bool) (ss : option Z)
    (db db' : Neo4j) (resp : Algorithms.AlgorithmRunResponse) :
  Algorithms.run_algorithm name wp ss db = (db', Ok resp) ->
  (Algorithms.status resp = "failed" ->
   db' = db /\ Algorithms.nodes_processed resp = 0%Z /\
   Algorithms.results_summary resp = []) /\
  (Algorithms.status resp = "completed" ->
   Algorithms.message resp = Some (success_message name) /\
   Algorithms.results_summary resp <> []).
Proof.
  unfold Algorithms.run_algorithm.
  destruct (bool_decide (name ∈ fst <$> Algorithms.AVAILABLE_ALGORITHMS)) eqn:Hname;
    cbn [negb]; [|done].
  apply bool_decide_eq_true in Hname. fold (dispatch name wp ss).
  cbv beta delta [py_try mbind py_bind mret py_ret].
  pose proof (dispatch_outcome name wp ss Hname db) as Hout.
  destruct (dispatch name wp ss db) as [db1 [d|e]] eqn:Hd;
    specialize (Hout _ _ eq_refl); cbn in Hout.
  - intros [= <- <-]. cbn. split; [done|]. intros _.
    destruct Hout as [Hm (entry & entries & Hs)]. rewrite Hs. by split.
  - intros [= <- <-]. cbn. subst db1. split; [done|]. done.
Qed.

(** On a server that does not answer, every known stage reports "failed". *)
Theorem run_algorithm_unreachable (name : string) (wp : bool) (ss : option Z)
    (db : Neo4j) :
  name ∈ fst <$> Algorithms.AVAILABLE_ALGORITHMS ->
  available db = false ->
  exists msg,
    Algorithms.run_algorithm name wp ss db
    = (db, Ok (Algorithms.mkResponse name "failed" 0%Z [] (Some msg))).
Proof.
  intros Hname Hav. unfold Algorithms.run_algorithm.
  rewrite bool_decide_true by done. cbn [negb].
  apply known_algorithm in Hname.
  assert (Hq : forall A (q : Graph -> Result (Graph * list A)),
             Neo4jService.execute_query q db
             = (db, Raise (ServiceUnavailable "Unable to connect to the database"))).
  { intros A q. unfold Neo4jService.execute_query. by rewrite Hav. }
  fold (dispatch name wp ss).
  assert (Hd : exists e, dispatch name wp ss db = (db, Raise e)).
  { destruct Hname as [-> | [-> | [-> | [-> | ->]]]].
    - change (dispatch "pagerank" wp ss) with (Algorithms._run_pagerank wp).
      unfold Algorithms._run_pagerank. cbv beta delta [mbind py_bind py_try].
      rewrite !Hq. by eexists.
    - change (dispatch "betweenness" wp ss) with (Algorithms._run_betweenness wp ss).
      unfold Algorithms._run_betweenness. cbv beta delta [mbind py_bind].
      rewrite Hq. by eexists.
    - change (dispatch "louvain" wp ss) with (Algorithms._run_louvain wp).
      unfold Algorithms._run_louvain. cbv beta delta [mbind py_bind].
      rewrite Hq. by eexists.
    - change (dispatch "bottleneck" wp ss) with (Algorithms._run_bottleneck_score wp).
      unfold Algorithms._run_bottleneck_score. cbv beta delta [mbind py_bind].
      rewrite Hq. by eexists.
    - change (dispatch "degree" wp ss) with (Algorithms._run_degree wp).
      unfold Algorithms._run_degree. cbv beta delta [mbind py_bind].
      rewrite Hq. by eexists. }
  destruct Hd as [e Hd]. cbv beta delta [py_try mbind py_bind mret py_ret].
  rewrite Hd. by eexists.
Qed.

(** ** The range of the scores *)

Lemma length_remove_dups `{EqDecision A} (l : list A) :
  (length (remove_dups l) <= length l)%nat.
Proof.
  induction l as [|x l IH]; [done|]. cbn. case_decide; cbn; lia.
Qed.

Lemma length_non_null {A} (col : list (option A)) :
  (length (Cypher.non_null col) <= length col)%nat.
Proof.
  unfold Cypher.non_null. induction col as [|[x|] col IH]; cbn in *; lia.
Qed.

Lemma count_distinct_range `{EqDecision A} (col : list (option A)) :
  (0 <= Cypher.count_distinct col <= Z.of_nat (length (Cypher.non_null col)))%Z.
Proof.
  unfold Cypher.count_distinct. pose proof (length_remove_dups (Cypher.non_null col)). lia.
Qed.

Lemma bridged_rows_non_null (g : Graph) (usr : User) (F : list nat) :
  (length (Cypher.non_null (Cypher.prop g community_id <$> Cypher.optional_match F))
   <= length F)%nat.
Proof.
  destruct F as [|v F]; [cbn; lia|].
  etrans; [apply length_non_null|].
  unfold Cypher.optional_match. by rewrite !length_fmap.
Qed.

(** The count of bridged communities lies between 0 and the number of
    relationships incident to the node; it is 0 for a node without a
    community label, and when it is positive the node has a neighbour that
    carries another label. *)
Theorem bridged_communities_range (g : Graph) (u : nat) (usr : User) :
  (0 <= bridgedCommunities g u usr <= Z.of_nat (length (Cypher.neighbors g u)))%Z /\
  (community_id usr = None -> bridgedCommunities g u usr = 0%Z) /\
  ((0 < bridgedCommunities g u usr)%Z ->
   exists v c c', v ∈ Cypher.neighbors g u /\
                  Cypher.prop g community_id (Some v) = Some c /\
                  community_id usr = Some c' /\ c <> c').
Proof.
  unfold bridgedCommunities.
  set (F := filter (fun v => foreign_community g usr v = true) (Cypher.neighbors g u)).
  pose proof (count_distinct_range
                (Cypher.prop g community_id <$> Cypher.optional_match F)) as Hr.
  pose proof (bridged_rows_non_null g usr F) as Hn.
  assert (HF : (length F <= length (Cypher.neighbors g u))%nat) by apply length_filter.
  split; [lia|]. split.
  - intros Hnone.
    assert (HFnil : F = []).
    { destruct F as [|v F'] eqn:HFeq; [done|]. exfalso.
      assert (Hv : v ∈ F) by (rewrite HFeq; left).
      apply list_elem_of_filter in Hv as [Hfor _].
      unfold foreign_community in Hfor. rewrite Hnone in Hfor.
      by destruct (Cypher.prop g community_id (Some v)). }
    rewrite HFnil in *. cbn in *. lia.
  - intros Hpos. destruct F as [|v F'] eqn:HFeq; [cbn in *; lia|].
    assert (Hv : v ∈ F) by (rewrite HFeq; left).
    apply list_elem_of_filter in Hv as [Hfor Hv].
    unfold foreign_community in Hfor.
    destruct (Cypher.prop g community_id (Some v)) as [c|] eqn:Hc; [|done].
    destruct (community_id usr) as [c'|]; [|done].
    exists v, c, c'. repeat split; try done.
    intros ->. by rewrite bool_decide_true in Hfor.
Qed.

Lemma gt_spec (a b : Q) : Cypher.gt a b = true <-> b < a.
Proof.
  unfold Cypher.gt. rewrite negb_true_iff. split.
  - intros Hle. apply Qnot_le_lt. intros H%Qle_bool_iff. congruence.
  - intros Hlt. destruct (Qle_bool a b) eqn:Hle; [|done].
    apply Qle_bool_iff in Hle. exfalso. by apply (Qlt_not_le b a).
Qed.

Lemma normalize_range (value m : Q) :
  0 <= value -> value <= m ->
  0 <= normalize value (Some m) /\ normalize value (Some m) <= 1.
Proof.
  intros H0 Hm. unfold normalize.
  destruct (Cypher.gt m 0) eqn:Hgt; [|split; [apply Qle_refl|done]].
  apply gt_spec in Hgt. split.
  - apply Qle_shift_div_l; [done|]. by rewrite Qmult_0_l.
  - apply Qle_shift_div_r; [done|]. by rewrite Qmult_1_l.
Qed.

Lemma bridge_ratio_range (bridged : Z) :
  (0 <= bridged)%Z ->
  0 <= inject_Z bridged / inject_Z 5 /\
  ((bridged <= 5)%Z -> inject_Z bridged / inject_Z 5 <= 1).
Proof.
  intros Hb. rewrite (Qdiv_inject_Z bridged 5) by lia.
  unfold Qle. cbn. split; lia.
Qed.

(** For a processed node whose pagerank and betweenness are not negative,
    the endpoint stores a bottleneck score that is not negative and is at
    most [0.7 + 0.3 * bridge_score]; the score stays within 1 when the node
    bridges at most five communities. *)
Theorem bottleneck_score_range (g : Graph) (u : nat) (usr : User) (p b : Q) :
  users g !! u = Some usr ->
  pagerank usr = Some p ->
  betweenness_centrality usr = Some b ->
  0 <= p -> 0 <= b ->
  exists g' rows usr' bs sc,
    Algorithms.bottleneck_query g = Ok (g', rows) /\
    users g' !! u = Some usr' /\
    bridge_score usr' = Some bs /\
    bottleneck_score usr' = Some sc /\
    bs == inject_Z (bridgedCommunities g u usr) / inject_Z 5 /\
    0 <= sc /\ sc <= 0.7 + 0.3 * bs /\
    ((bridgedCommunities g u usr <= 5)%Z -> sc <= 1).
Proof.
  intros Hu Hp Hb Hp0 Hb0.
  assert (Husr : usr ∈ users g) by (by eapply list_elem_of_lookup_2).
  destruct (max_global_max g betweenness_centrality usr b Husr Hb) as (maxB & HmaxB & _ & HubB).
  destruct (max_global_max g pagerank usr p Husr Hp) as (maxP & HmaxP & _ & HubP).
  destruct (normalize_range b maxB Hb0 (HubB usr b Husr Hb)) as [HnB0 HnB1].
  destruct (normalize_range p maxP Hp0 (HubP usr p Husr Hp)) as [HnP0 HnP1].
  assert (Hbr0 : (0 <= bridgedCommunities g u usr)%Z)
    by (unfold bridgedCommunities, Cypher.count_distinct; lia).
  destruct (bridge_ratio_range _ Hbr0) as [Hr0 Hr1].
  eexists _, _, _, _, _. split; [reflexivity|].
  rewrite lookup_set_nodes, Hu. cbn [fmap option_fmap option_map].
  unfold Algorithms.score_user.
  rewrite (has_dependencies_true usr p b Hp Hb), (maxBridged_five g usr Husr), HmaxB, HmaxP.
  split; [reflexivity|]. unfold score_node, set_scores.
  cbn [bridge_score bottleneck_score]. split; [reflexivity|]. split; [reflexivity|].
  rewrite Hp, Hb. unfold Cypher.coalesce. cbn [default]. unfold Datatypes.id.
  split; [reflexivity|]. unfold composite.
  set (nB := normalize b (Some maxB)) in *. set (nP := normalize p (Some maxP)) in *.
  set (r := inject_Z (bridgedCommunities g u usr) / inject_Z 5) in *.
  split; [lra|]. split; [lra|]. intros Hle. specialize (Hr1 Hle). lra.
Qed.

Lemma bridge_ratio_script (bridged : Z) :
  inject_Z bridged / 5.0 == inject_Z bridged / inject_Z 5.
Proof. unfold Qeq, Qdiv, Qmult, Qinv, inject_Z. cbn. lia. Qed.

#[local] Instance normalize_proper : Proper (Qeq ==> eq ==> Qeq) normalize.
Proof.
  intros x y Hxy m ? <-. unfold normalize. destruct m as [m|]; [|reflexivity].
  destruct (Cypher.gt m 0); [|reflexivity]. by rewrite Hxy.
Qed.

(** On the same graph the endpoint and the script store the same bridge
    score and the same bottleneck score for every node, and process the same
    nodes; a node the endpoint flags (score above 0.5) the script flags too
    (score above 0.3). *)
Theorem script_and_endpoint_scores_agree (g : Graph) (u : nat) (usr : User) :
  users g !! u = Some usr ->
  exists g' rows usrE usrS,
    Algorithms.bottleneck_query g = Ok (g', rows) /\
    users g' !! u = Some usrE /\
    users (RunAlgorithms.run_bottleneck g) !! u = Some usrS /\
    same_float (bridge_score usrE) (bridge_score usrS) /\
    same_float (bottleneck_score usrE) (bottleneck_score usrS) /\
    (is_bottleneck usrE = Some true -> is_bottleneck usrS = Some true).
Proof.
  intros Hu.
  assert (Husr : usr ∈ users g) by (by eapply list_elem_of_lookup_2).
  eexists _, _, _, _. split; [reflexivity|].
  unfold RunAlgorithms.run_bottleneck. rewrite !lookup_set_nodes, Hu.
  cbn [fmap option_fmap option_map]. split; [reflexivity|]. split; [reflexivity|].
  unfold Algorithms.score_user, RunAlgorithms.score_user.
  destruct (has_dependencies usr) eqn:Hdep.
  2:{ unfold same_float. destruct (bridge_score usr), (bottleneck_score usr);
        repeat split; try reflexivity; done. }
  rewrite (maxBridged_five g usr Husr).
  destruct (users g) as [|usr0 us] eqn:Hus; [by apply not_elem_of_nil in Husr|].
  rewrite <- Hus in *.
  unfold has_dependencies in Hdep. apply andb_prop in Hdep as [Hp Hb].
  apply bool_decide_eq_true in Hp as [p Hp]. apply bool_decide_eq_true in Hb as [b Hb].
  destruct (max_global_max g betweenness_centrality usr b Husr Hb) as (maxB & -> & _).
  destruct (max_global_max g pagerank usr p Husr Hp) as (maxP & -> & _).
  unfold Cypher.coalesce at 1 2. cbn [default]. unfold Datatypes.id.
  unfold score_node, set_scores. cbn [bridge_score bottleneck_score is_bottleneck same_float].
  pose proof (bridge_ratio_script (bridgedCommunities g u usr)) as Hr.
  assert (Hsc : composite (normalize (Cypher.coalesce (betweenness_centrality usr) 0) (Some maxB))
                  (normalize (Cypher.coalesce (pagerank usr) 0) (Some maxP))
                  (inject_Z (bridgedCommunities g u usr) / inject_Z 5)
                == composite (normalize (Cypher.coalesce (betweenness_centrality usr) 0) (Some maxB))
                  (normalize (Cypher.coalesce (pagerank usr) 0) (Some maxP))
                  (inject_Z (bridgedCommunities g u usr) / 5.0)).
  { unfold composite. by rewrite Hr. }
  split; [by symmetry|]. split; [exact Hsc|].
  intros [= Hflag]. f_equal. apply gt_spec. apply gt_spec in Hflag.
  rewrite <- Hsc. apply Qlt_trans with 0.5; [reflexivity|done].
Qed.

(** After the betweenness stage a node has betweenness 0 exactly when no
    relationship leaves it or no relationship enters it. *)
Theorem betweenness_zero (g : Graph) (u : nat) (usr : User) :
  users g !! u = Some usr ->
  exists g' rows b,
    Algorithms.betweenness_query g = Ok (g', rows) /\
    Cypher.prop g' betweenness_centrality (Some u) = Some b /\
    Cypher.prop (RunAlgorithms.run_betweenness g) betweenness_centrality (Some u) = Some b /\
    (b == 0 <-> edges_from g u = 0%Z \/ edges_to g u = 0%Z).
Proof.
  intros Hu. eexists _, _, _. split; [reflexivity|].
  unfold Cypher.prop, RunAlgorithms.run_betweenness. cbn [mbind option_bind].
  rewrite !lookup_set_nodes, Hu. cbn.
  rewrite outDegree_edges, inDegree_edges, script_outDegree_edges, script_inDegree_edges.
  split; [reflexivity|]. split; [reflexivity|].
  assert (Ho : (0 <= edges_from g u)%Z) by (unfold edges_from; lia).
  assert (Hi : (0 <= edges_to g u)%Z) by (unfold edges_to; lia).
  generalize dependent (edges_to g u). generalize dependent (edges_from g u).
  intros o Ho i Hi.
  destruct (Z_lt_le_dec 0 (o + i)) as [Hd|Hd].
  - rewrite (approxBetweenness_pos o i Hd). unfold Qeq. cbn. nia.
  - rewrite (approxBetweenness_zero o i Hd). split; [lia|reflexivity].
Qed.

(** ** Label propagation *)

#[local] Instance weight_desc_trans {K} : Transitive (@weight_desc K).
Proof. intros a b c. unfold weight_desc. lia. Qed.

#[local] Instance weight_desc_total {K} : Total (@weight_desc K).
Proof. intros a b. unfold weight_desc. lia. Qed.

Lemma StronglySorted_filter {A} (R : relation A) (P : A -> Prop)
    `{!forall x, Decision (P x)} (l : list A) :
  StronglySorted R l -> StronglySorted R (filter P l).
Proof.
  induction 1 as [|x l Hl IH Hx]; [constructor|].
  rewrite filter_cons. case_decide; [|done].
  constructor; [done|]. apply Forall_forall. intros y [_ Hy]%list_elem_of_filter.
  by apply (proj1 (Forall_forall _ _) Hx).
Qed.

Lemma head_omap_sorted {A B} (R : relation A) `{!Reflexive R} (f : A -> option B)
    (l : list A) (b : B) :
  StronglySorted R l -> head (omap f l) = Some b ->
  exists a, a ∈ l /\ f a = Some b /\ forall a', a' ∈ l -> is_Some (f a') -> R a a'.
Proof.
  induction 1 as [|x l Hl IH Hx]; [done|]. cbn.
  destruct (f x) as [b0|] eqn:Hfx.
  - cbn. intros [= ->]. exists x. split; [left|]. split; [done|].
    intros a' [->|Ha']%elem_of_cons _; [done|].
    by apply (proj1 (Forall_forall _ _) Hx).
  - intros (a & Ha & Hfa & Hall)%IH. exists a. split; [by right|]. split; [done|].
    intros a' [->|Ha']%elem_of_cons Hsome; [|by apply Hall].
    rewrite Hfx in Hsome. by destruct Hsome.
Qed.

Lemma head_omap_None {A B} (f : A -> option B) (l : list A) :
  head (omap f l) = None -> forall a, a ∈ l -> f a = None.
Proof.
  induction l as [|x l IH]; [by intros _ a ?%not_elem_of_nil|]. cbn.
  destruct (f x) eqn:Hfx; [done|]. intros Hh a [->|Ha]%elem_of_cons; [done|].
  by apply IH.
Qed.

#[local] Instance weight_desc_refl {K} : Reflexive (@weight_desc K).
Proof. intros a. unfold weight_desc. lia. Qed.

Lemma elem_of_group_count `{EqDecision K} (keys : list K) (grp : K * Z) :
  grp ∈ Cypher.group_count keys <->
  grp.1 ∈ keys /\ grp.2 = Z.of_nat (length (filter (grp.1 =.) keys)).
Proof.
  unfold Cypher.group_count. rewrite list_elem_of_fmap.
  setoid_rewrite elem_of_remove_dups. split.
  - intros (k & -> & Hk). done.
  - intros [Hk Hn]. exists grp.1. split; [|done]. destruct grp. cbn in *. by subst.
Qed.

Lemma count_pos `{EqDecision K} (keys : list K) (k : K) :
  k ∈ keys <-> (0 < length (filter (k =.) keys))%nat.
Proof.
  split.
  - intros Hk. assert (Hin : k ∈ filter (k =.) keys) by (by apply list_elem_of_filter).
    destruct (filter (k =.) keys); [by apply not_elem_of_nil in Hin|cbn; lia].
  - intros Hpos. destruct (filter (k =.) keys) as [|x l] eqn:Hf; [cbn in Hpos; lia|].
    assert (Hin : x ∈ filter (k =.) keys) by (rewrite Hf; left).
    by apply list_elem_of_filter in Hin as [-> ?].
Qed.

Lemma non_null_fmap {A B} (f : A -> option B) (l : list A) :
  Cypher.non_null (f <$> l) = omap f l.
Proof.
  unfold Cypher.non_null. induction l as [|x l IH]; [done|].
  cbn in *. by rewrite IH.
Qed.

(** What one pass stores for a node [u] that has rows. *)
Lemma propagate_choice (g : Graph) (rows : list (nat * nat)) (u : nat) (usr : User) :
  users g !! u = Some usr ->
  u ∈ fst <$> rows ->
  exists label,
    users (propagate g rows) !! u = Some (set_community_id label usr) /\
    match label with
    | Some c => (0 < votes g rows u c)%Z /\
                forall c', (votes g rows u c' <= votes g rows u c)%Z
    | None => forall c, votes g rows u c = 0%Z
    end.
Proof.
  intros Hu Hin. unfold propagate. rewrite lookup_set_nodes, Hu.
  cbn [fmap option_fmap option_map]. rewrite decide_True by done.
  set (keyed := (fun r : nat * nat => (r.1, Cypher.prop g community_id (Some r.2))) <$> rows).
  set (ordered := merge_sort weight_desc (Cypher.group_count keyed)).
  set (mine := filter (fun grp : nat * option string * Z => grp.1.1 = u) ordered).
  assert (Hkeyed : keyed = vote g <$> rows) by done.
  assert (Hsorted : StronglySorted weight_desc mine).
  { apply StronglySorted_filter, StronglySorted_merge_sort; apply _. }
  assert (Hmine : forall grp, grp ∈ mine <->
            grp.1 ∈ keyed /\ grp.1.1 = u /\
            grp.2 = Z.of_nat (length (filter (grp.1 =.) keyed))).
  { intros grp. unfold mine. rewrite list_elem_of_filter. unfold ordered.
    rewrite merge_sort_Permutation, elem_of_group_count. tauto. }
  assert (Hvotes : forall c, votes g rows u c
                             = Z.of_nat (length (filter ((u, Some c) =.) keyed))).
  { intros c. unfold votes. by rewrite Hkeyed. }
  assert (Hlabels : Cypher.non_null ((fun grp : nat * option string * Z => grp.1.2) <$> mine)
                    = omap (fun grp : nat * option string * Z => grp.1.2) mine).
  { apply non_null_fmap. }
  rewrite Hlabels.
  destruct (head (omap (fun grp : nat * option string * Z => grp.1.2) mine)) as [c|] eqn:Hhead.
  - exists (Some c). split; [done|].
    apply (head_omap_sorted weight_desc) in Hhead as (a & Ha & Hlab & Hbest); [|done].
    apply Hmine in Ha as (Hakey & Hau & Han).
    destruct a as [[au alab] an]. cbn in *. subst au alab.
    rewrite !Hvotes. split.
    + apply count_pos in Hakey. lia.
    + intros c'. rewrite Hvotes.
      destruct (decide ((u, Some c') ∈ keyed)) as [Hc'|Hc'].
      * specialize (Hbest ((u, Some c'), Z.of_nat (length (filter ((u, Some c') =.) keyed)))).
        unfold weight_desc in Hbest. cbn in Hbest. rewrite <- Han. apply Hbest.
        -- apply Hmine. done.
        -- by eexists.
      * assert (Hz : length (filter ((u, Some c') =.) keyed) = 0%nat).
        { destruct (length (filter ((u, Some c') =.) keyed)) eqn:Hl; [done|].
          exfalso. apply Hc', count_pos. lia. }
        rewrite Hz. lia.
  - exists None. split; [done|]. intros c. rewrite Hvotes.
    destruct (decide ((u, Some c) ∈ keyed)) as [Hc|Hc].
    + exfalso.
      pose proof (head_omap_None _ _ Hhead
        ((u, Some c), Z.of_nat (length (filter ((u, Some c) =.) keyed)))) as Hn.
      cbn in Hn. discriminate Hn. apply Hmine. done.
    + destruct (length (filter ((u, Some c) =.) keyed)) eqn:Hl; [done|].
      exfalso. apply Hc, count_pos. lia.
Qed.

Lemma propagate_untouched (g : Graph) (rows : list (nat * nat)) (u : nat) :
  u ∉ fst <$> rows -> users (propagate g rows) !! u = users g !! u.
Proof.
  intros Hout. unfold propagate. rewrite lookup_set_nodes.
  destruct (users g !! u); [|done]. cbn. by rewrite decide_False.
Qed.

(** One label-propagation pass, on any rows: a node without a row keeps
    its label; a node with rows takes a label that at least one of its rows
    votes for and that no other label outvotes, and it loses its label only
    when none of its rows carries one. *)
Theorem propagate_takes_heaviest (g : Graph) (rows : list (nat * nat)) (u : nat)
    (usr : User) :
  users g !! u = Some usr ->
  exists usr',
    users (propagate g rows) !! u = Some usr' /\
    (u ∉ fst <$> rows -> usr' = usr) /\
    (u ∈ fst <$> rows ->
     match community_id usr' with
     | Some c => (0 < votes g rows u c)%Z /\
                 forall c', (votes g rows u c' <= votes g rows u c)%Z
     | None => forall c, votes g rows u c = 0%Z
     end).
Proof.
  intros Hu. destruct (decide (u ∈ fst <$> rows)) as [Hin|Hout].
  - destruct (propagate_choice g rows u usr Hu Hin) as (label & Hl & Hc).
    exists (set_community_id label usr). split; [done|]. split; [done|].
    intros _. exact Hc.
  - exists usr. split; [by rewrite propagate_untouched|]. split; done.
Qed.

Lemma elem_of_incident (g : Graph) (u : nat) (step : nat * nat) :
  step ∈ Cypher.incident g u ->
  exists e, follows g !! step.1 = Some e /\
            ((e.1 = u /\ step.2 = e.2) \/ (e.2 = u /\ step.2 = e.1)).
Proof.
  unfold Cypher.incident. rewrite list_elem_of_omap.
  intros ([k e] & Hr & Hstep). apply elem_of_rels in Hr. cbn in *.
  exists e. repeat case_decide; simplify_eq; cbn; eauto.
Qed.

Lemma neighbor_valid (g : Graph) (u v : nat) :
  graph_wf g -> v ∈ Cypher.neighbors g u -> (v < length (users g))%nat.
Proof.
  intros Hwf (step & -> & Hstep)%list_elem_of_fmap.
  apply elem_of_incident in Hstep as (e & He & Hcase).
  apply list_elem_of_lookup_2, Hwf in He. destruct Hcase as [[_ ->]|[_ ->]]; tauto.
Qed.

Lemma elem_of_neighbor_rows (g : Graph) (u v : nat) :
  (u, v) ∈ neighbor_rows g <->
  (u < length (users g))%nat /\ v ∈ Cypher.neighbors g u.
Proof.
  unfold neighbor_rows. rewrite list_elem_of_bind. split.
  - intros (u' & Hv & Hu'). apply list_elem_of_bind in Hv as (v' & Heq & Hv').
    apply list_elem_of_singleton in Heq. simplify_eq.
    split; [by apply elem_of_handles|done].
  - intros [Hu Hv]. exists u. split; [|by apply elem_of_handles].
    apply list_elem_of_bind. exists v. split; [apply list_elem_of_here|done].
Qed.

Lemma elem_of_concat_replicate {A} (n : nat) (l : list A) (x : A) :
  x ∈ concat (replicate (S n) l) <-> x ∈ l.
Proof.
  induction n as [|n IH].
  - cbn. by rewrite app_nil_r.
  - change (concat (replicate (S (S n)) l)) with (l ++ concat (replicate (S n) l)).
    rewrite elem_of_app, IH. tauto.
Qed.

Lemma elem_of_unwound_neighbor_rows (g : Graph) (row : nat * nat) :
  row ∈ snd <$> Algorithms.unwound_neighbor_rows g <-> row ∈ neighbor_rows g.
Proof.
  unfold Algorithms.unwound_neighbor_rows. rewrite snd_tagged_rows.
  apply (elem_of_concat_replicate 9).
Qed.

Lemma votes_pos (g : Graph) (rows : list (nat * nat)) (u : nat) (c : string) :
  (0 < votes g rows u c)%Z <->
  exists v, (u, v) ∈ rows /\ Cypher.prop g community_id (Some v) = Some c.
Proof.
  unfold votes. split.
  - intros Hpos.
    assert (Hin : (u, Some c) ∈ vote g <$> rows) by (apply count_pos; lia).
    apply list_elem_of_fmap in Hin as ([u' v] & Heq & Hr).
    unfold vote in Heq. cbn in Heq. simplify_eq. by exists v.
  - intros (v & Hr & Hc).
    assert (Hin : (u, Some c) ∈ vote g <$> rows).
    { apply list_elem_of_fmap. exists (u, v). split; [|done].
      unfold vote. cbn [fst snd]. by rewrite Hc. }
    apply count_pos in Hin. lia.
Qed.

Lemma labelled_by_ids_init (g : Graph) : labelled_by_ids (init_communities g).
Proof.
  intros usr Husr. unfold init_communities, Cypher.set_nodes in *. cbn [users] in *.
  apply elem_of_lookup_imap in Husr as (u & usr0 & -> & Hu).
  exists (id usr0). split; [done|].
  apply list_elem_of_fmap. exists (set_community_id (Some (id usr0)) usr0).
  split; [done|]. apply elem_of_lookup_imap. by exists u, usr0.
Qed.

Lemma labelled_by_ids_propagate (g : Graph) (rows : list (nat * nat)) :
  (forall u v, (u, v) ∈ rows -> (v < length (users g))%nat) ->
  labelled_by_ids g -> labelled_by_ids (propagate g rows).
Proof.
  intros Hrows Hg usr' Husr'.
  assert (Hids : id <$> users (propagate g rows) = id <$> users g).
  { apply (column_of_touches erase_community id); [done|apply propagate_touches]. }
  rewrite Hids.
  apply list_elem_of_lookup_1 in Husr' as [u Hu'].
  destruct (users g !! u) as [usr|] eqn:Hu.
  2:{ unfold propagate in Hu'. rewrite lookup_set_nodes, Hu in Hu'. done. }
  destruct (decide (u ∈ fst <$> rows)) as [Hin|Hout].
  - destruct (propagate_choice g rows u usr Hu Hin) as (label & Hl & Hc).
    rewrite Hl in Hu'. injection Hu' as <-. cbn.
    assert (Hlab : forall c v, (u, v) ∈ rows ->
              Cypher.prop g community_id (Some v) = Some c -> c ∈ id <$> users g).
    { intros c v Hr Hcv. unfold Cypher.prop in Hcv. cbn in Hcv.
      destruct (users g !! v) as [vusr|] eqn:Hv; [|done]. cbn in Hcv.
      destruct (Hg vusr) as (c0 & Hc0 & Hid); [by eapply list_elem_of_lookup_2|].
      congruence. }
    destruct label as [c|].
    + exists c. split; [done|]. destruct Hc as [Hpos _].
      apply votes_pos in Hpos as (v & Hr & Hcv). by eapply Hlab.
    + exfalso. apply list_elem_of_fmap in Hin as ([u' v] & Heq & Hr). cbn in Heq. subst u'.
      destruct (lookup_lt_is_Some_2 (users g) v (Hrows u v Hr)) as [vusr Hv].
      destruct (Hg vusr) as (c0 & Hc0 & _); [by eapply list_elem_of_lookup_2|].
      assert (Hpos : (0 < votes g rows u c0)%Z).
      { apply votes_pos. exists v. split; [done|]. unfold Cypher.prop. cbn. by rewrite Hv. }
      rewrite (Hc c0) in Hpos. lia.
  - rewrite propagate_untouched, Hu in Hu' by done. injection Hu' as <-.
    apply Hg. by eapply list_elem_of_lookup_2.
Qed.

Lemma graph_wf_of_touches (erase : User -> User) (g g' : Graph) :
  touches_only erase g g' -> graph_wf g -> graph_wf g'.
Proof.
  intros Ht Hwf e He. rewrite (length_of_touches _ _ _ Ht).
  destruct Ht as [Hf _]. rewrite Hf in He. by apply Hwf.
Qed.

Lemma neighbor_rows_valid (g : Graph) (u v : nat) :
  graph_wf g -> (u, v) ∈ neighbor_rows g -> (v < length (users g))%nat.
Proof.
  intros Hwf [_ Hv]%elem_of_neighbor_rows. by eapply neighbor_valid.
Qed.

Lemma community_pass_invariant (n : nat) (g : Graph) :
  graph_wf g -> labelled_by_ids g ->
  graph_wf (RunAlgorithms.for_range n RunAlgorithms.community_pass g) /\
  labelled_by_ids (RunAlgorithms.for_range n RunAlgorithms.community_pass g).
Proof.
  intros Hwf Hg. induction n as [|n [IHwf IHg]]; [done|].
  rewrite for_range_S. unfold RunAlgorithms.community_pass at 1 3. split.
  - eapply graph_wf_of_touches; [apply propagate_touches|done].
  - apply labelled_by_ids_propagate; [|done].
    intros u v Hr. by eapply neighbor_rows_valid.
Qed.

(** In a graph whose relationships end in nodes, community detection, of
    the endpoint and of the script, leaves every node with a community
    label, and every label is the identifier of a node of the graph. *)
Theorem communities_are_user_ids (g : Graph) :
  graph_wf g ->
  (exists g' rows, Algorithms.louvain_query g = Ok (g', rows) /\ labelled_by_ids g') /\
  labelled_by_ids (RunAlgorithms.run_communities g).
Proof.
  intros Hwf.
  assert (Hwf1 : graph_wf (init_communities g)).
  { eapply graph_wf_of_touches; [apply init_communities_touches|done]. }
  split.
  - eexists _, _. split; [reflexivity|].
    apply labelled_by_ids_propagate; [|apply labelled_by_ids_init].
    intros u v Hr%elem_of_unwound_neighbor_rows. by eapply neighbor_rows_valid.
  - apply community_pass_invariant; [done|apply labelled_by_ids_init].
Qed.

(** After the label-propagation query of the endpoint, a node without
    relationships keeps its own identifier as label, and every other node
    carries the identifier of one of its neighbours. *)
Theorem louvain_endpoint_labels (g : Graph) (u : nat) (usr : User) :
  graph_wf g ->
  users g !! u = Some usr ->
  exists g' rows usr',
    Algorithms.louvain_query g = Ok (g', rows) /\
    users g' !! u = Some usr' /\
    (Cypher.neighbors g u = [] -> community_id usr' = Some (id usr)) /\
    (Cypher.neighbors g u <> [] ->
     exists v vusr, v ∈ Cypher.neighbors g u /\ users g !! v = Some vusr /\
                    community_id usr' = Some (id vusr)).
Proof.
  intros Hwf Hu.
  assert (Hlt : (u < length (users g))%nat) by (by eapply lookup_lt_Some).
  set (g1 := init_communities g).
  set (rows := snd <$> Algorithms.unwound_neighbor_rows g1).
  assert (Hu1 : users g1 !! u = Some (set_community_id (Some (id usr)) usr)).
  { unfold g1, init_communities. by rewrite lookup_set_nodes, Hu. }
  assert (Hrows : forall v, (u, v) ∈ rows <-> v ∈ Cypher.neighbors g u).
  { intros v. unfold rows. rewrite elem_of_unwound_neighbor_rows, elem_of_neighbor_rows.
    unfold g1, init_communities, Cypher.set_nodes. cbn [users]. rewrite length_imap.
    change (Cypher.neighbors _ u) with (Cypher.neighbors g u). tauto. }
  destruct (decide (u ∈ fst <$> rows)) as [Hin|Hout].
  - destruct (propagate_choice g1 rows u _ Hu1 Hin) as (label & Hl & Hc).
    exists (propagate g1 rows). eexists. eexists. split; [reflexivity|].
    split; [exact Hl|].
    apply list_elem_of_fmap in Hin as ([u' v0] & Heq & Hr0). cbn in Heq. subst u'.
    apply Hrows in Hr0. split.
    { intros Hnil. rewrite Hnil in Hr0. by apply not_elem_of_nil in Hr0. }
    intros _.
    assert (Hlab : forall v c, (u, v) ∈ rows ->
              Cypher.prop g1 community_id (Some v) = Some c ->
              exists vusr, users g !! v = Some vusr /\ c = id vusr).
    { intros v c _ Hcv. unfold Cypher.prop, g1, init_communities in Hcv. cbn in Hcv.
      rewrite list_lookup_imap in Hcv.
      destruct (users g !! v) as [vusr|]; [|done]. cbn in Hcv. injection Hcv as <-.
      by exists vusr. }
    destruct label as [c|].
    + destruct Hc as [Hpos _]. apply votes_pos in Hpos as (v & Hr & Hcv).
      destruct (Hlab v c Hr Hcv) as (vusr & Hv & ->).
      exists v, vusr. split; [by apply Hrows|]. done.
    + exfalso.
      destruct (lookup_lt_is_Some_2 (users g) v0 (neighbor_valid g u v0 Hwf Hr0))
        as [vusr Hv].
      assert (Hpos : (0 < votes g1 rows u (id vusr))%Z).
      { apply votes_pos. exists v0. split; [by apply Hrows|].
        unfold Cypher.prop, g1, init_communities. cbn.
        by rewrite list_lookup_imap, Hv. }
      rewrite (Hc (id vusr)) in Hpos. lia.
  - exists (propagate g1 rows). eexists. eexists. split; [reflexivity|].
    split; [by rewrite propagate_untouched|]. split; [done|].
    intros Hne. exfalso. apply Hout.
    destruct (Cypher.neighbors g u) as [|v l] eqn:Hn; [done|].
    apply list_elem_of_fmap. exists (u, v). split; [done|]. apply Hrows. left.
Qed.

(** ** The script from top to bottom *)

Lemma for_range_community_touches (n : nat) (g : Graph) :
  touches_only erase_community g
    (RunAlgorithms.for_range n RunAlgorithms.community_pass g).
Proof.
  induction n as [|n IH]; [apply touches_only_refl|]. rewrite for_range_S.
  eapply touches_only_trans; [exact IH|apply propagate_touches].
Qed.

Lemma for_range_pagerank_touches (n : nat) (g : Graph) :
  touches_only erase_pagerank g
    (RunAlgorithms.for_range n RunAlgorithms.pagerank_pass g).
Proof.
  induction n as [|n IH]; [apply touches_only_refl|]. rewrite for_range_S.
  eapply touches_only_trans; [exact IH|apply update_pagerank_touches].
Qed.

Lemma run_pagerank_touches (g : Graph) :
  touches_only erase_pagerank g (RunAlgorithms.run_pagerank g).
Proof.
  unfold RunAlgorithms.run_pagerank.
  eapply touches_only_trans; [apply init_pagerank_touches|].
  apply for_range_pagerank_touches.
Qed.

Lemma run_communities_touches (g : Graph) :
  touches_only erase_community g (RunAlgorithms.run_communities g).
Proof.
  unfold RunAlgorithms.run_communities.
  eapply touches_only_trans; [apply init_communities_touches|].
  apply for_range_community_touches.
Qed.

Lemma run_betweenness_touches (g : Graph) :
  touches_only profile g (RunAlgorithms.run_betweenness g).
Proof. by apply touches_only_set_nodes. Qed.

Lemma run_bottleneck_touches (g : Graph) :
  touches_only erase_scores g (RunAlgorithms.run_bottleneck g).
Proof.
  apply touches_only_set_nodes. intros u usr. unfold RunAlgorithms.score_user.
  destruct (has_dependencies usr); [|done]. by destruct (users g).
Qed.

Lemma main_touches (g : Graph) : touches_only profile g (RunAlgorithms.main g).
Proof.
  unfold RunAlgorithms.main.
  eapply touches_only_trans;
    [eapply (touches_only_profile erase_pagerank); [done|apply run_pagerank_touches]|].
  eapply touches_only_trans;
    [eapply (touches_only_profile erase_community); [done|apply run_communities_touches]|].
  eapply touches_only_trans; [apply run_betweenness_touches|].
  eapply (touches_only_profile erase_scores); [done|apply run_bottleneck_touches].
Qed.

Lemma ranked_after_communities (g : Graph) (usr : User) :
  usr ∈ users (RunAlgorithms.run_communities (RunAlgorithms.run_pagerank g)) ->
  is_Some (pagerank usr).
Proof.
  intros Husr.
  assert (Hc : pagerank <$> users (RunAlgorithms.run_communities (RunAlgorithms.run_pagerank g))
               = pagerank <$> users (RunAlgorithms.run_pagerank g)).
  { apply (column_of_touches erase_community pagerank); [done|].
    apply run_communities_touches. }
  assert (Hin : pagerank usr ∈ pagerank <$> users (RunAlgorithms.run_pagerank g)).
  { rewrite <- Hc. apply list_elem_of_fmap. by exists usr. }
  apply list_elem_of_fmap in Hin as (usr0 & -> & Husr0).
  destruct (for_range_pagerank_floor 9 (init_pagerank g) (init_pagerank_nonneg g) usr0 Husr0)
    as (r & -> & _). by eexists.
Qed.

Lemma scored_after_betweenness (g2 : Graph) (usr : User) :
  (forall x, x ∈ users g2 -> is_Some (pagerank x)) ->
  usr ∈ users (RunAlgorithms.run_bottleneck (RunAlgorithms.run_betweenness g2)) ->
  fully_scored usr.
Proof.
  intros Hranked Husr.
  set (g3 := RunAlgorithms.run_betweenness g2) in *.
  apply list_elem_of_lookup_1 in Husr as [u Hu4].
  unfold RunAlgorithms.run_bottleneck in Hu4. rewrite lookup_set_nodes in Hu4.
  destruct (users g3 !! u) as [usr3|] eqn:Hu3; [|done].
  cbn [fmap option_fmap option_map] in Hu4. injection Hu4 as <-.
  assert (Hne : users g3 <> []).
  { intros Hnil. by rewrite Hnil in Hu3. }
  unfold g3, RunAlgorithms.run_betweenness in Hu3. rewrite lookup_set_nodes in Hu3.
  destruct (users g2 !! u) as [usr2|] eqn:Hu2; [|done].
  cbn [fmap option_fmap option_map] in Hu3. injection Hu3 as <-.
  destruct (Hranked usr2) as [r Hr]; [by eapply list_elem_of_lookup_2|].
  unfold RunAlgorithms.score_user.
  match goal with |- context [has_dependencies ?x] =>
    assert (Hdep : has_dependencies x = true)
  end.
  { apply (has_dependencies_true _ r
             (approxBetweenness (RunAlgorithms.outDegree g2 u)
                (RunAlgorithms.inDegree g2 u))); [exact Hr|reflexivity]. }
  rewrite Hdep. destruct (users g3) as [|x xs]; [done|].
  unfold fully_scored, score_node. cbn. rewrite Hr. repeat split; by eexists.
Qed.

(** The script leaves no node unscored: after it has run, on any graph,
    every node carries a pagerank, a betweenness, both degrees, a bridge
    score, a bottleneck score and the bottleneck flag, while identifiers,
    profile counters and relationships are as before. *)
Theorem script_scores_every_node (g : Graph) :
  touches_only profile g (RunAlgorithms.main g) /\
  forall usr, usr ∈ users (RunAlgorithms.main g) -> fully_scored usr.
Proof.
  split; [apply main_touches|]. intros usr Husr.
  eapply scored_after_betweenness; [|exact Husr].
  apply ranked_after_communities.
Qed.

(** ** The two PageRank paths of the endpoint *)

Lemma gds_scores_untouched (scores : list (nat * Q)) (us : list User) (u : nat) :
  u ∉ fst <$> scores ->
  foldl (fun acc row => alter (set_pagerank (Some row.2)) row.1 acc) us scores !! u
  = us !! u.
Proof.
  revert us. induction scores as [|row scores IH]; intros us Hout; [done|].
  cbn [foldl]. apply not_elem_of_cons in Hout as [Hne Hout].
  rewrite IH by done. by rewrite list_lookup_alter_ne.
Qed.

Lemma gds_scores_written (scores : list (nat * Q)) (us : list User) (u : nat) (s : Q)
    (usr : User) :
  NoDup (fst <$> scores) -> (u, s) ∈ scores -> us !! u = Some usr ->
  foldl (fun acc row => alter (set_pagerank (Some row.2)) row.1 acc) us scores !! u
  = Some (set_pagerank (Some s) usr).
Proof.
  revert us usr. induction scores as [|row scores IH]; intros us usr Hnd Hin Hu;
    [by apply not_elem_of_nil in Hin|].
  cbn [foldl]. apply NoDup_cons in Hnd as [Hrow Hnd].
  apply elem_of_cons in Hin as [<-|Hin].
  - rewrite gds_scores_untouched by done. cbn. by rewrite list_lookup_alter_eq, Hu.
  - assert (Hne : row.1 <> u).
    { intros <-. apply Hrow, list_elem_of_fmap. by exists (row.1, s). }
    apply IH; [done|done|]. by rewrite list_lookup_alter_ne.
Qed.

(** On a server that answers, the PageRank stage takes the library's scores
    when the library call succeeds: it reports one processed node per
    yielded row, writes each yielded score on its node and touches no other
    node.  It runs the fallback query when, and only when, the library call
    fails, and reports "completed" without a trace of that failure. *)
Theorem pagerank_prefers_library (db : Neo4j) (wp : bool) :
  available db = true ->
  (forall scores,
     gds_pageRank_stream db (graph db) = Ok scores ->
     exists g' d,
       Algorithms._run_pagerank wp db = (with_graph db g', Ok d) /\
       Algorithms.d_nodes_processed d = Some (Z.of_nat (length scores)) /\
       (forall u, u ∉ fst <$> scores -> users g' !! u = users (graph db) !! u) /\
       (NoDup (fst <$> scores) ->
        forall u s usr, (u, s) ∈ scores -> users (graph db) !! u = Some usr ->
                        users g' !! u = Some (set_pagerank (Some s) usr))) /\
  (forall e,
     gds_pageRank_stream db (graph db) = Raise e ->
     exists g' rows d,
       Algorithms.pagerank_fallback_query (graph db) = Ok (g', rows) /\
       Algorithms._run_pagerank wp db = (with_graph db g', Ok d) /\
       Algorithms.d_message d = Some "PageRank scores calculated and stored").
Proof.
  intros Hav. split.
  - intros scores Hs. unfold Algorithms._run_pagerank.
    cbv beta delta [mbind py_bind py_try Neo4jService.execute_query].
    rewrite Hav. unfold Algorithms.gds_pagerank_query. rewrite Hs.
    cbn [mbind result_bind]. cbv beta iota.
    eexists _, _. split; [reflexivity|]. cbn [Algorithms.d_nodes_processed
      Algorithms.nodesProcessed users]. split; [done|]. split.
    + intros u Hu. by apply gds_scores_untouched.
    + intros Hnd u s usr Hin Hu. by apply gds_scores_written.
  - intros e He. unfold Algorithms._run_pagerank.
    cbv beta delta [mbind py_bind py_try Neo4jService.execute_query].
    rewrite Hav. unfold Algorithms.gds_pagerank_query at 1. rewrite He.
    cbn [mbind result_bind]. cbv beta iota. rewrite Hav.
    unfold Algorithms.pagerank_fallback_query. cbv beta iota zeta.
    eexists _, _, _. split; [reflexivity|].
    split; reflexivity.
Qed.

(** ** What the stages report as processed *)

Lemma count_users_of_column (P : User -> bool) (g g' : Graph) :
  P <$> users g' = P <$> users g -> count_users P g' = count_users P g.
Proof.
  unfold count_users. intros Hc. f_equal.
  revert Hc. generalize (users g). generalize (users g'). clear.
  induction l as [|x l IH]; intros [|y k] Hc; try done.
  injection Hc as Hxy Hc. rewrite !filter_cons. rewrite Hxy.
  destruct (decide (P y = true)); cbn; by rewrite (IH k).
Qed.

Lemma distinct_groups `{EqDecision A} (keys : list (option A)) :
  Cypher.count_distinct (fst <$> Cypher.group_count keys)
  = Z.of_nat (length (remove_dups (Cypher.non_null keys))).
Proof.
  unfold Cypher.count_distinct, Cypher.group_count. f_equal.
  rewrite <- list_fmap_compose.
  assert (Hid : (fst ∘ (fun k : option A =>
                   (k, Z.of_nat (length (filter (k =.) keys))))) <$> remove_dups keys
                = remove_dups keys).
  { etrans; [|apply list_fmap_id]. by apply list_fmap_ext. }
  rewrite Hid. apply Permutation_length, NoDup_Permutation; try apply NoDup_remove_dups.
  intros x. by rewrite !elem_of_remove_dups, !elem_of_non_null, elem_of_remove_dups.
Qed.

(** On a server that answers, the community stage reports as
    [nodes_processed] the number of distinct community labels it leaves,
    which is at most the number of nodes, and the bottleneck stage reports
    the number of nodes that carry both a pagerank and a betweenness, of
    which the reported bottlenecks are a part. *)
Theorem stages_report_counts (db : Neo4j) (wp : bool) :
  available db = true ->
  (exists g' d,
     Algorithms._run_louvain wp db = (with_graph db g', Ok d) /\
     Algorithms.d_nodes_processed d = Some (distinct_values community_id g') /\
     (distinct_values community_id g' <= Z.of_nat (length (users (graph db))))%Z) /\
  (exists g' row d,
     Algorithms.bottleneck_query (graph db) = Ok (g', [row]) /\
     Algorithms._run_bottleneck_score wp db = (with_graph db g', Ok d) /\
     Algorithms.d_nodes_processed d = Some (count_users has_dependencies (graph db)) /\
     (0 <= Algorithms.bottleneckCount row <= count_users has_dependencies (graph db))%Z).
Proof.
  intros Hav. split.
  - unfold Algorithms._run_louvain.
    cbv beta delta [mbind py_bind Neo4jService.execute_query]. rewrite Hav.
    unfold Algorithms.louvain_query. cbv beta iota zeta.
    eexists _, _. split; [reflexivity|]. cbn [Algorithms.d_nodes_processed
      Algorithms.communitiesFound]. rewrite distinct_groups. split; [done|].
    unfold distinct_values. apply Nat2Z.inj_le.
    etrans; [apply length_remove_dups|]. etrans; [apply length_non_null|].
    rewrite length_fmap.
    erewrite (length_of_touches erase_community (graph db)); [done|].
    eapply touches_only_trans; [apply init_communities_touches|apply propagate_touches].
  - unfold Algorithms._run_bottleneck_score.
    cbv beta delta [mbind py_bind Neo4jService.execute_query]. rewrite Hav.
    unfold Algorithms.bottleneck_query. cbv beta iota zeta.
    eexists _, _, _. split; [reflexivity|]. split; [reflexivity|].
    cbn [Algorithms.d_nodes_processed Algorithms.bn_nodesProcessed Algorithms.bottleneckCount].
    unfold Cypher.count. rewrite non_null_Some.
    set (g' := Cypher.set_nodes (Algorithms.score_user (graph db)) (graph db)).
    assert (Hcount : Z.of_nat (length (filter (fun usr => has_dependencies usr = true) (users g')))
                     = count_users has_dependencies (graph db)).
    { apply (count_users_of_column has_dependencies (graph db) g').
      apply (column_of_touches erase_scores has_dependencies); [done|].
      apply touches_only_set_nodes, score_user_erase. }
    split; [by rewrite Hcount|]. rewrite <- Hcount.
    split; [lia|]. apply Nat2Z.inj_le, length_filter.
Qed.

(** ** The listings *)

Lemma take_sort_split {A} (R : relation A) `{!RelDecision R, !Transitive R, !Total R}
    (n : nat) (l : list A) :
  take n (merge_sort R l) ++ drop n (merge_sort R l) ≡ₚ l /\
  forall a b, a ∈ take n (merge_sort R l) -> b ∈ drop n (merge_sort R l) -> R a b.
Proof.
  split.
  - rewrite take_drop. apply merge_sort_Permutation.
  - intros a b Ha Hb.
    eapply (StronglySorted_app_1_elem_of R (take n (merge_sort R l))
              (drop n (merge_sort R l))); [|done|done].
    rewrite take_drop. by apply StronglySorted_merge_sort.
Qed.

Lemma with_graph_same (db : Neo4j) : with_graph db (graph db) = db.
Proof. by destruct db. Qed.

Lemma length_take_min {A} (limit : Z) (l : list A) :
  (0 <= limit)%Z ->
  Z.of_nat (length (take (Z.to_nat limit) l)) = Z.min limit (Z.of_nat (length l)).
Proof. intros Hl. rewrite length_take. lia. Qed.

Lemma top_bottlenecks_cases (limit : Z) (db db' : Neo4j) (r : Result (list User)) :
  Neo4jService.get_top_bottlenecks limit db = (db', r) ->
  db' = db /\
  ((available db = true /\ (0 <= limit)%Z /\
    r = Ok (take (Z.to_nat limit)
              (merge_sort Neo4jService.score_desc
                 (filter (fun u => is_Some (bottleneck_score u)) (users (graph db)))))) \/
   (exists e, r = Raise e /\ (available db = false \/ (limit < 0)%Z))).
Proof.
  unfold Neo4jService.get_top_bottlenecks.
  cbv beta delta [mbind py_bind mret py_ret Neo4jService.execute_query].
  destruct (available db) eqn:Hav.
  - unfold Neo4jService.top_bottlenecks_query, Neo4jService.limit_rows.
    destruct (Z.ltb_spec limit 0); cbn.
    + intros [= <- <-]. split; [done|]. right. eexists. split; [done|]. by right.
    + intros [= <- <-]. split; [apply with_graph_same|]. by left.
  - intros [= <- <-]. split; [done|]. right. eexists. split; [done|]. by left.
Qed.

(** The top-bottlenecks query never changes the stored graph, and it fails
    only on a server that does not answer or for a negative limit.  What
    it returns are the highest-scored nodes: together with some rest they
    are exactly the scored nodes of the graph, none of the rest has a
    higher score than a returned node, and nothing is left out while the
    limit is not reached. *)
Theorem top_bottlenecks_are_highest (limit : Z) (db : Neo4j) :
  (forall db' e,
     Neo4jService.get_top_bottlenecks limit db = (db', Raise e) ->
     db' = db /\ (available db = false \/ (limit < 0)%Z)) /\
  (forall db' rows,
     Neo4jService.get_top_bottlenecks limit db = (db', Ok rows) ->
     db' = db /\
     Z.of_nat (length rows)
     = Z.min limit (count_users (fun u => bool_decide (scored u)) (graph db)) /\
     exists rest,
       rows ++ rest ≡ₚ filter scored (users (graph db)) /\
       forall a b, a ∈ rows -> b ∈ rest -> score_ge a b).
Proof.
  split.
  - intros db' e [-> Hc]%top_bottlenecks_cases. split; [done|].
    destruct Hc as [(_ & _ & [=])|(e' & _ & Hc)]; done.
  - intros db' rows [-> Hc]%top_bottlenecks_cases. split; [done|].
    destruct Hc as [(_ & Hl & [= ->])|(e' & [=] & _)].
    set (matched := filter _ (users (graph db))).
    destruct (take_sort_split Neo4jService.score_desc (Z.to_nat limit) matched)
      as [Hperm Hord].
    split.
    + rewrite length_take_min by done. f_equal. unfold count_users.
      rewrite (Permutation_length (merge_sort_Permutation _ _)). f_equal. f_equal.
      apply list_filter_iff. intros usr. by rewrite bool_decide_eq_true.
    + exists (drop (Z.to_nat limit) (merge_sort Neo4jService.score_desc matched)).
      split; [exact Hperm|]. intros a b Ha Hb.
      assert (Hsc : forall x, x ∈ merge_sort Neo4jService.score_desc matched -> scored x).
      { intros x Hx. rewrite merge_sort_Permutation in Hx.
        by apply list_elem_of_filter in Hx as [Hx _]. }
      destruct (Hsc a) as [sa Hsa].
      { eapply elem_of_sublist; [exact Ha|]. apply sublist_take. }
      destruct (Hsc b) as [sb Hsb].
      { eapply elem_of_sublist; [exact Hb|]. apply sublist_drop. }
      exists sa, sb. split; [done|]. split; [done|].
      specialize (Hord a b Ha Hb). unfold Neo4jService.score_desc in Hord.
      by rewrite Hsa, Hsb in Hord.
Qed.

Lemma ge_spec (a b : Q) : Cypher.ge a b = true <-> b <= a.
Proof. unfold Cypher.ge. apply Qle_bool_iff. Qed.

Lemma in_bounds_spec (limit : Z) (min_score : Q) :
  in_bounds limit min_score <->
  (limit <? 1)%Z || (100 <? limit)%Z
  || negb (Cypher.ge min_score 0.0) || negb (Cypher.ge 1.0 min_score) = false.
Proof.
  unfold in_bounds. rewrite !orb_false_iff, !negb_false_iff, !ge_spec,
    !Z.ltb_ge. split; [intros ([??] & ? & ?)|intros [[[??] ?] ?]]; repeat split; try done.
  all: try lra.
Qed.

Lemma selected_spec (min_score : Q) (community : option string) (usr : User) :
  Bottlenecks.selected min_score community usr = true <->
  exists s, bottleneck_score usr = Some s /\ min_score <= s /\
            forall c, community = Some c -> community_id usr = Some c.
Proof.
  unfold Bottlenecks.selected. destruct (bottleneck_score usr) as [s|].
  - rewrite andb_true_iff, ge_spec. split.
    + intros [Hs Hc]. exists s. split; [done|]. split; [done|].
      intros c ->. by apply bool_decide_eq_true in Hc.
    + intros (s' & [= <-] & Hs & Hc). split; [done|].
      destruct community as [c|]; [|done]. apply bool_decide_eq_true. by apply Hc.
  - split; [done|]. by intros (s & [=] & _).
Qed.

Lemma get_bottlenecks_cases (limit : Z) (min_score : Q) (community : option string)
    (db db' : Neo4j) (r : Result Bottlenecks.Listing) :
  Bottlenecks.get_bottlenecks limit min_score community db = (db', r) ->
  db' = db /\
  ((~ in_bounds limit min_score /\
    r = Raise (RequestValidationError "Input should be within the declared bounds")) \/
   (in_bounds limit min_score /\ available db = false /\
    r = Raise (ServiceUnavailable "Unable to connect to the database")) \/
   (in_bounds limit min_score /\ available db = true /\
    exists rows,
      Bottlenecks.bottlenecks_query limit min_score community (graph db)
      = Ok (graph db, rows) /\
      rows = take (Z.to_nat limit)
               (merge_sort Bottlenecks.row_desc
                  ((fun r => Bottlenecks.mkRow r.2 (Bottlenecks.connectedCommunities (graph db) r.1)
                               (Bottlenecks.influenceRadius (graph db) r.1))
                     <$> filter (fun r => Bottlenecks.selected min_score community r.2 = true)
                           (imap (fun u usr => (u, usr)) (users (graph db))))) /\
      r = Ok (Bottlenecks.mkListing (Bottlenecks.entry <$> rows)
                (Z.of_nat (length rows))))).
Proof.
  unfold Bottlenecks.get_bottlenecks.
  destruct (_ || _) eqn:Hb.
  - intros [= <- <-]. split; [done|]. left. split; [|done].
    rewrite in_bounds_spec. by rewrite Hb.
  - apply in_bounds_spec in Hb.
    cbv beta delta [mbind py_bind mret py_ret Neo4jService.execute_query].
    destruct (available db) eqn:Hav.
    + unfold Bottlenecks.bottlenecks_query.
      rewrite limit_rows_nonneg by (destruct Hb as [[??] _]; lia).
      cbn [mbind result_bind]. cbv beta iota.
      intros [= <- <-]. split; [apply with_graph_same|]. right. right.
      split; [done|]. split; [done|]. eexists. split; [reflexivity|]. done.
    + intros [= <- <-]. split; [done|]. right. left. done.
Qed.

(** The listing endpoint never changes the stored graph.  It rejects a
    request outside the declared bounds before it asks the server (so also
    when the server does not answer); within the bounds it fails only when
    the server does not answer.  Each entry it returns is a node of the
    graph whose score is set and at least [min_score] and, when a community
    is asked for, carries that community; the entry's [bottleneck_score]
    is the node's, [total] is the number of entries, and nothing is left
    out while the limit is not reached. *)
Theorem bottleneck_listing_filters (limit : Z) (min_score : Q)
    (community : option string) (db : Neo4j) :
  (forall db' e,
     Bottlenecks.get_bottlenecks limit min_score community db = (db', Raise e) ->
     db' = db /\
     ((~ in_bounds limit min_score /\ exists d, e = RequestValidationError d) \/
      (in_bounds limit min_score /\ available db = false))) /\
  (forall db' listing,
     Bottlenecks.get_bottlenecks limit min_score community db = (db', Ok listing) ->
     db' = db /\ in_bounds limit min_score /\
     Bottlenecks.total listing = Z.of_nat (length (Bottlenecks.bottlenecks listing)) /\
     Bottlenecks.total listing
     = Z.min limit (count_users (Bottlenecks.selected min_score community) (graph db)) /\
     forall e, e ∈ Bottlenecks.bottlenecks listing ->
       Bottlenecks.user e ∈ users (graph db) /\
       (exists s, bottleneck_score (Bottlenecks.user e) = Some s /\
                  Bottlenecks.e_bottleneck_score e = s /\ min_score <= s) /\
       (forall c, community = Some c -> community_id (Bottlenecks.user e) = Some c)).
Proof.
  split.
  - intros db' e [-> Hc]%get_bottlenecks_cases. split; [done|].
    destruct Hc as [[Hb [= ->]]|[(Hb & Hav & _)|(_ & _ & rows & _ & _ & [=])]].
    + left. split; [done|]. by eexists.
    + by right.
  - intros db' listing [-> Hc]%get_bottlenecks_cases. split; [done|].
    destruct Hc as [[_ [=]]|[(_ & _ & [=])|(Hb & _ & rows & _ & Hrows & [= ->])]].
    split; [done|]. cbn [Bottlenecks.total Bottlenecks.bottlenecks].
    rewrite length_fmap. split; [done|]. split.
    + rewrite Hrows, length_take_min by (destruct Hb as [[??] _]; lia). f_equal.
      rewrite (Permutation_length (merge_sort_Permutation _ _)), length_fmap.
      unfold count_users. f_equal.
      exact (length_filter_imap
               (fun usr => Bottlenecks.selected min_score community usr = true)
               (users (graph db)) (fun k => k)).
    + intros e (r & -> & Hr)%list_elem_of_fmap. rewrite Hrows in Hr.
      assert (Hr' : r ∈ merge_sort Bottlenecks.row_desc
                ((fun r => Bottlenecks.mkRow r.2 (Bottlenecks.connectedCommunities (graph db) r.1)
                               (Bottlenecks.influenceRadius (graph db) r.1))
                     <$> filter (fun r => Bottlenecks.selected min_score community r.2 = true)
                           (imap (fun u usr => (u, usr)) (users (graph db))))).
      { eapply elem_of_sublist; [exact Hr|]. apply sublist_take. }
      rewrite merge_sort_Permutation in Hr'.
      apply list_elem_of_fmap in Hr' as ([u usr] & -> & [Hsel Hu]%list_elem_of_filter).
      apply elem_of_lookup_imap in Hu as (i & usr' & [= -> ->] & Hu).
      cbn [Bottlenecks.entry Bottlenecks.user Bottlenecks.bottleneck
             Bottlenecks.e_bottleneck_score fst snd] in *.
      apply selected_spec in Hsel as (s & Hs & Hms & Hc).
      split; [by eapply list_elem_of_lookup_2|]. split; [|done].
      exists s. rewrite Hs. done.
Qed.

(** ** Graph statistics *)

Lemma non_null_filter_is_Some {A B} (f : A -> option B) (l : list A) :
  Cypher.non_null (f <$> filter (fun x => is_Some (f x)) l) = Cypher.non_null (f <$> l).
Proof.
  unfold Cypher.non_null. induction l as [|x l IH]; [done|].
  rewrite filter_cons. destruct (decide (is_Some (f x))) as [[y Hy]|Hn].
  - cbn. rewrite Hy. cbn. by rewrite IH.
  - cbn. destruct (f x) as [y|] eqn:Hy; [by destruct Hn|]. by rewrite IH.
Qed.

Lemma length_filter_flagged (l : list User) :
  length (filter (fun b : option bool => b = Some true) (is_bottleneck <$> l))
  = length (filter (fun usr => bool_decide (is_bottleneck usr = Some true) = true) l).
Proof.
  induction l as [|usr l IH]; [done|]. rewrite fmap_cons, !filter_cons.
  destruct (decide (is_bottleneck usr = Some true)) as [Hf|Hf].
  - rewrite decide_True by (by apply bool_decide_eq_true). cbn. by rewrite IH.
  - rewrite decide_False by (by rewrite bool_decide_eq_true). done.
Qed.

Lemma get_graph_stats_available (db : Neo4j) :
  available db = true ->
  GraphStats.get_graph_stats db = (db, Ok (counted (graph db))).
Proof.
  intros Hav. unfold GraphStats.get_graph_stats.
  cbv beta delta [py_try mbind py_bind mret py_ret Neo4jService.execute_query
                    GraphStats.user_count_query GraphStats.follows_count_query
                    GraphStats.community_count_query GraphStats.bottleneck_count_query].
  rewrite Hav. cbv beta iota zeta. rewrite with_graph_same, Hav. cbv beta iota.
  rewrite with_graph_same, Hav. cbv beta iota. rewrite with_graph_same, Hav.
  cbv beta iota. rewrite with_graph_same. f_equal. f_equal.
  unfold counted, GraphStats.cnt. f_equal.
  - unfold Cypher.count, Cypher.handles. by rewrite non_null_Some, length_seq.
  - unfold Cypher.count, Cypher.rels.
    by rewrite non_null_Some, length_fmap, length_imap.
  - unfold Cypher.count_distinct, distinct_values. by rewrite non_null_filter_is_Some.
  - unfold Cypher.count, count_users. rewrite non_null_Some, length_fmap. f_equal.
    assert (Himap : imap (fun u usr => (u, is_bottleneck usr)) (users (graph db))
                    = imap (fun k e => (k, e)) (is_bottleneck <$> users (graph db))).
    { apply list_eq. intros i.
      rewrite !list_lookup_imap, list_lookup_fmap. by destruct (users (graph db) !! i). }
    rewrite Himap.
    etrans; [exact (length_filter_imap (fun b : option bool => b = Some true)
                      (is_bottleneck <$> users (graph db)) (fun k => k))|].
    apply length_filter_flagged.
Qed.

Lemma get_graph_stats_unavailable (db : Neo4j) :
  available db = false ->
  GraphStats.get_graph_stats db = (db, Ok (GraphStats.mkStats 0 0 0 0 None)).
Proof.
  intros Hav. unfold GraphStats.get_graph_stats.
  cbv beta delta [py_try mbind py_bind mret py_ret Neo4jService.execute_query].
  by rewrite Hav.
Qed.

(** The statistics call never raises and never changes the stored graph.
    On a server that answers it reports the number of nodes, the number of
    relationships, the number of distinct community labels and the number
    of nodes flagged as bottleneck, the last two being at most the number
    of nodes; on a server that does not answer it reports zeros and no
    [tweet_count]. *)
Theorem graph_stats_counts (db : Neo4j) :
  exists stats,
    GraphStats.get_graph_stats db = (db, Ok stats) /\
    (available db = true ->
     stats = counted (graph db) /\
     (0 <= GraphStats.community_count stats <= GraphStats.user_count stats)%Z /\
     (0 <= GraphStats.bottleneck_count stats <= GraphStats.user_count stats)%Z) /\
    (available db = false -> stats = GraphStats.mkStats 0 0 0 0 None).
Proof.
  destruct (available db) eqn:Hav.
  - exists (counted (graph db)). split; [by apply get_graph_stats_available|].
    split; [|done]. intros _. split; [done|]. cbn. split.
    + split; [unfold distinct_values; lia|].
      unfold distinct_values. apply Nat2Z.inj_le.
      etrans; [apply length_remove_dups|]. etrans; [apply length_non_null|].
      by rewrite length_fmap.
    + split; [unfold count_users; lia|].
      unfold count_users. apply Nat2Z.inj_le, length_filter.
  - eexists. split; [by apply get_graph_stats_unavailable|]. split; done.
Qed.

Lemma execute_query_server {A} (query : Graph -> Result (Graph * list A)) :
  keeps_server (Neo4jService.execute_query query).
Proof.
  intros db.
  by destruct (execute_query_cases query db) as [(g' & rows & Hg & _ & ->) | (e & ->)].
Qed.

Lemma bind_server {A B} (c : Py A) (k : A -> Py B) :
  keeps_server c -> (forall a, keeps_server (k a)) -> keeps_server (c ≫= k).
Proof.
  intros Hc Hk db. unfold mbind, py_bind. specialize (Hc db).
  destruct (c db) as [db' [a|e]]; cbn in *; [|done]. by rewrite Hk.
Qed.

Lemma try_server {A} (c : Py A) (h : Exn -> Py A) :
  keeps_server c -> (forall e, keeps_server (h e)) -> keeps_server (py_try c h).
Proof.
  intros Hc Hh db. unfold py_try. specialize (Hc db).
  destruct (c db) as [db' [a|e]]; cbn in *; [done|]. by rewrite Hh.
Qed.

Lemma ret_server {A} (a : A) : keeps_server (mret a).
Proof. by intros db. Qed.

Lemma raise_server {A} (e : Exn) : keeps_server (@py_raise A e).
Proof. by intros db. Qed.

Lemma stage_server {A B} (query : Graph -> Result (Graph * list A))
    (k : list A -> Py B) :
  (forall rows, keeps_server (k rows)) ->
  keeps_server (Neo4jService.execute_query query ≫= k).
Proof. intros Hk. apply bind_server; [apply execute_query_server|exact Hk]. Qed.

Lemma dispatch_server name wp ss : keeps_server (dispatch name wp ss).
Proof.
  unfold dispatch. repeat case_bool_decide; try apply raise_server.
  - unfold Algorithms._run_pagerank. apply bind_server.
    + apply try_server; [|intros e; apply execute_query_server].
      intros db. apply (execute_query_server _ db).
    + intros rows. destruct rows; apply ret_server.
  - apply stage_server. intros rows. destruct rows; apply ret_server.
  - apply stage_server. intros rows. destruct rows; apply ret_server.
  - apply stage_server. intros rows. destruct rows; apply ret_server.
  - apply stage_server. intros rows. destruct rows; apply ret_server.
Qed.

Lemma run_algorithm_server name wp ss :
  keeps_server (Algorithms.run_algorithm name wp ss).
Proof.
  unfold Algorithms.run_algorithm. destruct (negb _); [apply raise_server|].
  fold (dispatch name wp ss). apply try_server.
  - apply bind_server; [apply dispatch_server|]. intros d. apply ret_server.
  - intros e. apply ret_server.
Qed.

Lemma run_louvain_value (db : Neo4j) (wp : bool) :
  available db = true ->
  exists g' d,
    Algorithms._run_louvain wp db = (with_graph db g', Ok d) /\
    Algorithms.d_nodes_processed d = Some (distinct_values community_id g').
Proof.
  intros Hav. unfold Algorithms._run_louvain.
  cbv beta delta [mbind py_bind Neo4jService.execute_query]. rewrite Hav.
  unfold Algorithms.louvain_query. cbv beta iota zeta.
  eexists _, _. split; [reflexivity|]. cbn [Algorithms.d_nodes_processed
    Algorithms.communitiesFound]. by rewrite distinct_groups.
Qed.

(** A call of the run endpoint, whatever its name and outcome, changes
    neither the number of nodes nor the number of relationships that the
    statistics report; and after a community run that reports
    "completed", the statistics report as [community_count] the run's
    [nodes_processed]. *)
Theorem graph_stats_after_run (name : string) (wp : bool) (ss : option Z)
    (db db' : Neo4j) (r : Result Algorithms.AlgorithmRunResponse)
    (stats stats' : GraphStats.Stats) :
  Algorithms.run_algorithm name wp ss db = (db', r) ->
  GraphStats.get_graph_stats db = (db, Ok stats) ->
  GraphStats.get_graph_stats db' = (db', Ok stats') ->
  GraphStats.user_count stats' = GraphStats.user_count stats /\
  GraphStats.follows_count stats' = GraphStats.follows_count stats /\
  (forall resp, r = Ok resp -> name = "louvain" ->
                Algorithms.status resp = "completed" ->
                GraphStats.community_count stats' = Algorithms.nodes_processed resp).
Proof.
  intros Hrun Hs Hs'.
  pose proof (run_algorithm_server name wp ss db) as Hav. rewrite Hrun in Hav.
  pose proof (run_algorithm_keeps name wp ss db) as [Hf Hu]. rewrite Hrun in Hf, Hu.
  cbn [fst] in Hav, Hf, Hu.
  destruct (available db) eqn:Hdb.
  - rewrite get_graph_stats_available in Hs by done.
    rewrite get_graph_stats_available in Hs' by done.
    injection Hs as <-. injection Hs' as <-. cbn. split; [|split].
    + f_equal. by rewrite <- (length_fmap profile), Hu, length_fmap.
    + by rewrite Hf.
    + intros resp -> -> Hst. revert Hrun. unfold Algorithms.run_algorithm.
      rewrite bool_decide_true by (vm_compute; set_solver). cbn [negb].
      fold (dispatch "louvain" wp ss).
      change (dispatch "louvain" wp ss) with (Algorithms._run_louvain wp).
      cbv beta delta [py_try mbind py_bind mret py_ret].
      destruct (run_louvain_value db wp Hdb) as (g' & d & -> & Hd).
      intros [= <- <-]. cbn. by rewrite Hd.
  - rewrite get_graph_stats_unavailable in Hs by done.
    rewrite get_graph_stats_unavailable in Hs' by done.
    injection Hs as <-. injection Hs' as <-. cbn. split; [done|]. split; [done|].
    intros resp -> -> Hst. revert Hrun. unfold Algorithms.run_algorithm.
    rewrite bool_decide_true by (vm_compute; set_solver). cbn [negb].
    fold (dispatch "louvain" wp ss).
    change (dispatch "louvain" wp ss) with (Algorithms._run_louvain wp).
    unfold Algorithms._run_louvain.
    cbv beta delta [py_try mbind py_bind mret py_ret Neo4jService.execute_query].
    rewrite Hdb. intros [= <- <-]. done.
Qed.

(** ** Community bridges *)

#[local] Instance score_before_trans : Transitive Bridges.score_before.
Proof.
  intros [x|] [y|] [z|]; unfold Bridges.score_before; try done.
  intros Hxy Hyz. by eapply Qle_trans.
Qed.

#[local] Instance score_before_total : Total Bridges.score_before.
Proof.
  intros [x|] [y|]; unfold Bridges.score_before; try (by left); try (by right).
  destruct (Qlt_le_dec x y) as [H|H]; [right; by apply Qlt_le_weak|by left].
Qed.

#[local] Instance bridge_desc_trans : Transitive Bridges.bridge_desc.
Proof.
  intros a b c [Hab|[Hab Sab]] [Hbc|[Hbc Sbc]]; unfold Bridges.bridge_desc.
  - left. lia.
  - left. lia.
  - left. lia.
  - right. split; [lia|]. by etrans.
Qed.

#[local] Instance bridge_desc_total : Total Bridges.bridge_desc.
Proof.
  intros a b. unfold Bridges.bridge_desc.
  destruct (Z.lt_trichotomy (Bridges.bridge_count a) (Bridges.bridge_count b))
    as [Hlt|[Heq|Hgt]].
  - right. by left.
  - destruct (total Bridges.score_before (bottleneck_score (Bridges.bridge a))
                (bottleneck_score (Bridges.bridge b))) as [H|H].
    + left. right. by split.
    + right. right. by split.
  - left. by left.
Qed.

Lemma bridge_desc_count (a b : Bridges.Bridge) :
  Bridges.bridge_desc a b -> (Bridges.bridge_count b <= Bridges.bridge_count a)%Z.
Proof. intros [H|[H _]]; lia. Qed.

Lemma StronglySorted_weaken {A} (R S : relation A) (l : list A) :
  (forall a b, R a b -> S a b) -> StronglySorted R l -> StronglySorted S l.
Proof.
  intros HRS. induction 1 as [|a l Hl IH Ha]; constructor; [done|].
  eapply Forall_impl; [exact Ha|]. intros b. apply HRS.
Qed.

Lemma bridged_list_count (g : Graph) (u : nat) (usr : User) :
  Bridges.size (Bridges.bridgedCommunities g u usr) = bridgedCommunities g u usr.
Proof.
  unfold Bridges.size, Bridges.bridgedCommunities, bridgedCommunities, Bridges.matched,
    Cypher.count_distinct.
  destruct (filter _ (Cypher.neighbors g u)) as [|v l]; [done|]. done.
Qed.

Lemma elem_of_bridged (g : Graph) (u : nat) (usr : User) (c : string) :
  c ∈ Bridges.bridgedCommunities g u usr ->
  community_id usr <> Some c /\
  exists v, v ∈ Cypher.neighbors g u /\ Cypher.prop g community_id (Some v) = Some c.
Proof.
  unfold Bridges.bridgedCommunities, Bridges.matched.
  rewrite elem_of_remove_dups, elem_of_non_null.
  intros (o & Ho & (v & -> & [Hf Hv]%list_elem_of_filter)%list_elem_of_fmap)%list_elem_of_fmap.
  split; [|by exists v]. unfold foreign_community in Hf. rewrite <- Ho in Hf.
  destruct (community_id usr) as [c'|]; [|done].
  apply negb_true_iff, bool_decide_eq_false in Hf. congruence.
Qed.

Lemma community_bridges_cases (limit : Z) (db db' : Neo4j) (r : Result Bridges.Listing) :
  Bridges.get_community_bridges limit db = (db', r) ->
  db' = db /\
  ((exists e, r = Raise e /\ (~ (1 <= limit <= 100)%Z \/ available db = false)) \/
   ((1 <= limit <= 100)%Z /\
    exists kept,
      kept = filter (fun r => (2 <= Bridges.size r.2)%Z)
               ((fun r => (r.2, Bridges.bridgedCommunities (graph db) r.1 r.2))
                  <$> filter (fun r => Bridges.matched (graph db) r.1 r.2 ≠ [])
                        (imap (fun u usr => (u, usr)) (users (graph db)))) /\
      r = Ok (Bridges.mkListing
                (take (Z.to_nat limit)
                   (merge_sort Bridges.bridge_desc
                      ((fun r => Bridges.mkBridge r.1 r.2 (Bridges.size r.2)) <$> kept)))
                (Z.of_nat (length
                   (take (Z.to_nat limit)
                      (merge_sort Bridges.bridge_desc
                         ((fun r => Bridges.mkBridge r.1 r.2 (Bridges.size r.2))
                            <$> kept)))))))).
Proof.
  unfold Bridges.get_community_bridges.
  destruct (_ || _) eqn:Hb.
  - intros [= <- <-]. split; [done|]. left. eexists. split; [done|]. left.
    apply orb_true_iff in Hb as [Hb|Hb]; apply Z.ltb_lt in Hb; lia.
  - apply orb_false_iff in Hb as [H1 H2]. apply Z.ltb_ge in H1, H2.
    cbv beta delta [mbind py_bind mret py_ret Neo4jService.execute_query].
    destruct (available db) eqn:Hav.
    + unfold Bridges.bridges_query. rewrite limit_rows_nonneg by lia.
      cbn [mbind result_bind]. cbv beta iota zeta.
      intros [= <- <-]. split; [apply with_graph_same|]. right.
      split; [lia|]. eexists. split; [reflexivity|]. done.
    + intros [= <- <-]. split; [done|]. left. eexists. split; [done|]. by right.
Qed.

(** The bridges endpoint never changes the stored graph, and fails only
    for a limit outside 1..100 or on a server that does not answer.  It
    returns at most [limit] entries, [total] of them, by non-increasing
    [bridge_count].  Each entry is a node of the graph; its [bridge_count]
    is the number of its [bridged_communities], is at least 2 and is the
    number of bridged communities that the bottleneck stage counts for that
    node; the listed communities are pairwise distinct, none is the node's
    own and each is the label of one of its neighbours. *)
Theorem community_bridges_listing (limit : Z) (db : Neo4j) :
  (forall db' e,
     Bridges.get_community_bridges limit db = (db', Raise e) ->
     db' = db /\ (~ (1 <= limit <= 100)%Z \/ available db = false)) /\
  (forall db' listing,
     Bridges.get_community_bridges limit db = (db', Ok listing) ->
     db' = db /\
     Bridges.total listing = Z.of_nat (length (Bridges.bridges listing)) /\
     (Bridges.total listing <= limit)%Z /\
     StronglySorted (fun a b => (Bridges.bridge_count b <= Bridges.bridge_count a)%Z)
       (Bridges.bridges listing) /\
     forall b, b ∈ Bridges.bridges listing ->
       (2 <= Bridges.bridge_count b)%Z /\
       Bridges.bridge_count b = Z.of_nat (length (Bridges.bridged_communities b)) /\
       NoDup (Bridges.bridged_communities b) /\
       exists u,
         users (graph db) !! u = Some (Bridges.bridge b) /\
         Bridges.bridge_count b = bridgedCommunities (graph db) u (Bridges.bridge b) /\
         forall c, c ∈ Bridges.bridged_communities b ->
           community_id (Bridges.bridge b) <> Some c /\
           exists v, v ∈ Cypher.neighbors (graph db) u /\
                     Cypher.prop (graph db) community_id (Some v) = Some c).
Proof.
  split.
  - intros db' e [-> Hc]%community_bridges_cases. split; [done|].
    destruct Hc as [(e' & _ & Hc)|(_ & kept & _ & [=])]; done.
  - intros db' listing [-> Hc]%community_bridges_cases. split; [done|].
    destruct Hc as [(e' & [=] & _)|(Hl & kept & Hkept & [= ->])].
    cbn [Bridges.total Bridges.bridges]. split; [done|]. split.
    { rewrite length_take. lia. }
    split.
    { apply StronglySorted_take.
      apply (StronglySorted_weaken Bridges.bridge_desc); [apply bridge_desc_count|].
      apply (StronglySorted_merge_sort Bridges.bridge_desc). }
    intros b Hb.
    assert (Hb' : b ∈ (fun r => Bridges.mkBridge r.1 r.2 (Bridges.size r.2)) <$> kept).
    { rewrite <- (merge_sort_Permutation Bridges.bridge_desc).
      eapply elem_of_sublist; [exact Hb|]. apply sublist_take. }
    apply list_elem_of_fmap in Hb' as ([usr cs] & -> & Hr). rewrite Hkept in Hr.
    apply list_elem_of_filter in Hr as [Hsize Hr].
    apply list_elem_of_fmap in Hr as ([u usr'] & [= -> ->] & [_ Hu]%list_elem_of_filter).
    apply elem_of_lookup_imap in Hu as (i & usr & [= -> ->] & Hu).
    cbn [Bridges.bridge Bridges.bridged_communities Bridges.bridge_count fst snd] in *.
    split; [done|]. split; [done|]. split; [apply NoDup_remove_dups|].
    exists i. split; [done|]. split; [apply bridged_list_count|].
    apply elem_of_bridged.
Qed.

(** ** The further properties at work on the sample graphs *)

Lemma pair_graph_wf : graph_wf pair_graph.
Proof. intros e He. apply list_elem_of_singleton in He as ->. cbn. lia. Qed.

Lemma hub_graph_wf : graph_wf hub_graph.
Proof.
  intros e He. unfold hub_graph, follows in He.
  repeat (apply elem_of_cons in He as [->|He]; [cbn; lia|]).
  by apply not_elem_of_nil in He.
Qed.

Lemma degree_stage_counts_witness :
  users pair_graph !! 1%nat = Some (new_user "user_2" (Some 150%Z)) /\
  exists g' row usr',
    Algorithms.degree_query pair_graph = Ok (g', [row]) /\
    Algorithms.nodesProcessed row = Z.of_nat (length (users pair_graph)) /\
    users g' !! 1%nat = Some usr' /\
    out_degree usr' = Some (edges_from pair_graph 1) /\
    in_degree usr' = Some (edges_to pair_graph 1) /\
    degree_centrality usr'
    = Some (inject_Z (edges_from pair_graph 1 + edges_to pair_graph 1)).
Proof.
  split; [reflexivity|].
  apply (degree_stage_counts pair_graph 1 (new_user "user_2" (Some 150%Z))).
  reflexivity.
Defined.

Lemma script_betweenness_stores_degrees_witness :
  users pair_graph !! 0%nat = Some (new_user "user_1" (Some 300%Z)) /\
  exists usr' g' rows usr'',
    users (RunAlgorithms.run_betweenness pair_graph) !! 0%nat = Some usr' /\
    Algorithms.degree_query pair_graph = Ok (g', rows) /\
    users g' !! 0%nat = Some usr'' /\
    out_degree usr' = Some (edges_from pair_graph 0) /\
    in_degree usr' = Some (edges_to pair_graph 0) /\
    out_degree usr' = out_degree usr'' /\
    in_degree usr' = in_degree usr''.
Proof.
  split; [reflexivity|].
  apply (script_betweenness_stores_degrees pair_graph 0 (new_user "user_1" (Some 300%Z))).
  reflexivity.
Defined.

Lemma degree_stage_handshake_witness :
  graph_wf hub_graph /\
  exists g' rows,
    Algorithms.degree_query hub_graph = Ok (g', rows) /\
    total_of out_degree g' = Z.of_nat (length (follows hub_graph)) /\
    total_of in_degree g' = Z.of_nat (length (follows hub_graph)).
Proof.
  split; [exact hub_graph_wf|]. apply (degree_stage_handshake hub_graph hub_graph_wf).
Defined.

Lemma run_algorithm_reports_witness :
  exists db' resp,
    Algorithms.run_algorithm "degree" true None (server pair_graph) = (db', Ok resp) /\
    (Algorithms.status resp = "failed" ->
     db' = server pair_graph /\ Algorithms.nodes_processed resp = 0%Z /\
     Algorithms.results_summary resp = []) /\
    (Algorithms.status resp = "completed" ->
     Algorithms.message resp = Some (success_message "degree") /\
     Algorithms.results_summary resp <> []).
Proof.
  eexists _, _. split; [vm_compute; reflexivity|].
  apply (run_algorithm_reports "degree" true None (server pair_graph)).
  vm_compute. reflexivity.
Defined.

Lemma run_algorithm_unreachable_witness :
  "pagerank" ∈ fst <$> Algorithms.AVAILABLE_ALGORITHMS /\
  available (mkNeo4j false (fun _ => Ok []) pair_graph) = false /\
  exists msg,
    Algorithms.run_algorithm "pagerank" true None (mkNeo4j false (fun _ => Ok []) pair_graph)
    = (mkNeo4j false (fun _ => Ok []) pair_graph,
       Ok (Algorithms.mkResponse "pagerank" "failed" 0%Z [] (Some msg))).
Proof.
  assert (Hin : "pagerank" ∈ fst <$> Algorithms.AVAILABLE_ALGORITHMS).
  { apply known_algorithm. tauto. }
  split; [exact Hin|]. split; [reflexivity|].
  apply (run_algorithm_unreachable "pagerank" true None
           (mkNeo4j false (fun _ => Ok []) pair_graph) Hin).
  reflexivity.
Defined.

Lemma bridged_communities_range_witness :
  (0 <= bridgedCommunities hub_graph 0 (scored_user "hub" 1 0.25 "c0")
   <= Z.of_nat (length (Cypher.neighbors hub_graph 0)))%Z /\
  (0 < bridgedCommunities hub_graph 0 (scored_user "hub" 1 0.25 "c0"))%Z /\
  exists v c c', v ∈ Cypher.neighbors hub_graph 0 /\
                 Cypher.prop hub_graph community_id (Some v) = Some c /\
                 community_id (scored_user "hub" 1 0.25 "c0") = Some c' /\ c <> c'.
Proof.
  pose proof (bridged_communities_range hub_graph 0 (scored_user "hub" 1 0.25 "c0"))
    as (Hrange & _ & Hpos).
  split; [exact Hrange|].
  assert (H : (0 < bridgedCommunities hub_graph 0 (scored_user "hub" 1 0.25 "c0"))%Z)
    by (by vm_compute).
  split; [exact H|]. exact (Hpos H).
Defined.

Lemma bottleneck_score_range_witness :
  users hub_graph !! 1%nat = Some (scored_user "n1" 0.5 0 "c1") /\
  pagerank (scored_user "n1" 0.5 0 "c1") = Some 0.5 /\
  betweenness_centrality (scored_user "n1" 0.5 0 "c1") = Some 0 /\
  0 <= 0.5 /\ 0 <= 0 /\
  exists g' rows usr' bs sc,
    Algorithms.bottleneck_query hub_graph = Ok (g', rows) /\
    users g' !! 1%nat = Some usr' /\
    bridge_score usr' = Some bs /\
    bottleneck_score usr' = Some sc /\
    bs == inject_Z (bridgedCommunities hub_graph 1 (scored_user "n1" 0.5 0 "c1"))
          / inject_Z 5 /\
    0 <= sc /\ sc <= 0.7 + 0.3 * bs /\
    ((bridgedCommunities hub_graph 1 (scored_user "n1" 0.5 0 "c1") <= 5)%Z -> sc <= 1).
Proof.
  split; [reflexivity|]. split; [reflexivity|]. split; [reflexivity|].
  split; [by vm_compute|]. split; [by vm_compute|].
  apply (bottleneck_score_range hub_graph 1 (scored_user "n1" 0.5 0 "c1") 0.5 0);
    try reflexivity; by vm_compute.
Defined.

Lemma script_and_endpoint_scores_agree_witness :
  users hub_graph !! 0%nat = Some (scored_user "hub" 1 0.25 "c0") /\
  exists g' rows usrE usrS,
    Algorithms.bottleneck_query hub_graph = Ok (g', rows) /\
    users g' !! 0%nat = Some usrE /\
    users (RunAlgorithms.run_bottleneck hub_graph) !! 0%nat = Some usrS /\
    same_float (bridge_score usrE) (bridge_score usrS) /\
    same_float (bottleneck_score usrE) (bottleneck_score usrS) /\
    (is_bottleneck usrE = Some true -> is_bottleneck usrS = Some true).
Proof.
  split; [reflexivity|].
  apply (script_and_endpoint_scores_agree hub_graph 0 (scored_user "hub" 1 0.25 "c0")).
  reflexivity.
Defined.

Lemma betweenness_zero_witness :
  users pair_graph !! 1%nat = Some (new_user "user_2" (Some 150%Z)) /\
  exists g' rows b,
    Algorithms.betweenness_query pair_graph = Ok (g', rows) /\
    Cypher.prop g' betweenness_centrality (Some 1%nat) = Some b /\
    Cypher.prop (RunAlgorithms.run_betweenness pair_graph) betweenness_centrality
      (Some 1%nat) = Some b /\
    (b == 0 <-> edges_from pair_graph 1 = 0%Z \/ edges_to pair_graph 1 = 0%Z).
Proof.
  split; [reflexivity|].
  apply (betweenness_zero pair_graph 1 (new_user "user_2" (Some 150%Z))).
  reflexivity.
Defined.

Lemma propagate_takes_heaviest_witness :
  users hub_graph !! 0%nat = Some (scored_user "hub" 1 0.25 "c0") /\
  exists usr',
    users (propagate hub_graph [(0, 1); (0, 2); (0, 1)]%nat) !! 0%nat = Some usr' /\
    (0%nat ∈ fst <$> [(0, 1); (0, 2); (0, 1)]%nat ->
     match community_id usr' with
     | Some c => (0 < votes hub_graph [(0, 1); (0, 2); (0, 1)]%nat 0 c)%Z /\
                 forall c', (votes hub_graph [(0, 1); (0, 2); (0, 1)]%nat 0 c'
                             <= votes hub_graph [(0, 1); (0, 2); (0, 1)]%nat 0 c)%Z
     | None => forall c, votes hub_graph [(0, 1); (0, 2); (0, 1)]%nat 0 c = 0%Z
     end).
Proof.
  split; [reflexivity|].
  destruct (propagate_takes_heaviest hub_graph [(0, 1); (0, 2); (0, 1)]%nat 0
              (scored_user "hub" 1 0.25 "c0") eq_refl) as (usr' & Hu & _ & Hin).
  exists usr'. split; [exact Hu|exact Hin].
Defined.

Lemma communities_are_user_ids_witness :
  graph_wf pair_graph /\
  (exists g' rows, Algorithms.louvain_query pair_graph = Ok (g', rows) /\
                   labelled_by_ids g') /\
  labelled_by_ids (RunAlgorithms.run_communities pair_graph).
Proof.
  split; [exact pair_graph_wf|]. apply (communities_are_user_ids pair_graph pair_graph_wf).
Defined.

Lemma louvain_endpoint_labels_witness :
  graph_wf pair_graph /\
  users pair_graph !! 0%nat = Some (new_user "user_1" (Some 300%Z)) /\
  exists g' rows usr',
    Algorithms.louvain_query pair_graph = Ok (g', rows) /\
    users g' !! 0%nat = Some usr' /\
    (Cypher.neighbors pair_graph 0 = [] ->
     community_id usr' = Some (id (new_user "user_1" (Some 300%Z)))) /\
    (Cypher.neighbors pair_graph 0 <> [] ->
     exists v vusr, v ∈ Cypher.neighbors pair_graph 0 /\ users pair_graph !! v = Some vusr /\
                    community_id usr' = Some (id vusr)).
Proof.
  split; [exact pair_graph_wf|]. split; [reflexivity|].
  apply (louvain_endpoint_labels pair_graph 0 (new_user "user_1" (Some 300%Z))
           pair_graph_wf).
  reflexivity.
Defined.

Lemma script_scores_every_node_witness :
  exists usr,
    users (RunAlgorithms.main pair_graph) !! 1%nat = Some usr /\ fully_scored usr.
Proof.
  destruct (users (RunAlgorithms.main pair_graph) !! 1%nat) as [usr|] eqn:Hu;
    [|by vm_compute in Hu].
  exists usr. split; [reflexivity|].
  apply (proj2 (script_scores_every_node pair_graph)).
  by eapply list_elem_of_lookup_2.
Defined.

Lemma pagerank_prefers_library_witness :
  available (mkNeo4j true (fun _ => Ok [(1%nat, 0.75)]) pair_graph) = true /\
  gds_pageRank_stream (mkNeo4j true (fun _ => Ok [(1%nat, 0.75)]) pair_graph) pair_graph
  = Ok [(1%nat, 0.75)] /\
  exists g' d,
    Algorithms._run_pagerank true (mkNeo4j true (fun _ => Ok [(1%nat, 0.75)]) pair_graph)
    = (with_graph (mkNeo4j true (fun _ => Ok [(1%nat, 0.75)]) pair_graph) g', Ok d) /\
    Algorithms.d_nodes_processed d = Some 1%Z /\
    users g' !! 0%nat = users pair_graph !! 0%nat /\
    users g' !! 1%nat = Some (set_pagerank (Some 0.75) (new_user "user_2" (Some 150%Z))).
Proof.
  split; [reflexivity|]. split; [reflexivity|].
  destruct (proj1 (pagerank_prefers_library
                     (mkNeo4j true (fun _ => Ok [(1%nat, 0.75)]) pair_graph) true eq_refl)
              [(1%nat, 0.75)] eq_refl) as (g' & d & Hrun & Hn & Hout & Hin).
  exists g', d. split; [exact Hrun|]. split; [exact Hn|]. split.
  - apply Hout. cbn. intros H. apply list_elem_of_singleton in H. discriminate.
  - apply (Hin ltac:(cbn; apply NoDup_singleton) 1%nat 0.75
             (new_user "user_2" (Some 150%Z))); [|reflexivity].
    apply list_elem_of_singleton. reflexivity.
Defined.

Lemma stages_report_counts_witness :
  available (server hub_graph) = true /\
  (exists g' d,
     Algorithms._run_louvain true (server hub_graph)
     = (with_graph (server hub_graph) g', Ok d) /\
     Algorithms.d_nodes_processed d = Some (distinct_values community_id g') /\
     (distinct_values community_id g'
      <= Z.of_nat (length (users (graph (server hub_graph)))))%Z) /\
  (exists g' row d,
     Algorithms.bottleneck_query (graph (server hub_graph)) = Ok (g', [row]) /\
     Algorithms._run_bottleneck_score true (server hub_graph)
     = (with_graph (server hub_graph) g', Ok d) /\
     Algorithms.d_nodes_processed d
     = Some (count_users has_dependencies (graph (server hub_graph))) /\
     (0 <= Algorithms.bottleneckCount row
      <= count_users has_dependencies (graph (server hub_graph)))%Z).
Proof.
  split; [reflexivity|]. apply (stages_report_counts (server hub_graph) true).
  reflexivity.
Defined.

Lemma top_bottlenecks_are_highest_witness :
  exists rows,
    Neo4jService.get_top_bottlenecks 1 (server listed_graph)
    = (server listed_graph, Ok rows) /\
    Z.of_nat (length rows)
    = Z.min 1 (count_users (fun u => bool_decide (scored u)) (graph (server listed_graph))) /\
    exists rest,
      rows ++ rest ≡ₚ filter scored (users (graph (server listed_graph))) /\
      forall a b, a ∈ rows -> b ∈ rest -> score_ge a b.
Proof.
  eexists. split; [vm_compute; reflexivity|].
  refine (proj2 (proj2 (top_bottlenecks_are_highest 1 (server listed_graph))
                   (server listed_graph) _ _)).
  vm_compute. reflexivity.
Defined.

Lemma bottleneck_listing_filters_witness :
  exists listing,
    Bottlenecks.get_bottlenecks 5 0.8 (Some "a") (server listed_graph)
    = (server listed_graph, Ok listing) /\
    in_bounds 5 0.8 /\
    Bottlenecks.total listing = Z.of_nat (length (Bottlenecks.bottlenecks listing)) /\
    Bottlenecks.total listing
    = Z.min 5 (count_users (Bottlenecks.selected 0.8 (Some "a"))
                 (graph (server listed_graph))) /\
    forall e, e ∈ Bottlenecks.bottlenecks listing ->
      Bottlenecks.user e ∈ users (graph (server listed_graph)) /\
      (exists s, bottleneck_score (Bottlenecks.user e) = Some s /\
                 Bottlenecks.e_bottleneck_score e = s /\ 0.8 <= s) /\
      (forall c, Some "a" = Some c -> community_id (Bottlenecks.user e) = Some c).
Proof.
  eexists. split; [vm_compute; reflexivity|].
  refine (proj2 (proj2 (bottleneck_listing_filters 5 0.8 (Some "a") (server listed_graph))
                   (server listed_graph) _ _)).
  vm_compute. reflexivity.
Defined.

Lemma graph_stats_counts_witness :
  available (server listed_graph) = true /\
  exists stats,
    GraphStats.get_graph_stats (server listed_graph) = (server listed_graph, Ok stats) /\
    stats = counted (graph (server listed_graph)) /\
    (0 <= GraphStats.community_count stats <= GraphStats.user_count stats)%Z /\
    (0 <= GraphStats.bottleneck_count stats <= GraphStats.user_count stats)%Z.
Proof.
  split; [reflexivity|].
  destruct (graph_stats_counts (server listed_graph)) as (stats & Hs & Hav & _).
  exists stats. split; [exact Hs|]. exact (Hav eq_refl).
Defined.

Lemma graph_stats_after_run_witness :
  exists db' resp stats stats',
    Algorithms.run_algorithm "louvain" true None (server pair_graph) = (db', Ok resp) /\
    GraphStats.get_graph_stats (server pair_graph) = (server pair_graph, Ok stats) /\
    GraphStats.get_graph_stats db' = (db', Ok stats') /\
    Algorithms.status resp = "completed" /\
    GraphStats.user_count stats' = GraphStats.user_count stats /\
    GraphStats.follows_count stats' = GraphStats.follows_count stats /\
    GraphStats.community_count stats' = Algorithms.nodes_processed resp.
Proof.
  destruct (Algorithms.run_algorithm "louvain" true None (server pair_graph))
    as [db' [resp|e]] eqn:Hrun; [|by vm_compute in Hrun].
  pose proof Hrun as Hval. vm_compute in Hval. injection Hval as Hdb Hresp.
  assert (Hav : available db' = true) by (by rewrite <- Hdb).
  exists db', resp, (counted (graph (server pair_graph))), (counted (graph db')).
  split; [reflexivity|].
  split; [apply get_graph_stats_available; reflexivity|].
  split; [apply get_graph_stats_available; exact Hav|].
  assert (Hst : Algorithms.status resp = "completed") by (by rewrite <- Hresp).
  split; [exact Hst|].
  destruct (graph_stats_after_run "louvain" true None (server pair_graph) db' (Ok resp)
              (counted (graph (server pair_graph))) (counted (graph db')) Hrun
              (get_graph_stats_available (server pair_graph) eq_refl)
              (get_graph_stats_available db' Hav))
    as (Hu & Hf & Hc).
  split; [exact Hu|]. split; [exact Hf|]. by apply Hc.
Defined.

Lemma community_bridges_listing_witness :
  exists listing,
    Bridges.get_community_bridges 20 (server hub_graph) = (server hub_graph, Ok listing) /\
    Bridges.total listing = Z.of_nat (length (Bridges.bridges listing)) /\
    (Bridges.total listing <= 20)%Z /\
    StronglySorted (fun a b => (Bridges.bridge_count b <= Bridges.bridge_count a)%Z)
      (Bridges.bridges listing) /\
    forall b, b ∈ Bridges.bridges listing ->
      (2 <= Bridges.bridge_count b)%Z /\
      Bridges.bridge_count b = Z.of_nat (length (Bridges.bridged_communities b)) /\
      NoDup (Bridges.bridged_communities b) /\
      exists u,
        users (graph (server hub_graph)) !! u = Some (Bridges.bridge b) /\
        Bridges.bridge_count b
        = bridgedCommunities (graph (server hub_graph)) u (Bridges.bridge b) /\
        forall c, c ∈ Bridges.bridged_communities b ->
          community_id (Bridges.bridge b) <> Some c /\
          exists v, v ∈ Cypher.neighbors (graph (server hub_graph)) u /\
                    Cypher.prop (graph (server hub_graph)) community_id (Some v) = Some c.
Proof.
  eexists. split; [vm_compute; reflexivity|].
  refine (proj2 (proj2 (community_bridges_listing 20 (server hub_graph))
                   (server hub_graph) _ _)).
  vm_compute. reflexivity.
Defined.
